(** * clean_stream / AI_Engine: the retrieval-augmented suggestion pipeline

    A shallow embedding of [rag.py], [embeddings.py], [llm.py],
    [cleaning.py] and the endpoint of [main.py], and the properties of the
    retrieval step, the response normalizer, the per-row orchestration and
    the answers of the endpoint.

    Conventions of the embedding.
    - A Python [str] is a sequence of Unicode code points: [str := list N].
    - A Python [float] is kept abstract (class [PyFloat]): its arithmetic,
      its comparison, its [repr] and its constructor from text.
    - A Python [dict] is an association list in insertion order.
    - A call that may raise returns an [Outcome]; code that also touches the
      database or the log runs in the monad [M] over a [World]. *)

From Stdlib Require Import String Ascii Decimal.
From Stdlib Require DecimalPos DecimalN DecimalZ DecimalFacts.
From Stdlib Require Import List ZArith NArith Lia Bool.
From Stdlib Require Import Permutation Sorted.
Import Corelib.Init.Datatypes.
Import ListNotations.

Set Implicit Arguments.
Set Warnings "-register-all".

(* ------------------------------------------------------------------ *)
(** ** Python strings *)

Definition str := list N.

(** A str literal written with Rocq's string notation (code points 0..255). *)
Definition py (s : string) : str := map N_of_ascii (list_ascii_of_string s).
Arguments py s%_string.

Fixpoint str_eqb (a b : str) : bool :=
  match a, b with
  | [], [] => true
  | x :: a', y :: b' => (x =? y)%N && str_eqb a' b'
  | _, _ => false
  end.

(** [sep.join(parts)] *)
Definition join (sep : str) (parts : list str) : str :=
  match parts with
  | [] => []
  | p :: ps => p ++ flat_map (fun q => sep ++ q) ps
  end.

(** [s.find(c)] for a one-character needle: first index, or -1. *)
Fixpoint py_find (s : str) (c : N) : Z :=
  match s with
  | [] => (-1)%Z
  | x :: s' => if (x =? c)%N then 0%Z
               else let i := py_find s' c in
                    if (i <? 0)%Z then (-1)%Z else (i + 1)%Z
  end.

(** [s.rfind(c)] for a one-character needle: last index, or -1. *)
Fixpoint py_rfind (s : str) (c : N) : Z :=
  match s with
  | [] => (-1)%Z
  | x :: s' => let i := py_rfind s' c in
               if (0 <=? i)%Z then (i + 1)%Z
               else if (x =? c)%N then 0%Z else (-1)%Z
  end.

(** [s[start:stop]] for [0 <= start]. *)
Definition py_slice (A : Type) (s : list A) (start stop : Z) : list A :=
  firstn (Z.to_nat (stop - start)) (skipn (Z.to_nat start) s).

(** [l[:k]]: a negative [k] counts from the end. *)
Definition py_slice_to (A : Type) (l : list A) (k : Z) : list A :=
  if (k <? 0)%Z then firstn (length l - Z.to_nat (- k)) l
  else firstn (Z.to_nat k) l.

(* ------------------------------------------------------------------ *)
(** ** Python floats, kept abstract *)

Inductive FloatClass := FFinite | FNaN | FPosInf | FNegInf.

Class PyFloat := {
  float : Type;
  fadd : float -> float -> float;
  fmul : float -> float -> float;
  fdiv : float -> float -> float;
  fsqrt : float -> float;
  fzero : float;
  (** the literal [1e-8] *)
  feps : float;
  (** [a < b] *)
  flt : float -> float -> bool;
  float_class : float -> FloatClass;
  (** [float.__repr__] *)
  float_repr : float -> str;
  (** [float(text)] on a JSON number literal *)
  float_of_str : str -> float;
  (** [float('nan')], [float('inf')], [float('-inf')] *)
  fnan : float;
  fposinf : float;
  fneginf : float
}.

(* ------------------------------------------------------------------ *)
(** ** Exceptions *)

Inductive Exn :=
| JSONDecodeError
| RecursionError
| ValueError
| AttributeError
| EmbeddingError
| StorageError
| APIError.

Inductive Outcome (A : Type) :=
| Return (a : A)
| Raise (e : Exn).
Arguments Return {A} a.
Arguments Raise {A} e.

(* ------------------------------------------------------------------ *)
(** ** JSON values and [json.dumps] *)

Section Json.
Context {PF : PyFloat}.

(** What [json.loads] builds and [json.dumps] accepts.  A [dict] keeps its
    insertion order; its keys are [str] (the rows come from a JSON body). *)
Inductive json :=
| JNull
| JBool (b : bool)
| JInt (z : Z)
| JFloat (f : float)
| JStr (s : str)
| JArr (items : list json)
| JObj (pairs : list (str * json)).

(** Nesting of containers: a scalar is 0, [[]] is 1, [[[]]] is 2. *)
Fixpoint json_depth (v : json) : nat :=
  match v with
  | JArr l => S (fold_right (fun x m => Nat.max (json_depth x) m) 0 l)
  | JObj d => S (fold_right (fun kv m => Nat.max (json_depth (snd kv)) m) 0 d)
  | _ => 0
  end.

Definition is_dict (v : json) : bool :=
  match v with JObj _ => true | _ => false end.

(** [d.get(key, None)] on a dict. *)
Fixpoint dict_get (d : list (str * json)) (key : str) : option json :=
  match d with
  | [] => None
  | (k, v) :: d' => if str_eqb k key then Some v else dict_get d' key
  end.

(** [d[key] = v]: an existing key keeps its place and takes the new value. *)
Fixpoint dict_set (d : list (str * json)) (key : str) (v : json)
  : list (str * json) :=
  match d with
  | [] => [(key, v)]
  | (k, x) :: d' => if str_eqb k key then (k, v) :: d'
                    else (k, x) :: dict_set d' key v
  end.

(** [dict(pairs)] *)
Definition dict_of_pairs (pairs : list (str * json)) : list (str * json) :=
  fold_left (fun d kv => dict_set d (fst kv) (snd kv)) pairs [].

(** *** Encoder ([json.encoder], [ensure_ascii=True], [allow_nan=True]) *)

(** One digit of ['{:04x}'.format(n)]. *)
Definition hex_digit (n : N) : N :=
  (if n <? 10 then 48 + n else 87 + n)%N.

Definition hex4 (n : N) : str :=
  [hex_digit ((n / 4096) mod 16); hex_digit ((n / 256) mod 16);
   hex_digit ((n / 16) mod 16); hex_digit (n mod 16)]%N.

(** [ESCAPE_ASCII] and [ESCAPE_DCT]: what stands for the code point [c]. *)
Definition escape_char (c : N) : str :=
  (if c =? 34 then [92; 34]
   else if c =? 92 then [92; 92]
   else if c =? 8 then [92; 98]
   else if c =? 12 then [92; 102]
   else if c =? 10 then [92; 110]
   else if c =? 13 then [92; 114]
   else if c =? 9 then [92; 116]
   else if (32 <=? c) && (c <=? 126) then [c]
   else if c <? 65536 then [92; 117] ++ hex4 c
   else
     let n := c - 65536 in
     let s1 := N.lor 55296 (N.land (N.shiftr n 10) 1023) in
     let s2 := N.lor 56320 (N.land n 1023) in
     [92; 117] ++ hex4 s1 ++ [92; 117] ++ hex4 s2)%N.

Definition encode_basestring_ascii (s : str) : str :=
  [34%N] ++ flat_map escape_char s ++ [34%N].

Definition digit_char (d : N) : N := (48 + d)%N.

Fixpoint uint_str (d : Decimal.uint) : str :=
  match d with
  | Nil => []
  | D0 d => digit_char 0 :: uint_str d
  | D1 d => digit_char 1 :: uint_str d
  | D2 d => digit_char 2 :: uint_str d
  | D3 d => digit_char 3 :: uint_str d
  | D4 d => digit_char 4 :: uint_str d
  | D5 d => digit_char 5 :: uint_str d
  | D6 d => digit_char 6 :: uint_str d
  | D7 d => digit_char 7 :: uint_str d
  | D8 d => digit_char 8 :: uint_str d
  | D9 d => digit_char 9 :: uint_str d
  end.

(** [int.__repr__] *)
Definition int_repr (z : Z) : str :=
  match Z.to_int z with
  | Decimal.Pos d => uint_str d
  | Decimal.Neg d => 45%N :: uint_str d
  end.

(** [floatstr] of the encoder. *)
Definition floatstr (f : float) : str :=
  match float_class f with
  | FNaN => py "NaN"
  | FPosInf => py "Infinity"
  | FNegInf => py "-Infinity"
  | FFinite => float_repr f
  end.

(** ['\n' + ' ' * (indent * level)], or nothing when [indent] is [None]. *)
Definition newline_indent (indent : option nat) (level : nat) : str :=
  match indent with
  | None => []
  | Some n => 10%N :: repeat 32%N (n * level)
  end.

(** The item separator: [', '] by default, [','] and a new line with an
    indent. The key separator is [': '] in both cases. *)
Definition item_separator (indent : option nat) (level : nat) : str :=
  match indent with
  | None => py ", "
  | Some _ => py "," ++ newline_indent indent level
  end.

Fixpoint iterencode (indent : option nat) (level : nat) (o : json) : str :=
  match o with
  | JNull => py "null"
  | JBool true => py "true"
  | JBool false => py "false"
  | JInt z => int_repr z
  | JFloat f => floatstr f
  | JStr s => encode_basestring_ascii s
  | JArr [] => py "[]"
  | JArr l =>
      py "[" ++ newline_indent indent (S level)
      ++ join (item_separator indent (S level))
              (map (iterencode indent (S level)) l)
      ++ newline_indent indent level ++ py "]"
  | JObj [] => py "{}"
  | JObj d =>
      py "{" ++ newline_indent indent (S level)
      ++ join (item_separator indent (S level))
              (map (fun kv => encode_basestring_ascii (fst kv) ++ py ": "
                              ++ iterencode indent (S level) (snd kv)) d)
      ++ newline_indent indent level ++ py "}"
  end.

(** [json.dumps(o, indent=indent)]: the text it returns.  (Where
    [json.dumps] raises instead, on an integer of more digits than the
    interpreter converts or on nesting beyond its recursion limit, this is
    the text it would have returned; properties of the text of a value are
    stated for values within these limits.) *)
Definition json_dumps (indent : option nat) (o : json) : str :=
  iterencode indent 0 o.

(** *** Decoder ([json.decoder], [json.scanner], [strict=True]) *)

(** [WHITESPACE]: space, tab, line feed, carriage return. *)
Definition is_ws (c : N) : bool :=
  ((c =? 32) || (c =? 9) || (c =? 10) || (c =? 13))%N.

Fixpoint skip_ws (s : str) : str :=
  match s with
  | c :: r => if is_ws c then skip_ws r else s
  | [] => []
  end.

Definition is_digit (c : N) : bool := ((48 <=? c) && (c <=? 57))%N.

Definition hex_value (c : N) : option N :=
  (if is_digit c then Some (c - 48)
   else if (97 <=? c) && (c <=? 102) then Some (c - 87)
   else if (65 <=? c) && (c <=? 70) then Some (c - 55)
   else None)%N.

(** The four hex digits of a [\uXXXX] escape. *)
Definition decode_hex4 (a b c d : N) : option N :=
  match hex_value a, hex_value b, hex_value c, hex_value d with
  | Some x, Some y, Some z, Some w => Some (4096 * x + 256 * y + 16 * z + w)%N
  | _, _, _, _ => None
  end.

(** [BACKSLASH]: the one-letter escapes. *)
Definition backslash (c : N) : option N :=
  (if c =? 34 then Some 34
   else if c =? 92 then Some 92
   else if c =? 47 then Some 47
   else if c =? 98 then Some 8
   else if c =? 102 then Some 12
   else if c =? 110 then Some 10
   else if c =? 114 then Some 13
   else if c =? 116 then Some 9
   else None)%N.

Definition cons_char (c : N) (res : option (str * str)) : option (str * str) :=
  match res with
  | Some (t, rest) => Some (c :: t, rest)
  | None => None
  end.

(** [scanstring(s, end)] with [s] starting just after the opening quote:
    the decoded text and what follows the closing quote; [None] is a
    [JSONDecodeError] (unterminated, control character, bad escape). *)
Fixpoint scanstring (s : str) : option (str * str) :=
  match s with
  | [] => None
  | c :: r =>
    if (c =? 34)%N then Some ([], r)
    else if (c =? 92)%N then
      match r with
      | [] => None
      | e :: r1 =>
        if (e =? 117)%N then
          match r1 with
          | h1 :: h2 :: h3 :: h4 :: r2 =>
            match decode_hex4 h1 h2 h3 h4 with
            | None => None
            | Some uni =>
              match r2 with
              | b :: u :: g1 :: g2 :: g3 :: g4 :: r3 =>
                if ((55296 <=? uni) && (uni <=? 56319)
                    && (b =? 92) && (u =? 117))%N then
                  match decode_hex4 g1 g2 g3 g4 with
                  | None => None
                  | Some uni2 =>
                    if ((56320 <=? uni2) && (uni2 <=? 57343))%N then
                      cons_char (65536 + N.lor (N.shiftl (uni - 55296) 10)
                                               (uni2 - 56320))%N
                                (scanstring r3)
                    else cons_char uni (scanstring r2)
                  end
                else cons_char uni (scanstring r2)
              | _ => cons_char uni (scanstring r2)
              end
            end
          | _ => None
          end
        else
          match backslash e with
          | Some ch => cons_char ch (scanstring r1)
          | None => None
          end
      end
    else if (c <? 32)%N then None
    else cons_char c (scanstring r)
  end.

Fixpoint span_digits (s : str) : str * str :=
  match s with
  | c :: r => if is_digit c
              then let '(ds, r') := span_digits r in (c :: ds, r')
              else ([], s)
  | [] => ([], [])
  end.

(** [NUMBER_RE], group 1: an optional minus sign, then 0 or a digit 1..9
    followed by digits. *)
Definition match_unsigned (sign s1 : str) : option (str * str) :=
  match s1 with
  | c :: r =>
    if (c =? 48)%N then Some (sign ++ [c], r)
    else if is_digit c
         then let '(ds, r') := span_digits r in Some (sign ++ c :: ds, r')
         else None
  | [] => None
  end.

Definition match_integer (s : str) : option (str * str) :=
  match s with
  | c :: r => if (c =? 45)%N then match_unsigned [c] r
              else match_unsigned [] s
  | [] => None
  end.

(** group 2, optional: a dot and one or more digits. *)
Definition match_frac (s : str) : str * str :=
  match s with
  | c :: r =>
    if (c =? 46)%N then
      match span_digits r with
      | ([], _) => ([], s)
      | (ds, r') => (c :: ds, r')
      end
    else ([], s)
  | [] => ([], s)
  end.

(** group 3, optional: e or E, an optional sign, one or more digits. *)
Definition match_exp (s : str) : str * str :=
  match s with
  | c :: r =>
    if ((c =? 101) || (c =? 69))%N then
      let '(sg, r1) :=
        match r with
        | x :: r0 => if ((x =? 45) || (x =? 43))%N then ([x], r0) else ([], r)
        | [] => ([], r)
        end in
      match span_digits r1 with
      | ([], _) => ([], s)
      | (ds, r') => (c :: sg ++ ds, r')
      end
    else ([], s)
  | [] => ([], s)
  end.

(** [NUMBER_RE.match]: the three groups and what follows the match. *)
Definition match_number (s : str) : option (str * str * str * str) :=
  match match_integer s with
  | None => None
  | Some (i, r) =>
    let '(fr, r1) := match_frac r in
    let '(ex, r2) := match_exp r1 in
    Some (i, fr, ex, r2)
  end.

Definition digit_of_char (c : N) (d : Decimal.uint) : Decimal.uint :=
  (if c =? 48 then D0 d else if c =? 49 then D1 d
   else if c =? 50 then D2 d else if c =? 51 then D3 d
   else if c =? 52 then D4 d else if c =? 53 then D5 d
   else if c =? 54 then D6 d else if c =? 55 then D7 d
   else if c =? 56 then D8 d else D9 d)%N.

Fixpoint uint_of_str (s : str) : Decimal.uint :=
  match s with
  | [] => Nil
  | c :: r => digit_of_char c (uint_of_str r)
  end.

(** [int(text)] on group 1 of a number match. *)
Definition int_of_str (s : str) : Z :=
  match s with
  | c :: r => if (c =? 45)%N then Z.opp (Z.of_uint (uint_of_str r))
              else Z.of_uint (uint_of_str s)
  | [] => 0%Z
  end.

(** [s.startswith(p)], with what follows [p]. *)
Fixpoint strip_prefix (p s : str) : option str :=
  match p, s with
  | [], _ => Some s
  | x :: p', y :: s' => if (x =? y)%N then strip_prefix p' s' else None
  | _ :: _, [] => None
  end.

(** The constants the scanner accepts where no number matches. *)
Definition scan_constant (s : str) : option (json * str) :=
  match strip_prefix (py "NaN") s with
  | Some rest => Some (JFloat fnan, rest)
  | None =>
    match strip_prefix (py "Infinity") s with
    | Some rest => Some (JFloat fposinf, rest)
    | None =>
      match strip_prefix (py "-Infinity") s with
      | Some rest => Some (JFloat fneginf, rest)
      | None => None
      end
    end
  end.

(** What a scan yields: a value and the text after it, a [JSONDecodeError],
    a [RecursionError] (more nested containers than the interpreter allows),
    or the model's own fuel running out (never, see [scan_once_fuel]). *)
Inductive Scan :=
| SOk (v : json) (rest : str)
| SDecodeError
| SRecursionError
| SOutOfFuel.

(** [scan_once], [JSONObject] and [JSONArray].  [depth] is the number of
    containers the interpreter still lets the scanner enter
    ([Py_EnterRecursiveCall] in [_json.c]).
    [parse_pairs] starts just after the opening quote of a key,
    [parse_items] at the first character of an item. *)
Fixpoint scan_once (fuel depth : nat) (s : str) {struct fuel} : Scan :=
  match fuel with
  | O => SOutOfFuel
  | S fuel' =>
    match s with
    | [] => SDecodeError
    | c :: r =>
      if (c =? 34)%N then
        match scanstring r with
        | Some (t, rest) => SOk (JStr t) rest
        | None => SDecodeError
        end
      else if (c =? 123)%N then
        match depth with
        | O => SRecursionError
        | S d =>
          match skip_ws r with
          | x :: r' =>
            if (x =? 125)%N then SOk (JObj []) r'
            else if (x =? 34)%N then parse_pairs fuel' d r' []
            else SDecodeError
          | [] => SDecodeError
          end
        end
      else if (c =? 91)%N then
        match depth with
        | O => SRecursionError
        | S d =>
          match skip_ws r with
          | x :: r' =>
            if (x =? 93)%N then SOk (JArr []) r'
            else parse_items fuel' d (x :: r') []
          | [] => SDecodeError
          end
        end
      else
        match strip_prefix (py "null") s with
        | Some rest => SOk JNull rest
        | None =>
        match strip_prefix (py "true") s with
        | Some rest => SOk (JBool true) rest
        | None =>
        match strip_prefix (py "false") s with
        | Some rest => SOk (JBool false) rest
        | None =>
        match match_number s with
        | Some (i, [], [], rest) => SOk (JInt (int_of_str i)) rest
        | Some (i, fr, ex, rest) =>
            SOk (JFloat (float_of_str (i ++ fr ++ ex))) rest
        | None =>
          match scan_constant s with
          | Some (v, rest) => SOk v rest
          | None => SDecodeError
          end
        end end end end
    end
  end

with parse_pairs (fuel depth : nat) (s : str) (acc : list (str * json))
       {struct fuel} : Scan :=
  match fuel with
  | O => SOutOfFuel
  | S fuel' =>
    match scanstring s with
    | None => SDecodeError
    | Some (key, r) =>
      match skip_ws r with
      | c :: r1 =>
        if (c =? 58)%N then
          match scan_once fuel' depth (skip_ws r1) with
          | SOk v r2 =>
            match skip_ws r2 with
            | x :: r3 =>
              if (x =? 125)%N
              then SOk (JObj (dict_of_pairs (List.rev ((key, v) :: acc)))) r3
              else if (x =? 44)%N then
                match skip_ws r3 with
                | q :: r4 =>
                  if (q =? 34)%N
                  then parse_pairs fuel' depth r4 ((key, v) :: acc)
                  else SDecodeError
                | [] => SDecodeError
                end
              else SDecodeError
            | [] => SDecodeError
            end
          | other => other
          end
        else SDecodeError
      | [] => SDecodeError
      end
    end
  end

with parse_items (fuel depth : nat) (s : str) (acc : list json)
       {struct fuel} : Scan :=
  match fuel with
  | O => SOutOfFuel
  | S fuel' =>
    match scan_once fuel' depth s with
    | SOk v r =>
      match skip_ws r with
      | x :: r1 =>
        if (x =? 93)%N then SOk (JArr (List.rev (v :: acc))) r1
        else if (x =? 44)%N then parse_items fuel' depth (skip_ws r1) (v :: acc)
        else SDecodeError
      | [] => SDecodeError
      end
    | other => other
    end
  end.

(** [json.loads(s)] when the interpreter lets the scanner enter [limit]
    nested containers.  A text nested deeper raises [RecursionError], which
    is no [JSONDecodeError].  (The limit of Python 3.11 on the digits of an
    integer literal, a [ValueError], is not modelled: properties that rest
    on the scan of a text are stated for values and texts within that
    limit.) *)
Definition json_loads (limit : nat) (s : str) : Outcome json :=
  if match s with c :: _ => (c =? 65279)%N | [] => false end
  then Raise JSONDecodeError
  else
    match scan_once (2 * length s + 1) limit (skip_ws s) with
    | SOk v rest =>
      match skip_ws rest with
      | [] => Return v
      | _ :: _ => Raise JSONDecodeError
      end
    | SDecodeError => Raise JSONDecodeError
    | SRecursionError => Raise RecursionError
    | SOutOfFuel => Raise JSONDecodeError
    end.

End Json.

(* ------------------------------------------------------------------ *)
(** ** The database, the log and the collaborators *)

Section Pipeline.
Context {PF : PyFloat}.

Definition UUID := N.

(** [models.TenantEmbedding] ([created_at] is set by the server and never
    read by the code). *)
Record TenantEmbedding := {
  te_id : Z;
  te_tenant_id : str;
  te_content : str;
  te_embedding : list float
}.

(** [models.CleaningResult] *)
Record CleaningResult := {
  cr_id : Z;
  cr_tenant_id : str;
  cr_dataset_id : UUID;
  cr_row_data : json;
  cr_ai_suggestion : json;
  cr_confidence : option json;
  cr_status : str
}.

(** One constructor per logging call of the code, with its arguments. *)
Inductive LogEvent :=
| Info_processing_row (tenant_id : str) (dataset_id : UUID)
| Debug_embedding_dimension (n : nat)
| Info_retrieved_documents (n : nat)
| Debug_llm_response_received
| Info_result_saved (id : Z)
| Error_processing_row (e : Exn)
| Warning_could_not_parse
| Error_generating_embedding (e : Exn)
| Warning_no_embeddings (tenant_id : str)
| Error_retrieving_similar (e : Exn)
| Debug_calling_gemini
| Debug_raw_response (text : str)
| Info_llm_generated
| Error_llm_suggestion (e : Exn).

(** The two tables, the log, and the prompts sent to the generator. *)
Record World := {
  tenant_embeddings : list TenantEmbedding;
  cleaning_results : list CleaningResult;
  log : list LogEvent;
  llm_requests : list str
}.

Inductive DbOp := InsertEmbedding | SelectEmbeddings | InsertResult.

(** What the code does not define: the interpreter's recursion limit (as
    the number of nested containers the JSON scanner may enter), the
    embedding model, the generator's API, and whether a database call
    fails. *)
Record Env := {
  recursion_limit : nat;
  model_encode : str -> Outcome (list float);
  generate_content : str -> Outcome str;
  db_fault : DbOp -> option Exn
}.

(** A computation on the world that returns or raises. *)
Definition M (A : Type) : Type := World -> Outcome A * World.

Definition ret {A : Type} (a : A) : M A := fun w => (Return a, w).

Definition raise {A : Type} (e : Exn) : M A := fun w => (Raise e, w).

Definition bind {A B : Type} (m : M A) (k : A -> M B) : M B :=
  fun w => match m w with
           | (Return a, w') => k a w'
           | (Raise e, w') => (Raise e, w')
           end.

Definition lift {A : Type} (o : Outcome A) : M A := fun w => (o, w).

(** [try: m except Exception as e: h e] *)
Definition try_except {A : Type} (m : M A) (h : Exn -> M A) : M A :=
  fun w => match m w with
           | (Return a, w') => (Return a, w')
           | (Raise e, w') => h e w'
           end.

Definition logger (ev : LogEvent) : M unit :=
  fun w => (Return tt,
            {| tenant_embeddings := tenant_embeddings w;
               cleaning_results := cleaning_results w;
               log := log w ++ [ev];
               llm_requests := llm_requests w |}).

End Pipeline.

Declare Scope py_scope.
Delimit Scope py_scope with py.
Notation "x <- m ;; k" := (bind m (fun x => k))
  (at level 61, m at next level, right associativity) : py_scope.
Notation "m ;; k" := (bind m (fun _ => k))
  (at level 61, right associativity) : py_scope.

Section Program.
Context {PF : PyFloat}.
Local Open Scope py_scope.

(* ------------------------------------------------------------------ *)
(** ** embeddings.py *)

Definition generate_embedding (env : Env) (text : str) : M (list float) :=
  match model_encode env text with
  | Return embedding => ret embedding
  | Raise e => logger (Error_generating_embedding e) ;; raise e
  end.

(** [session.add], [session.commit], [session.refresh]: the row gets the
    next id of its table, unless the database call fails. *)
Definition save_embedding (env : Env) (tenant_id content : str)
    (embedding : list float) : M TenantEmbedding :=
  fun w =>
    match db_fault env InsertEmbedding with
    | Some e => (Raise e, w)
    | None =>
      let embedding_record :=
        {| te_id := Z.of_nat (S (length (tenant_embeddings w)));
           te_tenant_id := tenant_id;
           te_content := content;
           te_embedding := embedding |} in
      (Return embedding_record,
       {| tenant_embeddings := tenant_embeddings w ++ [embedding_record];
          cleaning_results := cleaning_results w;
          log := log w;
          llm_requests := llm_requests w |})
    end.

(* ------------------------------------------------------------------ *)
(** ** rag.py *)

(** [np.linalg.norm] *)
Definition np_norm (arr : list float) : float :=
  fsqrt (fold_left fadd (map (fun x => fmul x x) arr) fzero).

(** [np.dot] of two one-dimensional arrays: a [ValueError] when the shapes
    are not aligned. *)
Definition np_dot (a b : list float) : Outcome float :=
  if Nat.eqb (length a) (length b)
  then Return (fold_left fadd (map (fun xy => fmul (fst xy) (snd xy))
                                   (combine a b)) fzero)
  else Raise ValueError.

Definition compute_cosine_similarity (vec1 vec2 : list float) : Outcome float :=
  let arr1_norm := map (fun x => fdiv x (fadd (np_norm vec1) feps)) vec1 in
  let arr2_norm := map (fun x => fdiv x (fadd (np_norm vec2) feps)) vec2 in
  np_dot arr1_norm arr2_norm.

(** [list.sort(key=key, reverse=True)]: a stable sort, largest key first;
    of two items with equal keys the one that stood first stays first. *)
Fixpoint insert_desc {A : Type} (key : A -> float) (x : A) (l : list A)
  : list A :=
  match l with
  | [] => [x]
  | y :: l' => if flt (key x) (key y) then y :: insert_desc key x l'
               else x :: l
  end.

Definition sort_reverse {A : Type} (key : A -> float) (l : list A) : list A :=
  fold_right (insert_desc key) [] l.

(** The loop over [all_embeddings]: the first failing comparison ends it. *)
Fixpoint similarities_of (embedding : list float)
    (all_embeddings : list (str * list float))
  : Outcome (list (str * float)) :=
  match all_embeddings with
  | [] => Return []
  | (content, db_embedding) :: rest =>
    match compute_cosine_similarity embedding db_embedding with
    | Raise e => Raise e
    | Return similarity =>
      match similarities_of embedding rest with
      | Raise e => Raise e
      | Return similarities => Return ((content, similarity) :: similarities)
      end
    end
  end.

(** The query of [retrieve_similar]: content and embedding of the tenant's
    rows, in the order the table holds them. *)
Definition query_embeddings (tenant_id : str) (w : World)
  : list (str * list float) :=
  map (fun r => (te_content r, te_embedding r))
      (filter (fun r => str_eqb (te_tenant_id r) tenant_id)
              (tenant_embeddings w)).

Definition retrieve_similar (env : Env) (tenant_id : str)
    (embedding : list float) (top_k : Z) : M (list str) :=
  try_except
    (all_embeddings <-
       (fun w => match db_fault env SelectEmbeddings with
                 | Some e => (Raise e, w)
                 | None => (Return (query_embeddings tenant_id w), w)
                 end) ;;
     match all_embeddings with
     | [] => logger (Warning_no_embeddings tenant_id) ;; ret []
     | _ :: _ =>
       similarities <- lift (similarities_of embedding all_embeddings) ;;
       ret (map fst (py_slice_to (sort_reverse snd similarities) top_k))
     end)
    (fun e => logger (Error_retrieving_similar e) ;; ret []).

(* ------------------------------------------------------------------ *)
(** ** llm.py *)

Definition dq : str := [34%N].
Definition nl : str := [10%N].

(** The f-string [user_message]. *)
Definition user_message (context row_data : str) : str :=
  concat [

    py "You are a data cleaning expert. Analyze the following data row and provide cleaning suggestions.";
    nl; nl; py "## Context (similar previous rows):"; nl; context; nl; nl;
    py "## Row to Clean:"; nl; row_data; nl; nl;
    py "Provide your response as a JSON object with EXACTLY this structure (no markdown, just raw JSON):";
    nl; py "{"; nl; py "  "; dq; py "field"; dq; py ": "; dq;
    py "name of the field with issues (if any)"; dq; py ","; nl; py "  "; dq;
    py "issue_type"; dq; py ": "; dq;
    py "type of issue (missing, invalid_format, inconsistent, etc.)"; dq;
    py ","; nl; py "  "; dq; py "suggested_fix"; dq; py ": "; dq;
    py "specific suggestion to fix the issue"; dq; py ","; nl; py "  "; dq;
    py "confidence"; dq; py ": 0.85,"; nl; py "  "; dq; py "notes"; dq;
    py ": "; dq; py "any additional notes"; dq; nl; py "}"; nl; nl;
    py "If there are no issues, still return JSON with field "; dq;
    py "status"; dq; py " set to "; dq; py "clean"; dq; py "."
  ].

(** The canned answer when the API call fails. *)
Definition llm_failed_response : str :=
  concat [py "{"; dq; py "status"; dq; py ": "; dq; py "error"; dq; py ", ";
          dq; py "message"; dq; py ": "; dq; py "LLM API call failed"; dq;
          py "}"].

Definition generate_cleaning_suggestion (env : Env) (context row_data : str)
  : M str :=
  let user_message := user_message context row_data in
  logger Debug_calling_gemini ;;
  (fun w => (Return tt,
             {| tenant_embeddings := tenant_embeddings w;
                cleaning_results := cleaning_results w;
                log := log w;
                llm_requests := llm_requests w ++ [user_message] |})) ;;
  match generate_content env user_message with
  | Return response_text =>
      logger (Debug_raw_response response_text) ;;
      logger Info_llm_generated ;;
      ret response_text
  | Raise e =>
      logger (Error_llm_suggestion e) ;;
      ret llm_failed_response
  end.

(* ------------------------------------------------------------------ *)
(** ** cleaning.py *)

(** What [_parse_suggestion] returns when nothing parses. *)
Definition fallback_suggestion (suggestion_text : str) : json :=
  JObj [(py "status", JStr (py "error"));
        (py "message", JStr (py "Could not parse LLM response"));
        (py "raw_response", JStr suggestion_text)].

Definition _parse_suggestion (env : Env) (suggestion_text : str) : M json :=
  match json_loads (recursion_limit env) suggestion_text with
  | Return v => ret v
  | Raise JSONDecodeError =>
    let start := py_find suggestion_text 123 in
    let end_ := (py_rfind suggestion_text 125 + 1)%Z in
    match
      (if ((0 <=? start)%Z && (start <? end_)%Z)%bool then
         let json_str := py_slice suggestion_text start end_ in
         match json_loads (recursion_limit env) json_str with
         | Return v => Some v
         | Raise _ => None
         end
       else None)
    with
    | Some v => ret v
    | None =>
      logger Warning_could_not_parse ;;
      ret (fallback_suggestion suggestion_text)
    end
  | Raise e => raise e
  end.

(** [suggestion_json.get(key, None)]: only a dict has [get]. *)
Definition py_get (v : json) (key : str) : Outcome (option json) :=
  match v with
  | JObj d => Return (dict_get d key)
  | _ => Raise AttributeError
  end.

(** [session.add(cleaning_record)], [commit], [refresh]. *)
Definition save_cleaning_result (env : Env) (tenant_id : str)
    (dataset_id : UUID) (row suggestion : json) (confidence : option json)
  : M CleaningResult :=
  fun w =>
    match db_fault env InsertResult with
    | Some e => (Raise e, w)
    | None =>
      let cleaning_record :=
        {| cr_id := Z.of_nat (S (length (cleaning_results w)));
           cr_tenant_id := tenant_id;
           cr_dataset_id := dataset_id;
           cr_row_data := row;
           cr_ai_suggestion := suggestion;
           cr_confidence := confidence;
           cr_status := py "processed" |} in
      (Return cleaning_record,
       {| tenant_embeddings := tenant_embeddings w;
          cleaning_results := cleaning_results w ++ [cleaning_record];
          log := log w;
          llm_requests := llm_requests w |})
    end.

(** The dict [process_row] returns. *)
Record RowResult := {
  res_id : Z;
  res_status : str;
  res_suggestion : json
}.

(** The context of the prompt: the documents joined, or the placeholder. *)
Definition context_of (context_docs : list str) : str :=
  match context_docs with
  | [] => py "No previous examples available."
  | _ :: _ => join (nl ++ py "---" ++ nl) context_docs
  end.

Definition process_row (env : Env) (tenant_id : str) (dataset_id : UUID)
    (row : json) : M RowResult :=
  try_except
    (let text_representation := json_dumps (Some 2) row in
     logger (Info_processing_row tenant_id dataset_id) ;;
     embedding <- generate_embedding env text_representation ;;
     logger (Debug_embedding_dimension (length embedding)) ;;
     save_embedding env tenant_id text_representation embedding ;;
     context_docs <- retrieve_similar env tenant_id embedding 3 ;;
     let context := context_of context_docs in
     logger (Info_retrieved_documents (length context_docs)) ;;
     suggestion_text <-
       generate_cleaning_suggestion env context text_representation ;;
     logger Debug_llm_response_received ;;
     suggestion_json <- _parse_suggestion env suggestion_text ;;
     confidence <- lift (py_get suggestion_json (py "confidence")) ;;
     cleaning_record <-
       save_cleaning_result env tenant_id dataset_id row suggestion_json
                            confidence ;;
     logger (Info_result_saved (cr_id cleaning_record)) ;;
     ret {| res_id := cr_id cleaning_record;
            res_status := cr_status cleaning_record;
            res_suggestion := suggestion_json |})
    (fun e => logger (Error_processing_row e) ;; raise e).

End Program.

(* ------------------------------------------------------------------ *)
(** ** main.py *)

Section Endpoint.
Context {PF : PyFloat}.

(** [RowPayload]: the body of [POST /process-row]. *)
Record RowPayload := {
  tenantId : str;
  datasetId : str;
  row : json
}.

(** The logging calls of [main.py] (a logger of its own). *)
Inductive MainLogEvent :=
| Main_info_processing_row (tenant_id dataset_id : str)
| Main_error_invalid_dataset_id (e : Exn)
| Main_error_processing_row (e : Exn).

(** The two texts a [detail] starts with, and the exception whose message
    follows. *)
Inductive Detail :=
| Invalid_dataset_ID_format (e : Exn)
| Error_processing_row_detail (e : Exn).

(** What the endpoint answers: the returned dict, or the [HTTPException]
    it raises. *)
Inductive EndpointResult :=
| Response (tenant_id dataset_id : str) (result : RowResult)
| HTTPException (status_code : nat) (detail : Detail).

(** [isinstance(e, ValueError)]: [JSONDecodeError] is a subclass. *)
Definition is_ValueError (e : Exn) : bool :=
  match e with
  | ValueError | JSONDecodeError => true
  | _ => false
  end.

(** [process_row_endpoint(payload)]; [uuid] stands for the constructor
    [UUID(text)], which raises [ValueError] on a badly formed text. *)
Definition process_row_endpoint (uuid : str -> Outcome UUID) (env : Env)
    (payload : RowPayload) (w : World)
  : EndpointResult * World * list MainLogEvent :=
  let started :=
    [Main_info_processing_row (tenantId payload) (datasetId payload)] in
  let attempt :=
    match uuid (datasetId payload) with
    | Raise e => (Raise e, w)
    | Return dataset_id =>
        process_row env (tenantId payload) dataset_id (row payload) w
    end in
  match attempt with
  | (Return result, w') =>
      (Response (tenantId payload) (datasetId payload) result, w', started)
  | (Raise e, w') =>
      if is_ValueError e
      then (HTTPException 400 (Invalid_dataset_ID_format e), w',
            started ++ [Main_error_invalid_dataset_id e])
      else (HTTPException 500 (Error_processing_row_detail e), w',
            started ++ [Main_error_processing_row e])
  end.

End Endpoint.

(* ------------------------------------------------------------------ *)
(** ** An instance of the float interface for closed examples

    Every float is an integer [n], written [n.0]; the arithmetic is that
    of [Z].  It serves where a statement needs concrete vectors or a
    concrete number; no theorem below depends on it. *)

Definition ZFloat : PyFloat := {|
  float := Z;
  fadd := Z.add;
  fmul := Z.mul;
  fdiv := Z.div;
  fsqrt := Z.sqrt;
  fzero := 0%Z;
  feps := 0%Z;
  flt := Z.ltb;
  float_class := fun _ => FFinite;
  float_repr := fun z => int_repr z ++ py ".0";
  float_of_str := fun s => match match_integer s with
                           | Some (i, _) => int_of_str i
                           | None => 0%Z
                           end;
  fnan := 0%Z;
  fposinf := 0%Z;
  fneginf := 0%Z
|}.

(** *** Closed examples over [ZFloat] *)

Definition t1 : str := py "t1".
Definition t2 : str := py "t2".

Definition embedding_row (id : Z) (tenant content : str) (v : list Z)
  : @TenantEmbedding ZFloat :=
  {| te_id := id; te_tenant_id := tenant; te_content := content;
     te_embedding := (v : list (@float ZFloat)) |}.

Definition world_of (rows : list (@TenantEmbedding ZFloat)) : @World ZFloat :=
  {| tenant_embeddings := rows; cleaning_results := [];
     log := []; llm_requests := [] |}.

(** A store with four rows of [t1] and one of [t2]. *)
Definition example_rows : list (@TenantEmbedding ZFloat) :=
  [embedding_row 1 t1 (py "a") [0; 6]%Z;
   embedding_row 2 t1 (py "b") [6; 0]%Z;
   embedding_row 3 t2 (py "x") [6; 0]%Z;
   embedding_row 4 t1 (py "c") [6; 0]%Z;
   embedding_row 5 t1 (py "d") [-6; 0]%Z].

(** A store where one row of [t1] has three components. *)
Definition mismatched_rows : list (@TenantEmbedding ZFloat) :=
  [embedding_row 1 t1 (py "a") [0; 6]%Z;
   embedding_row 2 t1 (py "b") [6; 0; 0]%Z].

(** The generator's answer in the examples: an object with one field. *)
Definition clean_response : str :=
  concat [py "{"; dq; py "status"; dq; py ": "; dq; py "clean"; dq; py "}"].

(** Collaborators that all succeed. *)
Definition example_env : @Env ZFloat :=
  {| recursion_limit := 1000;
     model_encode := fun _ => Return ([6; 0]%Z : list (@float ZFloat));
     generate_content := fun _ => Return clean_response;
     db_fault := fun _ => None |}.

(** The row of the scenario: name "Jon", age empty. *)
Definition jon_row : @json ZFloat :=
  JObj [(py "name", JStr (py "Jon")); (py "age", JStr [])].

(** Two rows with the same two pairs, inserted in opposite orders. *)
Definition row_ab : @json ZFloat := JObj [(py "a", JInt 1); (py "b", JInt 2)].
Definition row_ba : @json ZFloat := JObj [(py "b", JInt 2); (py "a", JInt 1)].

(** A suggestion as the generator is asked to write it. *)
Definition example_suggestion : @json ZFloat :=
  JObj [(py "field", JStr (py "age"));
        (py "issue_type", JStr (py "missing"));
        (py "suggested_fix", JStr (py "impute median"));
        (py "confidence", JFloat (1%Z : @float ZFloat));
        (py "notes", JArr [JNull; JInt (-3); JStr [233%N; 128512%N; 10%N];
                           JObj []])].


(** Collaborators where the insert into [tenant_embeddings] fails. *)
Definition env_append_down : @Env ZFloat :=
  {| recursion_limit := 1000;
     model_encode := fun _ => Return ([6; 0]%Z : list (@float ZFloat));
     generate_content := fun _ => Return clean_response;
     db_fault := fun op => match op with
                           | InsertEmbedding => Some StorageError
                           | _ => None
                           end |}.

(** Collaborators where the generator answers with the text [[1, 2]]. *)
Definition env_list_answer : @Env ZFloat :=
  {| recursion_limit := 1000;
     model_encode := fun _ => Return ([6; 0]%Z : list (@float ZFloat));
     generate_content := fun _ => Return (py "[1, 2]");
     db_fault := fun _ => None |}.

(** Collaborators where the insert into [cleaning_results] fails. *)
Definition env_result_down : @Env ZFloat :=
  {| recursion_limit := 1000;
     model_encode := fun _ => Return ([6; 0]%Z : list (@float ZFloat));
     generate_content := fun _ => Return clean_response;
     db_fault := fun op => match op with
                           | InsertResult => Some StorageError
                           | _ => None
                           end |}.

(** Collaborators where the call of the generator fails. *)
Definition env_generator_down : @Env ZFloat :=
  {| recursion_limit := 1000;
     model_encode := fun _ => Return ([6; 0]%Z : list (@float ZFloat));
     generate_content := fun _ => Raise APIError;
     db_fault := fun _ => None |}.

(** Collaborators where the generator answers in prose. *)
Definition env_prose_answer : @Env ZFloat :=
  {| recursion_limit := 1000;
     model_encode := fun _ => Return ([6; 0]%Z : list (@float ZFloat));
     generate_content := fun _ => Return (py "I could not find any issue.");
     db_fault := fun _ => None |}.

(** Collaborators where the read of [tenant_embeddings] fails. *)
Definition env_select_down : @Env ZFloat :=
  {| recursion_limit := 1000;
     model_encode := fun _ => Return ([6; 0]%Z : list (@float ZFloat));
     generate_content := fun _ => Return clean_response;
     db_fault := fun op => match op with
                           | SelectEmbeddings => Some StorageError
                           | _ => None
                           end |}.

(** Collaborators where the embedding model raises a [ValueError]. *)
Definition env_encode_value_error : @Env ZFloat :=
  {| recursion_limit := 1000;
     model_encode := fun _ => Raise ValueError;
     generate_content := fun _ => Return clean_response;
     db_fault := fun _ => None |}.

(** A stand-in for [UUID(text)] that knows one identifier. *)
Definition example_uuid (text : str) : Outcome UUID :=
  if str_eqb text (py "00000000-0000-0000-0000-000000000007")
  then Return 7%N else Raise ValueError.

Definition example_payload : @RowPayload ZFloat :=
  {| tenantId := t1;
     datasetId := py "00000000-0000-0000-0000-000000000007";
     row := jon_row |}.

(** The generator's answer inside a Markdown fence. *)
Definition fenced_response : str :=
  py "```json" ++ nl ++ clean_response ++ nl ++ py "```".

(** Collaborators where the scanner may enter two containers and the
    generator answers with three opening brackets. *)
Definition env_deep_answer : @Env ZFloat :=
  {| recursion_limit := 2;
     model_encode := fun _ => Return ([6; 0]%Z : list (@float ZFloat));
     generate_content := fun _ => Return (py "[[[");
     db_fault := fun _ => None |}.

(* ------------------------------------------------------------------ *)
(** ** Vocabulary of the properties *)

(** Python's [<] on floats that are not NaN is a strict weak order.  (With
    a NaN it is none: every comparison with a NaN is false, so the laws
    are stated for the other floats only.) *)
Class FloatOrder (PF : PyFloat) : Prop := {
  flt_irrefl : forall a, float_class a <> FNaN -> flt a a = false;
  flt_trans : forall a b c,
    float_class a <> FNaN -> float_class b <> FNaN -> float_class c <> FNaN ->
    flt a b = true -> flt b c = true -> flt a c = true;
  flt_negtrans : forall a b c,
    float_class a <> FNaN -> float_class b <> FNaN -> float_class c <> FNaN ->
    flt a b = false -> flt b c = false -> flt a c = false
}.

(** [repr] of a finite float is a JSON number with a fraction or an
    exponent, and [float] reads it back as the same float. *)
Class FloatRepr (PF : PyFloat) : Prop := {
  float_repr_number : forall f, float_class f = FFinite ->
    exists i fr ex, match_number (float_repr f) = Some (i, fr, ex, [])
                    /\ (fr <> [] \/ ex <> []);
  float_repr_round_trip : forall f, float_class f = FFinite ->
    float_of_str (float_repr f) = f
}.

Section Vocabulary.
Context {PF : PyFloat}.

(** The similarity [retrieve_similar] gives a stored vector. *)
Definition similarity (q v : list float) : float :=
  match compute_cosine_similarity q v with
  | Return s => s
  | Raise _ => fzero
  end.

(** The tenant's rows as the ranking sees them: position in the scan,
    content, similarity to [q]. *)
Definition scored (q : list float) (rows : list (str * list float))
  : list (nat * (str * float)) :=
  combine (seq 0 (length rows))
          (map (fun cv => (fst cv, similarity q (snd cv))) rows).

(** [x] ranks before [y]: a strictly larger similarity, or an equal one and
    an earlier place in the scan. *)
Definition ranks_before (x y : nat * (str * float)) : Prop :=
  flt (snd (snd y)) (snd (snd x)) = true
  \/ (flt (snd (snd x)) (snd (snd y)) = false
      /\ flt (snd (snd y)) (snd (snd x)) = false
      /\ fst x < fst y).

(** A float that is no NaN, and a row of the ranking whose similarity is
    no NaN. *)
Definition not_nan (x : float) : Prop := float_class x <> FNaN.

Definition entry_not_nan (e : nat * (str * float)) : Prop :=
  not_nan (snd (snd e)).

(** One change to the table that touches no row of tenant [t]: a row of
    another tenant added, removed, or replaced by a row of another tenant. *)
Inductive foreign_edit (t : str)
  : list TenantEmbedding -> list TenantEmbedding -> Prop :=
| foreign_add : forall l1 l2 r,
    te_tenant_id r <> t -> foreign_edit t (l1 ++ l2) (l1 ++ r :: l2)
| foreign_remove : forall l1 l2 r,
    te_tenant_id r <> t -> foreign_edit t (l1 ++ r :: l2) (l1 ++ l2)
| foreign_modify : forall l1 l2 r r',
    te_tenant_id r <> t -> te_tenant_id r' <> t ->
    foreign_edit t (l1 ++ r :: l2) (l1 ++ r' :: l2).

(** Any number of such changes. *)
Inductive foreign_edits (t : str)
  : list TenantEmbedding -> list TenantEmbedding -> Prop :=
| foreign_none : forall l, foreign_edits t l l
| foreign_step : forall l1 l2 l3,
    foreign_edit t l1 l2 -> foreign_edits t l2 l3 -> foreign_edits t l1 l3.

(** [w] with [ev] appended to its log. *)
Definition logged (w : World) (evs : list LogEvent) : World :=
  {| tenant_embeddings := tenant_embeddings w;
     cleaning_results := cleaning_results w;
     log := log w ++ evs;
     llm_requests := llm_requests w |}.

(** A Unicode scalar value: a code point that is no surrogate. *)
Definition scalar_value (c : N) : bool :=
  ((c <? 55296) || ((57344 <=? c) && (c <? 1114112)))%N.

Definition valid_str (s : str) : bool := forallb scalar_value s.

(** The keys of a dict are pairwise different. *)
Fixpoint distinct_keys (keys : list str) : bool :=
  match keys with
  | [] => true
  | k :: rest => negb (existsb (str_eqb k) rest) && distinct_keys rest
  end.

(** A JSON value in the strict sense: finite numbers, text of scalar
    values, and dicts as Python holds them (no key twice). *)
Fixpoint valid_json (v : json) : bool :=
  match v with
  | JFloat f => match float_class f with FFinite => true | _ => false end
  | JStr s => valid_str s
  | JArr l => forallb valid_json l
  | JObj d => forallb (fun kv => valid_str (fst kv) && valid_json (snd kv)) d
              && distinct_keys (map fst d)
  | _ => true
  end.

(** [sys.int_info.default_max_str_digits]: CPython converts no integer of
    more decimal digits to or from text; [json.dumps] and [json.loads]
    then raise a [ValueError]. *)
Definition int_max_str_digits : Z := 4300.

(** Every integer in the value has at most that many digits. *)
Fixpoint ints_within_limit (v : json) : bool :=
  match v with
  | JInt z => (Z.abs z <? 10 ^ int_max_str_digits)%Z
  | JArr l => forallb ints_within_limit l
  | JObj d => forallb (fun kv => ints_within_limit (snd kv)) d
  | _ => true
  end.

(** No run of more than [int_max_str_digits] consecutive digits in a
    text ([run] digits stand just before [s]): wherever a scan of such a
    text starts, no integer literal in it is beyond the limit. *)
Fixpoint digit_runs_within (run : nat) (s : str) : bool :=
  match s with
  | [] => true
  | c :: r =>
      if is_digit c
      then (S run <=? Z.to_nat int_max_str_digits)
           && digit_runs_within (S run) r
      else digit_runs_within 0 r
  end.

Definition digit_runs_within_limit (s : str) : bool := digit_runs_within 0 s.

(** [n + 1] lists, one in the other, and a dict that holds them: a valid
    JSON object of depth [n + 2]. *)
Fixpoint nested_list (n : nat) : json :=
  match n with
  | O => JArr []
  | S m => JArr [nested_list m]
  end.

Definition deep_object (n : nat) : json := JObj [(py "a", nested_list n)].

(** What may follow the digits of a number: no digit. *)
Definition digit_end (rest : str) : bool :=
  match rest with
  | [] => true
  | c :: _ => negb (is_digit c)
  end.

(** What may follow a number in a text without making the number longer. *)
Definition number_end (rest : str) : bool :=
  match rest with
  | [] => true
  | c :: _ => negb (is_digit c || (c =? 46) || (c =? 101) || (c =? 69)
                    || (c =? 43) || (c =? 45))%N
  end.

(** The world after a successful insert of the embedding. *)
Definition with_embedding (w : World) (tenant_id content : str)
    (emb : list float) : World :=
  {| tenant_embeddings :=
       tenant_embeddings w
       ++ [{| te_id := Z.of_nat (S (length (tenant_embeddings w)));
              te_tenant_id := tenant_id;
              te_content := content;
              te_embedding := emb |}];
     cleaning_results := cleaning_results w;
     log := log w;
     llm_requests := llm_requests w |}.

(** Induction on a JSON value with the hypothesis on every item of an
    array and on every value of a dict. *)
Definition json_nested_ind (P : json -> Prop)
    (HNull : P JNull) (HBool : forall b, P (JBool b))
    (HInt : forall z, P (JInt z)) (HFloat : forall f, P (JFloat f))
    (HStr : forall s, P (JStr s))
    (HArr : forall l, Forall P l -> P (JArr l))
    (HObj : forall d, Forall (fun kv => P (snd kv)) d -> P (JObj d))
  : forall v, P v :=
  fix go (v : json) : P v :=
    match v with
    | JNull => HNull
    | JBool b => HBool b
    | JInt z => HInt z
    | JFloat f => HFloat f
    | JStr s => HStr s
    | JArr l =>
        HArr l ((fix items (l : list json) : Forall P l :=
                   match l with
                   | [] => Forall_nil P
                   | x :: r => Forall_cons x (go x) (items r)
                   end) l)
    | JObj d =>
        HObj d ((fix pairs (d : list (str * json))
                   : Forall (fun kv => P (snd kv)) d :=
                   match d with
                   | [] => Forall_nil _
                   | kv :: r => Forall_cons kv (go (snd kv)) (pairs r)
                   end) d)
    end.

(** The text of [v], followed by [rest], scans back to [v] and [rest]. *)
Definition round_trips (v : json) : Prop :=
  forall indent level fuel d rest,
    valid_json v = true ->
    json_depth v <= d ->
    2 * length (iterencode indent level v ++ rest) + 1 <= fuel ->
    number_end rest = true ->
    scan_once fuel d (iterencode indent level v ++ rest) = SOk v rest.

(** The items of an array after the first, each behind its separator, and
    the closing bracket. *)
Definition items_tail (indent : option nat) (level : nat) (l : list json)
    (rest : str) : str :=
  flat_map (fun q => item_separator indent (S level) ++ q)
           (map (iterencode indent (S level)) l)
  ++ newline_indent indent level ++ 93%N :: rest.

(** A pair of a dict after the opening quote of its key. *)
Definition pair_text (indent : option nat) (level : nat) (k : str) (v : json)
    (tail : str) : str :=
  flat_map escape_char k ++ 34%N :: 58%N :: 32%N
  :: iterencode indent (S level) v ++ tail.

Definition pairs_tail (indent : option nat) (level : nat)
    (l : list (str * json)) (rest : str) : str :=
  flat_map (fun q => item_separator indent (S level) ++ q)
           (map (fun kv => encode_basestring_ascii (fst kv) ++ py ": "
                           ++ iterencode indent (S level) (snd kv)) l)
  ++ newline_indent indent level ++ 125%N :: rest.

(** A scan that ended within its fuel and, when it yields a value, has
    consumed some text. *)
Definition scanned (s : str) (res : Scan) : Prop :=
  res <> SOutOfFuel
  /\ forall v r, res = SOk v r -> length r < length s.

(** The Cleaning Result [process_row] stores for a suggestion. *)
Definition cleaning_record_of (w : World) (tenant_id : str) (dataset_id : UUID)
    (row suggestion : json) (confidence : option json) : CleaningResult :=
  {| cr_id := Z.of_nat (S (length (cleaning_results w)));
     cr_tenant_id := tenant_id;
     cr_dataset_id := dataset_id;
     cr_row_data := row;
     cr_ai_suggestion := suggestion;
     cr_confidence := confidence;
     cr_status := py "processed" |}.

(** The text [generate_cleaning_suggestion] returns for a prompt. *)
Definition answer_of (env : Env) (prompt : str) : str :=
  match generate_content env prompt with
  | Return response_text => response_text
  | Raise _ => llm_failed_response
  end.

(** The world once the embedding is stored and the prompt is sent. *)
Definition after_prompt (w : World) (tenant_id content : str)
    (emb : list float) (prompt : str) (evs : list LogEvent) : World :=
  {| tenant_embeddings :=
       tenant_embeddings w
       ++ [{| te_id := Z.of_nat (S (length (tenant_embeddings w)));
              te_tenant_id := tenant_id;
              te_content := content;
              te_embedding := emb |}];
     cleaning_results := cleaning_results w;
     log := log w ++ evs;
     llm_requests := llm_requests w ++ [prompt] |}.

(** What [process_row] makes of the result of [_parse_suggestion] reached
    in the world [w2]: the confidence is read, the Cleaning Result is
    stored, and every exception is logged and raised again. *)
Definition finish_row (env : Env) (tenant_id : str) (dataset_id : UUID)
    (row : json) (parsed : Outcome json * World) : Outcome RowResult * World :=
  match parsed with
  | (Raise e, w2) => (Raise e, logged w2 [Error_processing_row e])
  | (Return v, w2) =>
    match py_get v (py "confidence") with
    | Raise e => (Raise e, logged w2 [Error_processing_row e])
    | Return confidence =>
      match db_fault env InsertResult with
      | Some e => (Raise e, logged w2 [Error_processing_row e])
      | None =>
        (Return {| res_id := Z.of_nat (S (length (cleaning_results w2)));
                   res_status := py "processed";
                   res_suggestion := v |},
         {| tenant_embeddings := tenant_embeddings w2;
            cleaning_results :=
              cleaning_results w2
              ++ [cleaning_record_of w2 tenant_id dataset_id row v confidence];
            log := log w2
                   ++ [Info_result_saved
                         (Z.of_nat (S (length (cleaning_results w2))))];
            llm_requests := llm_requests w2 |})
      end
    end
  end.

End Vocabulary.

Ltac solve_length :=
  repeat (progress (rewrite ?length_app in *; cbn [length] in *)); lia.


(* ================================================================== *)
(** * Properties *)

Unset Implicit Arguments.

(** ** Strings *)

Lemma str_eqb_refl : forall s, str_eqb s s = true.
Proof.
  induction s as [|c s IH]; simpl; [reflexivity|].
  now rewrite N.eqb_refl, IH.
Qed.

Lemma str_eqb_eq : forall a b, str_eqb a b = true <-> a = b.
Proof.
  induction a as [|x a IH]; destruct b as [|y b]; simpl; split; intro H;
    try reflexivity; try discriminate.
  - apply andb_true_iff in H as [H1 H2].
    apply N.eqb_eq in H1. apply IH in H2. now subst.
  - injection H as -> ->. now rewrite N.eqb_refl, str_eqb_refl.
Qed.

Lemma str_eqb_neq : forall a b, a <> b -> str_eqb a b = false.
Proof.
  intros a b H. destruct (str_eqb a b) eqn:E; [|reflexivity].
  apply str_eqb_eq in E. contradiction.
Qed.

(** ** The ranking *)

Section Ranking.
Context {PF : PyFloat}.

Lemma insert_desc_perm : forall (A : Type) (key : A -> float) x l,
  Permutation (insert_desc key x l) (x :: l).
Proof.
  induction l as [|y l IH]; simpl; [apply Permutation_refl|].
  destruct (flt (key x) (key y)).
  - eapply Permutation_trans; [apply perm_skip, IH | apply perm_swap].
  - apply Permutation_refl.
Qed.

Lemma sort_reverse_perm : forall (A : Type) (key : A -> float) l,
  Permutation (sort_reverse key l) l.
Proof.
  induction l as [|x l IH]; simpl; [constructor|].
  eapply Permutation_trans; [apply insert_desc_perm|].
  now apply perm_skip.
Qed.

Lemma sort_reverse_length : forall (A : Type) (key : A -> float) (l : list A),
  length (sort_reverse key l) = length l.
Proof. intros. apply Permutation_length, sort_reverse_perm. Qed.

(** Sorting pairs by a key of their second component and dropping the first
    is sorting the second components. *)
Lemma insert_desc_map : forall (A B : Type) (f : B -> A) (key : A -> float) x l,
  map f (insert_desc (fun b => key (f b)) x l) = insert_desc key (f x) (map f l).
Proof.
  induction l as [|y l IH]; simpl; [reflexivity|].
  destruct (flt (key (f x)) (key (f y))); simpl; [now rewrite IH | reflexivity].
Qed.

Lemma sort_reverse_map : forall (A B : Type) (f : B -> A) (key : A -> float) l,
  map f (sort_reverse (fun b => key (f b)) l) = sort_reverse key (map f l).
Proof.
  induction l as [|x l IH]; simpl; [reflexivity|].
  unfold sort_reverse in *. now rewrite insert_desc_map, IH.
Qed.

Context {FO : FloatOrder PF}.

Lemma ranks_before_trans : forall x y z,
  entry_not_nan x -> entry_not_nan y -> entry_not_nan z ->
  ranks_before x y -> ranks_before y z -> ranks_before x z.
Proof.
  unfold ranks_before, entry_not_nan, not_nan.
  intros [i [c a]] [j [d b]] [k [e g]]; simpl.
  intros Na Nb Ng [H1 | (H1 & H1' & Hij)] [H2 | (H2 & H2' & Hjk)].
  - left. exact (flt_trans g b a Ng Nb Na H2 H1).
  - left. destruct (flt g a) eqn:E; [reflexivity|].
    rewrite (flt_negtrans b g a Nb Ng Na H2 E) in H1. discriminate.
  - left. destruct (flt g a) eqn:E; [reflexivity|].
    rewrite (flt_negtrans g a b Ng Na Nb E H1) in H2. discriminate.
  - right. repeat split.
    + exact (flt_negtrans a b g Na Nb Ng H1 H2).
    + exact (flt_negtrans g b a Ng Nb Na H2' H1').
    + lia.
Qed.

Lemma insert_desc_sorted : forall x l,
  entry_not_nan x -> Forall entry_not_nan l ->
  StronglySorted ranks_before l ->
  Forall (fun y => fst x < fst y) l ->
  StronglySorted ranks_before (insert_desc (fun e => snd (snd e)) x l).
Proof.
  induction l as [|y l IH]; intros Nx Nl Hs Hx; simpl.
  - constructor; constructor.
  - inversion Hs as [|? ? Hs' Hy]; subst.
    inversion Hx as [|? ? Hxy Hx']; subst.
    inversion Nl as [|? ? Ny Nl']; subst.
    destruct (flt (snd (snd x)) (snd (snd y))) eqn:E.
    + constructor; [now apply IH|].
      eapply Permutation_Forall;
        [apply Permutation_sym, insert_desc_perm|].
      constructor; [now left | assumption].
    + assert (Hb : ranks_before x y).
      { unfold ranks_before.
        destruct (flt (snd (snd y)) (snd (snd x))) eqn:E'; [now left|].
        right. auto. }
      constructor; [assumption|].
      constructor; [assumption|].
      rewrite Forall_forall in Hy, Nl'. apply Forall_forall. intros z Hz.
      exact (ranks_before_trans x y z Nx Ny (Nl' z Hz) Hb (Hy z Hz)).
Qed.

Lemma sort_reverse_sorted : forall l,
  Forall entry_not_nan l ->
  StronglySorted lt (map fst l) ->
  StronglySorted ranks_before (sort_reverse (fun e => snd (snd e)) l).
Proof.
  induction l as [|x l IH]; intros Nl Hs; simpl; [constructor|].
  inversion Hs as [|? ? Hs' Hx]; subst.
  inversion Nl as [|? ? Nx Nl']; subst.
  apply insert_desc_sorted.
  - exact Nx.
  - eapply Permutation_Forall;
      [apply Permutation_sym, sort_reverse_perm | exact Nl'].
  - now apply IH.
  - eapply Permutation_Forall;
      [apply Permutation_sym, sort_reverse_perm|].
    apply Forall_forall. intros y Hy.
    rewrite Forall_forall in Hx. apply Hx. now apply in_map.
Qed.

Lemma ranks_before_asym : forall x y,
  entry_not_nan x -> entry_not_nan y ->
  ranks_before x y -> ranks_before y x -> False.
Proof.
  unfold ranks_before, entry_not_nan, not_nan.
  intros [i [c a]] [j [d b]]; simpl.
  intros Na Nb [H1 | (H1 & H1' & Hij)] [H2 | (H2 & H2' & Hji)];
    try congruence.
  - pose proof (flt_trans b a b Nb Na Nb H1 H2) as H.
    rewrite (flt_irrefl b Nb) in H. discriminate.
  - lia.
Qed.

(** There is one ranking: two sorted lists of the same rows are equal. *)
Lemma ranking_unique : forall l1 l2,
  Forall entry_not_nan l1 ->
  Permutation l1 l2 ->
  StronglySorted ranks_before l1 -> StronglySorted ranks_before l2 ->
  l1 = l2.
Proof.
  induction l1 as [|x l1 IH]; intros l2 Nl Hp Hs1 Hs2.
  - apply Permutation_nil in Hp. now subst.
  - destruct l2 as [|y l2].
    { apply Permutation_sym, Permutation_nil in Hp. discriminate. }
    inversion Hs1 as [|? ? Hs1' Hx]; subst.
    inversion Hs2 as [|? ? Hs2' Hy]; subst.
    inversion Nl as [|? ? Nx Nl']; subst.
    assert (Hxy : x = y).
    { assert (Hin : In x (y :: l2))
        by (apply (Permutation_in _ Hp); now left).
      destruct Hin as [->|Hin]; [reflexivity|].
      assert (Hin' : In y (x :: l1))
        by (apply (Permutation_in _ (Permutation_sym Hp)); now left).
      destruct Hin' as [->|Hin']; [reflexivity|].
      exfalso. rewrite Forall_forall in Hx, Hy, Nl'.
      exact (ranks_before_asym x y Nx (Nl' y Hin') (Hx y Hin') (Hy x Hin)). }
    subst y. f_equal. apply IH; [exact Nl'| |assumption|assumption].
    now apply Permutation_cons_inv in Hp.
Qed.

End Ranking.

(** ** rag.py: [retrieve_similar] *)

Section Retrieval.
Context {PF : PyFloat}.

Lemma cosine_same_length : forall q v,
  length v = length q ->
  compute_cosine_similarity q v = Return (similarity q v).
Proof.
  intros q v H. unfold similarity, compute_cosine_similarity, np_dot.
  rewrite !length_map, H, Nat.eqb_refl. reflexivity.
Qed.

Lemma cosine_mismatch : forall q v,
  length v <> length q -> compute_cosine_similarity q v = Raise ValueError.
Proof.
  intros q v H. unfold compute_cosine_similarity, np_dot.
  rewrite !length_map.
  destruct (Nat.eqb (length q) (length v)) eqn:E; [|reflexivity].
  apply Nat.eqb_eq in E. congruence.
Qed.

Lemma similarities_of_ok : forall q rows,
  Forall (fun cv => length (snd cv) = length q) rows ->
  similarities_of q rows
  = Return (map (fun cv => (fst cv, similarity q (snd cv))) rows).
Proof.
  induction rows as [|[c v] rows IH]; intros H; simpl; [reflexivity|].
  inversion H as [|? ? Hv Hr]; subst. simpl in Hv.
  rewrite (cosine_same_length _ _ Hv), (IH Hr). reflexivity.
Qed.

Lemma similarities_of_mismatch : forall q rows,
  Exists (fun cv => length (snd cv) <> length q) rows ->
  similarities_of q rows = Raise ValueError.
Proof.
  induction rows as [|[c v] rows IH]; intros H; simpl.
  - inversion H.
  - destruct (Nat.eq_dec (length v) (length q)) as [E|E].
    + rewrite (cosine_same_length _ _ E).
      inversion H as [? ? Hv|? ? Hr]; subst; [simpl in Hv; congruence|].
      now rewrite (IH Hr).
    + now rewrite (cosine_mismatch _ _ E).
Qed.

(** The three ways [retrieve_similar] ends. *)
Lemma retrieve_similar_empty : forall env t q k w,
  db_fault env SelectEmbeddings = None ->
  query_embeddings t w = [] ->
  retrieve_similar env t q k w = (Return [], logged w [Warning_no_embeddings t]).
Proof.
  intros env t q k w Hdb Hq.
  unfold retrieve_similar, try_except, bind. rewrite Hdb, Hq. reflexivity.
Qed.

Lemma retrieve_similar_ranked : forall env t q k w,
  db_fault env SelectEmbeddings = None ->
  query_embeddings t w <> [] ->
  Forall (fun cv => length (snd cv) = length q) (query_embeddings t w) ->
  retrieve_similar env t q k w
  = (Return (map fst (py_slice_to
       (sort_reverse snd
          (map (fun cv => (fst cv, similarity q (snd cv)))
               (query_embeddings t w))) k)), w).
Proof.
  intros env t q k w Hdb Hne Hlen.
  unfold retrieve_similar, try_except, bind, lift. rewrite Hdb.
  destruct (query_embeddings t w) as [|r rows] eqn:Hq; [congruence|].
  rewrite (similarities_of_ok _ _ Hlen). reflexivity.
Qed.

Lemma retrieve_similar_error : forall env t q k w,
  db_fault env SelectEmbeddings = None ->
  Exists (fun cv => length (snd cv) <> length q) (query_embeddings t w) ->
  retrieve_similar env t q k w
  = (Return [], logged w [Error_retrieving_similar ValueError]).
Proof.
  intros env t q k w Hdb Hex.
  unfold retrieve_similar, try_except, bind, lift. rewrite Hdb.
  destruct (query_embeddings t w) as [|r rows] eqn:Hq; [inversion Hex|].
  rewrite (similarities_of_mismatch _ _ Hex). reflexivity.
Qed.

Lemma seq_sorted : forall n a, StronglySorted lt (seq a n).
Proof.
  induction n as [|n IH]; intros a; simpl; constructor; [apply IH|].
  apply Forall_forall. intros x Hx. apply in_seq in Hx. lia.
Qed.

Lemma map_fst_combine : forall (A B : Type) (l : list A) (l' : list B),
  length l = length l' -> map fst (combine l l') = l.
Proof.
  induction l as [|x l IH]; destruct l' as [|y l']; simpl; intros H;
    try discriminate; [reflexivity|].
  f_equal. apply IH. now injection H.
Qed.

Lemma map_snd_combine : forall (A B : Type) (l : list A) (l' : list B),
  length l = length l' -> map snd (combine l l') = l'.
Proof.
  induction l as [|x l IH]; destruct l' as [|y l']; simpl; intros H;
    try discriminate; [reflexivity|].
  f_equal. apply IH. now injection H.
Qed.

Lemma scored_length : forall q rows, length (scored q rows) = length rows.
Proof.
  intros. unfold scored.
  rewrite length_combine, length_seq, length_map. apply Nat.min_id.
Qed.

Lemma py_slice_to_nonneg : forall (A : Type) (l : list A) k,
  (0 <= k)%Z -> py_slice_to l k = firstn (Z.to_nat k) l.
Proof.
  intros A l k H. unfold py_slice_to.
  destruct (k <? 0)%Z eqn:E; [|reflexivity]. apply Z.ltb_lt in E. lia.
Qed.

End Retrieval.

Section RetrievalClaims.
Context {PF : PyFloat}.

Lemma py_slice_to_incl : forall (A : Type) (l : list A) k x,
  In x (py_slice_to l k) -> In x l.
Proof.
  intros A l k x. unfold py_slice_to.
  assert (Hf : forall n, In x (firstn n l) -> In x l).
  { intros n H. rewrite <- (firstn_skipn n l). apply in_or_app. now left. }
  destruct (k <? 0)%Z; apply Hf.
Qed.

Lemma similarities_of_contents : forall q rows sims,
  similarities_of q rows = Return sims -> map fst sims = map fst rows.
Proof.
  induction rows as [|[c v] rows IH]; simpl; intros sims H.
  - injection H as <-. reflexivity.
  - destruct (compute_cosine_similarity q v); [|discriminate].
    destruct (similarities_of q rows) as [sims'|]; [|discriminate].
    injection H as <-. simpl. f_equal. now apply IH.
Qed.

Lemma retrieve_similar_of_query : forall env t q k w1 w2,
  query_embeddings t w1 = query_embeddings t w2 ->
  fst (retrieve_similar env t q k w1) = fst (retrieve_similar env t q k w2).
Proof.
  intros env t q k w1 w2 H.
  unfold retrieve_similar, try_except, bind, lift.
  destruct (db_fault env SelectEmbeddings); [reflexivity|].
  rewrite H. destruct (query_embeddings t w2) as [|r rows]; [reflexivity|].
  destruct (similarities_of q (r :: rows)); reflexivity.
Qed.

Lemma retrieve_similar_returns : forall env t q k w,
  exists r, fst (retrieve_similar env t q k w) = Return r.
Proof.
  intros env t q k w.
  unfold retrieve_similar, try_except, bind, lift.
  destruct (db_fault env SelectEmbeddings); [eexists; reflexivity|].
  destruct (query_embeddings t w) as [|r rows]; [eexists; reflexivity|].
  destruct (similarities_of q (r :: rows)); eexists; reflexivity.
Qed.

Lemma retrieve_similar_contents : forall env t q k w r c,
  fst (retrieve_similar env t q k w) = Return r -> In c r ->
  exists row, In row (tenant_embeddings w)
              /\ te_tenant_id row = t /\ te_content row = c.
Proof.
  intros env t q k w r c.
  unfold retrieve_similar, try_except, bind, lift.
  destruct (db_fault env SelectEmbeddings);
    [simpl; intros H; injection H as <-; contradiction|].
  destruct (query_embeddings t w) as [|r0 rows] eqn:Hq;
    [simpl; intros H; injection H as <-; contradiction|].
  destruct (similarities_of q (r0 :: rows)) as [sims|] eqn:Hs;
    [|simpl; intros H; injection H as <-; contradiction].
  simpl. intros H Hc. injection H as <-.
  apply in_map_iff in Hc as [[c' s] [Hc Hin]]. simpl in Hc. subst c'.
  apply py_slice_to_incl in Hin.
  apply (Permutation_in _ (sort_reverse_perm _ snd sims)) in Hin.
  assert (Hc : In c (map fst sims)) by (apply in_map_iff; now exists (c, s)).
  rewrite (similarities_of_contents _ _ _ Hs), <- Hq in Hc.
  unfold query_embeddings in Hc. rewrite map_map in Hc. simpl in Hc.
  apply in_map_iff in Hc as [row [Hrow Hin']].
  apply filter_In in Hin' as [Hin' Ht]. apply str_eqb_eq in Ht.
  exists row. auto.
Qed.

Lemma filter_foreign : forall t (l1 l2 : list TenantEmbedding) r,
  te_tenant_id r <> t ->
  filter (fun r => str_eqb (te_tenant_id r) t) (l1 ++ r :: l2)
  = filter (fun r => str_eqb (te_tenant_id r) t) (l1 ++ l2).
Proof.
  intros t l1 l2 r H. rewrite !filter_app. simpl.
  now rewrite (str_eqb_neq _ _ H).
Qed.

Lemma foreign_edits_filter : forall t l1 l2,
  foreign_edits t l1 l2 ->
  filter (fun r => str_eqb (te_tenant_id r) t) l1
  = filter (fun r => str_eqb (te_tenant_id r) t) l2.
Proof.
  induction 1 as [|l1 l2 l3 Hstep _ IH]; [reflexivity|].
  rewrite <- IH. destruct Hstep.
  - symmetry. now apply filter_foreign.
  - now apply filter_foreign.
  - rewrite !filter_foreign by assumption. reflexivity.
Qed.

(** C9. Changes to rows of other tenants (added, removed, replaced, any
    number of them) leave what [retrieve_similar] returns for tenant [t]
    unchanged, and every content it returns is the content of a row of
    tenant [t]. *)
Theorem retrieve_similar_tenant_isolation :
  forall env t q top_k (w1 w2 : World),
    foreign_edits t (tenant_embeddings w1) (tenant_embeddings w2) ->
    fst (retrieve_similar env t q top_k w1)
    = fst (retrieve_similar env t q top_k w2)
    /\ (forall r c,
          fst (retrieve_similar env t q top_k w2) = Return r -> In c r ->
          exists row, In row (tenant_embeddings w2)
                      /\ te_tenant_id row = t /\ te_content row = c).
Proof.
  intros env t q top_k w1 w2 H. split.
  - apply retrieve_similar_of_query. unfold query_embeddings.
    now rewrite (foreign_edits_filter _ _ _ H).
  - intros r c. apply retrieve_similar_contents.
Qed.

(** C3, in the form that holds of the code.
    When a stored vector of the tenant has another length
    than the query, [retrieve_similar] does not raise and returns the empty
    list; when the read of the table succeeds, what it catches and logs is
    the [ValueError] of [np.dot]. *)
Theorem retrieve_similar_dimension_mismatch :
  forall env t q top_k (w : World),
    Exists (fun cv => length (snd cv) <> length q) (query_embeddings t w) ->
    fst (retrieve_similar env t q top_k w) = Return []
    /\ (db_fault env SelectEmbeddings = None ->
        retrieve_similar env t q top_k w
        = (Return [], logged w [Error_retrieving_similar ValueError])).
Proof.
  intros env t q top_k w Hex. split.
  - destruct (db_fault env SelectEmbeddings) as [e|] eqn:Hdb.
    + unfold retrieve_similar, try_except, bind. now rewrite Hdb.
    + now rewrite (retrieve_similar_error env t q top_k w Hdb Hex).
  - intros Hdb. now apply retrieve_similar_error.
Qed.

Lemma scored_not_nan : forall q (rows : list (str * list float)),
  Forall (fun cv => not_nan (similarity q (snd cv))) rows ->
  Forall entry_not_nan (scored q rows).
Proof.
  intros q rows H. apply Forall_forall. intros [i [c x]] Hin.
  unfold scored in Hin. apply in_combine_r in Hin.
  apply in_map_iff in Hin as [cv [E Hcv]]. injection E as _ <-.
  rewrite Forall_forall in H. exact (H cv Hcv).
Qed.

(** C5, in the form that holds of the code.
    When the read succeeds and every stored vector of the tenant has the
    length of the query, [retrieve_similar] with [0 <= top_k] returns
    [min top_k n] contents for the tenant's [n] rows, and leaves the world
    as it is when [n > 0].  When moreover no similarity of the call is a
    NaN, so that [<] orders them, these are the contents of the first
    [top_k] rows of the ranking: a permutation of the scanned rows, sorted
    by similarity, largest first, rows of equal similarity in scan order;
    there is no other such ranking. *)
Theorem retrieve_similar_top_k :
  forall env t q top_k (w : World),
    db_fault env SelectEmbeddings = None ->
    Forall (fun cv => length (snd cv) = length q) (query_embeddings t w) ->
    (0 <= top_k)%Z ->
    exists docs,
      fst (retrieve_similar env t q top_k w) = Return docs
      /\ length docs
         = Nat.min (Z.to_nat top_k) (length (query_embeddings t w))
      /\ (query_embeddings t w <> [] ->
          snd (retrieve_similar env t q top_k w) = w)
      /\ (forall FO : FloatOrder PF,
            Forall (fun cv => not_nan (similarity q (snd cv)))
                   (query_embeddings t w) ->
            exists ranked,
              Permutation ranked (scored q (query_embeddings t w))
              /\ StronglySorted ranks_before ranked
              /\ docs = map (fun e => fst (snd e))
                            (firstn (Z.to_nat top_k) ranked)
              /\ (forall ranked',
                    Permutation ranked' (scored q (query_embeddings t w)) ->
                    StronglySorted ranks_before ranked' -> ranked' = ranked)).
Proof.
  intros env t q top_k w Hdb Hlen Hk.
  set (rows := query_embeddings t w) in *.
  set (sims := map (fun cv : str * list float =>
                      (fst cv, similarity q (snd cv))) rows).
  exists (map fst (firstn (Z.to_nat top_k) (sort_reverse snd sims))).
  assert (Hcomb : length (seq 0 (length rows)) = length sims)
    by (unfold sims; now rewrite length_seq, length_map).
  split.
  { destruct rows as [|r0 rows'] eqn:Hrows.
    - rewrite (retrieve_similar_empty env t q top_k w Hdb Hrows).
      simpl. now rewrite firstn_nil.
    - assert (Hne : query_embeddings t w <> []) by (fold rows; congruence).
      rewrite (retrieve_similar_ranked env t q top_k w Hdb Hne);
        [|fold rows; now rewrite Hrows].
      fold rows. rewrite Hrows.
      now rewrite (py_slice_to_nonneg _ _ _ Hk). }
  split.
  { rewrite length_map, length_firstn, sort_reverse_length. unfold sims.
    now rewrite length_map. }
  split.
  { intros Hne.
    rewrite (retrieve_similar_ranked env t q top_k w Hdb Hne Hlen).
    reflexivity. }
  intros FO Hnan.
  assert (Hsorted : StronglySorted ranks_before
                      (sort_reverse (fun e => snd (snd e)) (scored q rows))).
  { apply sort_reverse_sorted; [now apply scored_not_nan|].
    unfold scored. fold sims.
    rewrite (map_fst_combine _ _ _ _ Hcomb). apply seq_sorted. }
  exists (sort_reverse (fun e => snd (snd e)) (scored q rows)).
  split; [apply sort_reverse_perm|].
  split; [exact Hsorted|].
  split.
  { symmetry. rewrite <- (map_map snd fst), <- firstn_map.
    rewrite (sort_reverse_map _ _ snd snd).
    unfold scored. fold sims. now rewrite (map_snd_combine _ _ _ _ Hcomb). }
  intros ranked' Hp Hs. apply ranking_unique; [ |  |exact Hs|exact Hsorted].
  - eapply Permutation_Forall;
      [apply Permutation_sym, Hp | now apply scored_not_nan].
  - eapply Permutation_trans; [exact Hp|].
    apply Permutation_sym, sort_reverse_perm.
Qed.

End RetrievalClaims.

(** *** Closed instances *)

Lemma ZFloat_order : FloatOrder ZFloat.
Proof.
  split; simpl.
  - intros a _. apply Z.ltb_irrefl.
  - intros a b c _ _ _ H1 H2. apply Z.ltb_lt in H1, H2. apply Z.ltb_lt. lia.
  - intros a b c _ _ _ H1 H2. apply Z.ltb_ge in H1, H2. apply Z.ltb_ge. lia.
Qed.

Lemma retrieve_similar_tenant_isolation_witness :
  foreign_edits t1 example_rows
    [embedding_row 1 t1 (py "a") [0; 6]%Z;
     embedding_row 2 t1 (py "b") [6; 0]%Z;
     embedding_row 4 t1 (py "c") [6; 0]%Z;
     embedding_row 5 t1 (py "d") [-6; 0]%Z;
     embedding_row 6 t2 (py "y") [0; 6]%Z]
  /\ fst (retrieve_similar example_env t1 ([6; 0]%Z : list (@float ZFloat)) 3
            (world_of example_rows))
     = fst (retrieve_similar example_env t1 ([6; 0]%Z : list (@float ZFloat)) 3
              (world_of
                 [embedding_row 1 t1 (py "a") [0; 6]%Z;
                  embedding_row 2 t1 (py "b") [6; 0]%Z;
                  embedding_row 4 t1 (py "c") [6; 0]%Z;
                  embedding_row 5 t1 (py "d") [-6; 0]%Z;
                  embedding_row 6 t2 (py "y") [0; 6]%Z])).
Proof.
  assert (Hne : t2 <> t1) by discriminate.
  assert (H : foreign_edits t1 example_rows
    [embedding_row 1 t1 (py "a") [0; 6]%Z;
     embedding_row 2 t1 (py "b") [6; 0]%Z;
     embedding_row 4 t1 (py "c") [6; 0]%Z;
     embedding_row 5 t1 (py "d") [-6; 0]%Z;
     embedding_row 6 t2 (py "y") [0; 6]%Z]).
  { eapply foreign_step.
    - exact (@foreign_remove ZFloat t1
               [embedding_row 1 t1 (py "a") [0; 6]%Z;
                embedding_row 2 t1 (py "b") [6; 0]%Z]
               [embedding_row 4 t1 (py "c") [6; 0]%Z;
                embedding_row 5 t1 (py "d") [-6; 0]%Z]
               (embedding_row 3 t2 (py "x") [6; 0]%Z) Hne).
    - eapply foreign_step; [|apply foreign_none].
      exact (@foreign_add ZFloat t1
               [embedding_row 1 t1 (py "a") [0; 6]%Z;
                embedding_row 2 t1 (py "b") [6; 0]%Z;
                embedding_row 4 t1 (py "c") [6; 0]%Z;
                embedding_row 5 t1 (py "d") [-6; 0]%Z]
               [] (embedding_row 6 t2 (py "y") [0; 6]%Z) Hne). }
  split; [exact H|].
  exact (proj1 (retrieve_similar_tenant_isolation example_env t1 _ 3
                  (world_of example_rows) (world_of _) H)).
Defined.

Lemma retrieve_similar_dimension_mismatch_witness :
  fst (retrieve_similar example_env t1 ([6; 0]%Z : list (@float ZFloat)) 3
         (world_of mismatched_rows))
  = Return []
  /\ (db_fault example_env SelectEmbeddings = None ->
      retrieve_similar example_env t1 ([6; 0]%Z : list (@float ZFloat)) 3
        (world_of mismatched_rows)
      = (Return [],
         logged (world_of mismatched_rows)
                [Error_retrieving_similar ValueError])).
Proof.
  apply retrieve_similar_dimension_mismatch.
  apply Exists_cons_tl, Exists_cons_hd. simpl. discriminate.
Defined.

(** C3, counterexample: with a stored vector of three components and a query
    of two, the call returns normally, with the empty list. *)
Lemma retrieve_similar_mismatch_returns :
  fst (retrieve_similar example_env t1 ([6; 0]%Z : list (@float ZFloat)) 3
         (world_of mismatched_rows))
  = Return [].
Proof. reflexivity. Qed.

(** C5, counterexample: the tenant has two rows and [top_k] is 3, and the
    call returns no content, where [min 3 2] is 2. *)
Lemma retrieve_similar_mismatch_empty :
  length (query_embeddings t1 (world_of mismatched_rows)) = 2
  /\ fst (retrieve_similar example_env t1 ([0; 6]%Z : list (@float ZFloat)) 3
            (world_of mismatched_rows))
     = Return [].
Proof. split; reflexivity. Qed.

Lemma retrieve_similar_top_k_witness :
  exists docs,
    fst (retrieve_similar example_env t1 ([6; 0]%Z : list (@float ZFloat)) 3
           (world_of example_rows))
    = Return docs
    /\ length docs = 3
    /\ exists ranked,
         Permutation ranked
           (scored ([6; 0]%Z : list (@float ZFloat))
                   (query_embeddings t1 (world_of example_rows)))
         /\ StronglySorted ranks_before ranked
         /\ docs = map (fun e => fst (snd e)) (firstn 3 ranked).
Proof.
  destruct (retrieve_similar_top_k example_env t1
              ([6; 0]%Z : list (@float ZFloat)) 3 (world_of example_rows)
              eq_refl ltac:(repeat constructor) ltac:(lia))
    as (docs & Hfst & Hlen & _ & Hrank).
  destruct (Hrank ZFloat_order ltac:(repeat constructor; discriminate))
    as (ranked & Hp & Hs & Hdocs & _).
  exists docs. split; [exact Hfst|]. split; [exact Hlen|].
  exists ranked. auto.
Defined.

(** What that call returns: [b] and [c] tie and keep their
    scan order, [a] comes third, [d] is cut off. *)
Example retrieve_similar_example :
  fst (retrieve_similar example_env t1 ([6; 0]%Z : list (@float ZFloat)) 3
         (world_of example_rows))
  = Return [py "b"; py "c"; py "a"].
Proof. reflexivity. Qed.

(** ** cleaning.py: [process_row] *)

Section Orchestration.
Context {PF : PyFloat}.

Lemma logged_nil : forall w : World, logged w [] = w.
Proof. intros [te cr lg rq]. unfold logged. simpl. now rewrite app_nil_r. Qed.

Lemma logged_logged : forall (w : World) a b,
  logged (logged w a) b = logged w (a ++ b).
Proof. intros w a b. unfold logged. simpl. now rewrite app_assoc. Qed.

Lemma logger_logged : forall ev (w : World),
  logger ev w = (Return tt, logged w [ev]).
Proof. reflexivity. Qed.

Lemma bind_return : forall (A B : Type) (m : M A) (k : A -> M B) w a w',
  m w = (Return a, w') -> bind m k w = k a w'.
Proof. intros A B m k w a w' H. unfold bind. now rewrite H. Qed.

Lemma bind_raise : forall (A B : Type) (m : M A) (k : A -> M B) w e w',
  m w = (Raise e, w') -> bind m k w = (Raise e, w').
Proof. intros A B m k w e w' H. unfold bind. now rewrite H. Qed.

(** [retrieve_similar] always returns, and only adds to the log. *)
Lemma retrieve_similar_total : forall env t q k (w : World),
  exists r evs, retrieve_similar env t q k w = (Return r, logged w evs).
Proof.
  intros env t q k w.
  unfold retrieve_similar, try_except, bind, lift.
  destruct (db_fault env SelectEmbeddings).
  { eexists _, [_]. reflexivity. }
  destruct (query_embeddings t w) as [|r rows].
  { eexists _, [_]. reflexivity. }
  destruct (similarities_of q (r :: rows)).
  - exists (map fst (py_slice_to (sort_reverse snd a) k)), [].
    now rewrite logged_nil.
  - eexists _, [_]. reflexivity.
Qed.

(** [_parse_suggestion] only adds to the log. *)
Lemma parse_suggestion_world : forall env s (w : World),
  exists evs, snd (_parse_suggestion env s w) = logged w evs.
Proof.
  intros env s w. unfold _parse_suggestion.
  destruct (json_loads (recursion_limit env) s) as [v|[]];
    try (exists []; simpl; now rewrite logged_nil).
  destruct (_ && _)%bool;
    [destruct (json_loads _ _)|];
    try (exists []; simpl; now rewrite logged_nil);
    exists [Warning_could_not_parse]; reflexivity.
Qed.

(** [generate_cleaning_suggestion] always returns; it records its prompt
    and adds to the log. *)
Lemma generate_cleaning_suggestion_total : forall env context row_data (w : World),
  exists text evs,
    generate_cleaning_suggestion env context row_data w
    = (Return text,
       {| tenant_embeddings := tenant_embeddings w;
          cleaning_results := cleaning_results w;
          log := log w ++ evs;
          llm_requests := llm_requests w ++ [user_message context row_data] |})
    /\ (forall s, generate_content env (user_message context row_data) = Return s
                  -> text = s).
Proof.
  intros env context row_data w.
  unfold generate_cleaning_suggestion, bind, logger. simpl.
  destruct (generate_content env (user_message context row_data)) as [s|e]; simpl.
  - exists s, [Debug_calling_gemini; Debug_raw_response s; Info_llm_generated].
    split; [|intros s' H; now injection H].
    rewrite <- !app_assoc. reflexivity.
  - exists llm_failed_response, [Debug_calling_gemini; Error_llm_suggestion e].
    split; [|intros s' H; discriminate].
    rewrite <- !app_assoc. reflexivity.
Qed.

(** Steps 6 to 8 and the handler of [process_row], from a world [w1]:
    what they leave of the embeddings and of the prompts. *)
Lemma process_row_tail : forall env tenant_id dataset_id row text (w1 : World)
    (res : Outcome RowResult * World),
  res = try_except
    (bind (logger Debug_llm_response_received) (fun _ =>
     bind (_parse_suggestion env text) (fun suggestion_json =>
     bind (lift (py_get suggestion_json (py "confidence"))) (fun confidence =>
     bind (save_cleaning_result env tenant_id dataset_id row suggestion_json
                                confidence) (fun cleaning_record =>
     bind (logger (Info_result_saved (cr_id cleaning_record))) (fun _ =>
     ret {| res_id := cr_id cleaning_record;
            res_status := cr_status cleaning_record;
            res_suggestion := suggestion_json |}))))))
    (fun e => bind (logger (Error_processing_row e)) (fun _ => raise e)) w1 ->
  tenant_embeddings (snd res) = tenant_embeddings w1
  /\ llm_requests (snd res) = llm_requests w1.
Proof.
  intros env tenant_id dataset_id row text w1 res ->.
  destruct (parse_suggestion_world env text
              (logged w1 [Debug_llm_response_received])) as [evs Hw].
  unfold try_except, bind. rewrite logger_logged. cbv beta iota.
  destruct (_parse_suggestion env text _) as [[v|e] w2]; simpl in Hw; subst w2;
    [|split; reflexivity].
  unfold lift.
  destruct (py_get v (py "confidence")) as [c|e]; [|split; reflexivity].
  unfold save_cleaning_result.
  destruct (db_fault env InsertResult); split; reflexivity.
Qed.

End Orchestration.

Section OrchestrationClaims.
Context {PF : PyFloat}.

Lemma try_bind_return : forall (A B : Type) (m : M A) (k : A -> M B) h w a w',
  m w = (Return a, w') ->
  try_except (bind m k) h w = try_except (k a) h w'.
Proof. intros. unfold try_except, bind. now rewrite H. Qed.

Lemma try_bind_raise : forall (A B : Type) (m : M A) (k : A -> M B) h w e w',
  m w = (Raise e, w') ->
  try_except (bind m k) h w = h e w'.
Proof. intros. unfold try_except, bind. now rewrite H. Qed.

Lemma generate_embedding_return : forall env text emb (w : World),
  model_encode env text = Return emb ->
  generate_embedding env text w = (Return emb, w).
Proof. intros. unfold generate_embedding. now rewrite H. Qed.

Lemma generate_embedding_raise : forall env text e (w : World),
  model_encode env text = Raise e ->
  generate_embedding env text w
  = (Raise e, logged w [Error_generating_embedding e]).
Proof. intros. unfold generate_embedding. now rewrite H. Qed.


(** C2, in the form that holds of the code.
    When the insert of the embedding fails, [process_row]
    raises that exception: no prompt is sent, no suggestion is made, no
    Cleaning Result is written; the failure is logged and raised again. *)
Theorem process_row_append_failure :
  forall env tenant_id dataset_id row (w : World) emb e,
    model_encode env (json_dumps (Some 2) row) = Return emb ->
    db_fault env InsertEmbedding = Some e ->
    process_row env tenant_id dataset_id row w
    = (Raise e,
       logged w [Info_processing_row tenant_id dataset_id;
                 Debug_embedding_dimension (length emb);
                 Error_processing_row e]).
Proof.
  intros env tenant_id dataset_id row w emb e Henc Hdb.
  unfold process_row.
  erewrite try_bind_return by apply logger_logged.
  erewrite try_bind_return by (apply generate_embedding_return; exact Henc).
  erewrite try_bind_return by apply logger_logged.
  erewrite try_bind_raise
    by (unfold save_embedding; rewrite Hdb; reflexivity).
  unfold bind. rewrite logger_logged. cbv beta iota. unfold raise.
  now rewrite !logged_logged.
Qed.

Lemma save_embedding_return : forall env tenant_id content emb (w : World),
  db_fault env InsertEmbedding = None ->
  save_embedding env tenant_id content emb w
  = (Return {| te_id := Z.of_nat (S (length (tenant_embeddings w)));
               te_tenant_id := tenant_id;
               te_content := content;
               te_embedding := emb |},
     with_embedding w tenant_id content emb).
Proof. intros. unfold save_embedding. now rewrite H. Qed.

(** [process_row] up to the call of the generator, when the embedding and
    its insert succeed. *)
Lemma process_row_to_generator :
  forall env tenant_id dataset_id row (w : World) emb,
    model_encode env (json_dumps (Some 2) row) = Return emb ->
    db_fault env InsertEmbedding = None ->
    exists docs evs text evs',
      retrieve_similar env tenant_id emb 3
        (with_embedding
           (logged w [Info_processing_row tenant_id dataset_id;
                      Debug_embedding_dimension (length emb)])
           tenant_id (json_dumps (Some 2) row) emb)
      = (Return docs,
         logged (with_embedding
                   (logged w [Info_processing_row tenant_id dataset_id;
                              Debug_embedding_dimension (length emb)])
                   tenant_id (json_dumps (Some 2) row) emb) evs)
      /\ (forall s, generate_content env
                      (user_message (context_of docs) (json_dumps (Some 2) row))
                    = Return s -> text = s)
      /\ tenant_embeddings (snd (process_row env tenant_id dataset_id row w))
         = tenant_embeddings w
           ++ [{| te_id := Z.of_nat (S (length (tenant_embeddings w)));
                  te_tenant_id := tenant_id;
                  te_content := json_dumps (Some 2) row;
                  te_embedding := emb |}]
      /\ llm_requests (snd (process_row env tenant_id dataset_id row w))
         = llm_requests w
           ++ [user_message (context_of docs) (json_dumps (Some 2) row)]
      /\ process_row env tenant_id dataset_id row w
         = try_except
    (bind (logger Debug_llm_response_received) (fun _ =>
     bind (_parse_suggestion env text) (fun suggestion_json =>
     bind (lift (py_get suggestion_json (py "confidence"))) (fun confidence =>
     bind (save_cleaning_result env tenant_id dataset_id row suggestion_json
                                confidence) (fun cleaning_record =>
     bind (logger (Info_result_saved (cr_id cleaning_record))) (fun _ =>
     ret {| res_id := cr_id cleaning_record;
            res_status := cr_status cleaning_record;
            res_suggestion := suggestion_json |}))))))
    (fun e => bind (logger (Error_processing_row e)) (fun _ => raise e))
    {| tenant_embeddings :=
         tenant_embeddings w
         ++ [{| te_id := Z.of_nat (S (length (tenant_embeddings w)));
                te_tenant_id := tenant_id;
                te_content := json_dumps (Some 2) row;
                te_embedding := emb |}];
       cleaning_results := cleaning_results w;
       log := (((log w ++ [Info_processing_row tenant_id dataset_id;
                           Debug_embedding_dimension (length emb)])
                ++ evs) ++ [Info_retrieved_documents (length docs)]) ++ evs';
       llm_requests :=
         llm_requests w
         ++ [user_message (context_of docs) (json_dumps (Some 2) row)] |}.
Proof.
  intros env tenant_id dataset_id row w emb Henc Hdb.
  set (text := json_dumps (Some 2) row).
  set (w1 := with_embedding
               (logged w [Info_processing_row tenant_id dataset_id;
                          Debug_embedding_dimension (length emb)])
               tenant_id text emb).
  destruct (retrieve_similar_total env tenant_id emb 3 w1) as [docs [evs Hr]].
  destruct (generate_cleaning_suggestion_total env (context_of docs) text
              (logged (logged w1 evs) [Info_retrieved_documents (length docs)]))
    as [answer [evs' [Hg Hans]]].
  exists docs, evs, answer, evs'.
  split; [exact Hr|]. split; [exact Hans|].
  match goal with |- _ /\ _ /\ ?P = ?Q =>
    assert (E : P = Q) end.
  { unfold process_row. fold text.
    erewrite try_bind_return by apply logger_logged.
    erewrite try_bind_return by (apply generate_embedding_return; exact Henc).
    erewrite try_bind_return by apply logger_logged.
    erewrite try_bind_return
      by (rewrite logged_logged; apply save_embedding_return; exact Hdb).
    erewrite try_bind_return by exact Hr.
    erewrite try_bind_return by apply logger_logged.
    erewrite try_bind_return by exact Hg.
    reflexivity. }
  rewrite E.
  match goal with |- context [snd (try_except ?m ?h ?w0)] =>
    destruct (process_row_tail env tenant_id dataset_id row answer w0
                (try_except m h w0) eq_refl) as [H1 H2]
  end.
  rewrite H1, H2. auto.
Qed.

End OrchestrationClaims.

Section ProcessRowClaims.
Context {PF : PyFloat}.

Lemma query_embeddings_with_embedding :
  forall tenant_id content emb (w : World),
    query_embeddings tenant_id (with_embedding w tenant_id content emb)
    = query_embeddings tenant_id w ++ [(content, emb)].
Proof.
  intros. unfold query_embeddings, with_embedding. simpl.
  rewrite filter_app, map_app. simpl. now rewrite str_eqb_refl.
Qed.

Lemma query_embeddings_logged : forall tenant_id (w : World) evs,
  query_embeddings tenant_id (logged w evs) = query_embeddings tenant_id w.
Proof. reflexivity. Qed.

(** C1, in the form that holds of the code.
    The first row of a tenant: when the embedding, its insert and the read
    succeed, the retrieval finds the row just stored, and the prompt
    [process_row] sends has the serialized row itself as context. *)
Theorem process_row_first_row_context :
  forall env tenant_id dataset_id row (w : World) emb,
    model_encode env (json_dumps (Some 2) row) = Return emb ->
    db_fault env InsertEmbedding = None ->
    db_fault env SelectEmbeddings = None ->
    query_embeddings tenant_id w = [] ->
    llm_requests (snd (process_row env tenant_id dataset_id row w))
    = llm_requests w
      ++ [user_message (json_dumps (Some 2) row) (json_dumps (Some 2) row)].
Proof.
  intros env tenant_id dataset_id row w emb Henc Hins Hsel Hq.
  destruct (process_row_to_generator env tenant_id dataset_id row w emb Henc Hins)
    as (docs & evs & text & evs' & Hr & _ & _ & Hreq & _).
  rewrite Hreq. do 2 f_equal.
  rewrite retrieve_similar_ranked in Hr.
  - rewrite query_embeddings_with_embedding, query_embeddings_logged, Hq in Hr.
    simpl in Hr. injection Hr as <- _.
    unfold context_of, join. simpl. now rewrite app_nil_r.
  - exact Hsel.
  - rewrite query_embeddings_with_embedding. now destruct (query_embeddings _ _).
  - rewrite query_embeddings_with_embedding, query_embeddings_logged, Hq.
    repeat constructor.
Qed.

(** C4, in the form that holds of the code.
    [process_row] serializes the row with
    [json.dumps(row, indent=2)], the pairs in the order the dict holds
    them; when the embedding and its insert succeed, that one text is what
    the embedding model receives and the content of the row added to
    [tenant_embeddings]. *)
Theorem process_row_text_representation :
  forall env tenant_id dataset_id row (w : World) emb,
    model_encode env (json_dumps (Some 2) row) = Return emb ->
    db_fault env InsertEmbedding = None ->
    (exists record,
        tenant_embeddings (snd (process_row env tenant_id dataset_id row w))
        = tenant_embeddings w ++ [record]
        /\ te_tenant_id record = tenant_id
        /\ te_content record = json_dumps (Some 2) row
        /\ model_encode env (te_content record) = Return (te_embedding record))
    /\ (forall kv d,
          json_dumps (Some 2) (JObj (kv :: d))
          = py "{" ++ newline_indent (Some 2) 1
            ++ join (py "," ++ newline_indent (Some 2) 1)
                 (map (fun kv => encode_basestring_ascii (fst kv) ++ py ": "
                                 ++ iterencode (Some 2) 1 (snd kv)) (kv :: d))
            ++ newline_indent (Some 2) 0 ++ py "}").
Proof.
  intros env tenant_id dataset_id row w emb Henc Hins. split.
  - destruct (process_row_to_generator env tenant_id dataset_id row w emb
                Henc Hins)
      as (docs & evs & text & evs' & _ & _ & Hemb & _).
    eexists. split; [exact Hemb|]. simpl. auto.
  - reflexivity.
Qed.

(** C10. A text that parses as JSON to a value that is no dict comes back
    from [_parse_suggestion] as that value, not as the fallback object;
    [get] is defined on dicts only, so the extraction of the confidence
    raises [AttributeError], and [process_row] raises it without writing a
    Cleaning Result. *)
Theorem parse_suggestion_non_object :
  forall env s v,
    json_loads (recursion_limit env) s = Return v ->
    is_dict v = false ->
    (forall w : World, _parse_suggestion env s w = (Return v, w))
    /\ v <> fallback_suggestion s
    /\ py_get v (py "confidence") = Raise AttributeError
    /\ (forall d key, py_get (JObj d) key = Return (dict_get d key))
    /\ (forall tenant_id dataset_id row (w : World) emb,
          model_encode env (json_dumps (Some 2) row) = Return emb ->
          db_fault env InsertEmbedding = None ->
          (forall prompt, generate_content env prompt = Return s) ->
          fst (process_row env tenant_id dataset_id row w) = Raise AttributeError
          /\ cleaning_results (snd (process_row env tenant_id dataset_id row w))
             = cleaning_results w).
Proof.
  intros env s v Hload Hdict.
  assert (Hparse : forall w : World, _parse_suggestion env s w = (Return v, w)).
  { intros w. unfold _parse_suggestion. now rewrite Hload. }
  assert (Hget : py_get v (py "confidence") = Raise AttributeError).
  { destruct v; try reflexivity. discriminate. }
  split; [exact Hparse|].
  split; [intros ->; discriminate|].
  split; [exact Hget|].
  split; [reflexivity|].
  intros tenant_id dataset_id row w emb Henc Hins Hgen.
  destruct (process_row_to_generator env tenant_id dataset_id row w emb Henc Hins)
    as (docs & evs & text & evs' & _ & Htext & _ & _ & Hrow).
  rewrite (Htext s (Hgen _)) in Hrow. rewrite Hrow.
  erewrite try_bind_return by apply logger_logged.
  erewrite try_bind_return by apply Hparse.
  erewrite try_bind_raise by (unfold lift; rewrite Hget; reflexivity).
  unfold bind. rewrite logger_logged. cbv beta iota. unfold raise.
  split; reflexivity.
Qed.

End ProcessRowClaims.

(** *** Closed instances *)


Lemma process_row_append_failure_witness :
  process_row env_append_down t1 7%N jon_row (world_of [])
  = (Raise StorageError,
     logged (world_of [])
            [Info_processing_row t1 7%N;
             Debug_embedding_dimension
               (length ([6; 0]%Z : list (@float ZFloat)));
             Error_processing_row StorageError]).
Proof.
  apply (process_row_append_failure env_append_down t1 7%N jon_row
           (world_of []) ([6; 0]%Z : list (@float ZFloat)) StorageError);
    reflexivity.
Defined.

(** C2, counterexample: the insert of the embedding fails and the other
    collaborators work; [process_row] raises [StorageError], sends no prompt
    and writes no Cleaning Result. *)
Lemma process_row_append_failure_raises :
  fst (process_row env_append_down t1 7%N jon_row (world_of []))
  = Raise StorageError
  /\ llm_requests (snd (process_row env_append_down t1 7%N jon_row
                          (world_of []))) = []
  /\ cleaning_results (snd (process_row env_append_down t1 7%N jon_row
                              (world_of []))) = [].
Proof. repeat split; reflexivity. Qed.

Lemma process_row_first_row_context_witness :
  llm_requests (snd (process_row example_env t1 7%N jon_row (world_of [])))
  = llm_requests (world_of [])
    ++ [user_message (json_dumps (Some 2) jon_row)
                     (json_dumps (Some 2) jon_row)].
Proof.
  apply (process_row_first_row_context example_env t1 7%N jon_row
           (world_of []) ([6; 0]%Z : list (@float ZFloat)));
    reflexivity.
Defined.

(** C1, counterexample: tenant [t1] has no stored embedding and every
    collaborator works: the row is stored before the retrieval, the
    retrieval returns it, and the one prompt sent has the serialized row
    as context; it is not the prompt with the placeholder
    "No previous examples available.". *)
Lemma process_row_first_row_no_placeholder :
  fst (process_row example_env t1 7%N jon_row (world_of []))
  = Return {| res_id := 1; res_status := py "processed";
              res_suggestion := @JObj ZFloat [(py "status", JStr (py "clean"))] |}
  /\ llm_requests (snd (process_row example_env t1 7%N jon_row (world_of [])))
     = [user_message (json_dumps (Some 2) jon_row)
                     (json_dumps (Some 2) jon_row)]
  /\ str_eqb (user_message (json_dumps (Some 2) jon_row)
                           (json_dumps (Some 2) jon_row))
             (user_message (py "No previous examples available.")
                           (json_dumps (Some 2) jon_row))
     = false.
Proof. repeat split; vm_compute; reflexivity. Qed.

Lemma process_row_text_representation_witness :
  (exists record,
      tenant_embeddings (snd (process_row example_env t1 7%N row_ab (world_of [])))
      = tenant_embeddings (world_of []) ++ [record]
      /\ te_tenant_id record = t1
      /\ te_content record = json_dumps (Some 2) row_ab
      /\ model_encode example_env (te_content record)
         = Return (te_embedding record))
  /\ (forall (kv : str * @json ZFloat) d,
        json_dumps (Some 2) (JObj (kv :: d))
        = py "{" ++ newline_indent (Some 2) 1
          ++ join (py "," ++ newline_indent (Some 2) 1)
               (map (fun kv => encode_basestring_ascii (fst kv) ++ py ": "
                               ++ iterencode (Some 2) 1 (snd kv)) (kv :: d))
          ++ newline_indent (Some 2) 0 ++ py "}").
Proof.
  apply (process_row_text_representation example_env t1 7%N row_ab
           (world_of []) ([6; 0]%Z : list (@float ZFloat)));
    reflexivity.
Defined.

(** C4, counterexample: two rows with the same pairs, inserted in opposite
    orders, have different texts. *)
Lemma json_dumps_insertion_order :
  Permutation [(py "a", JInt 1%Z); (py "b", @JInt ZFloat 2%Z)]
              [(py "b", JInt 2%Z); (py "a", JInt 1%Z)]
  /\ str_eqb (json_dumps (Some 2) row_ab) (json_dumps (Some 2) row_ba) = false.
Proof. split; [apply perm_swap | reflexivity]. Qed.

Lemma parse_suggestion_non_object_witness :
  (forall w : @World ZFloat,
      _parse_suggestion env_list_answer (py "[1, 2]") w
      = (Return (JArr [JInt 1; JInt 2]), w))
  /\ @JArr ZFloat [JInt 1; JInt 2] <> fallback_suggestion (py "[1, 2]")
  /\ py_get (JArr [JInt 1%Z; @JInt ZFloat 2%Z]) (py "confidence")
     = Raise AttributeError
  /\ fst (process_row env_list_answer t1 7%N jon_row (world_of []))
     = Raise AttributeError
  /\ cleaning_results (snd (process_row env_list_answer t1 7%N jon_row
                              (world_of [])))
     = cleaning_results (world_of []).
Proof.
  destruct (parse_suggestion_non_object env_list_answer (py "[1, 2]")
              (JArr [JInt 1; JInt 2]) eq_refl eq_refl)
    as (H1 & H2 & H3 & _ & H5).
  destruct (H5 t1 7%N jon_row (world_of []) ([6; 0]%Z : list (@float ZFloat))
              eq_refl eq_refl (fun _ => eq_refl)) as [H6 H7].
  repeat split; assumption.
Defined.

(** ** cleaning.py: [_parse_suggestion] on deeply nested input *)

Section DeepNesting.
Context {PF : PyFloat}.

Lemma scan_once_deep : forall d fuel,
  2 * d + 1 <= fuel ->
  scan_once fuel d (repeat 91%N (S d)) = SRecursionError.
Proof.
  induction d as [|d IH]; intros fuel Hf.
  - destruct fuel as [|fuel]; [lia|]. reflexivity.
  - destruct fuel as [|[|fuel]]; try lia.
    specialize (IH fuel ltac:(lia)).
    change (repeat 91%N (S (S d))) with (91%N :: repeat 91%N (S d)).
    cbn [scan_once]. cbn [N.eqb Pos.eqb].
    change (repeat 91%N (S d)) with (91%N :: repeat 91%N d).
    cbn [skip_ws is_ws N.eqb Pos.eqb orb].
    cbn [parse_items].
    change (91%N :: repeat 91%N d) with (repeat 91%N (S d)).
    now rewrite IH.
Qed.

Lemma json_loads_deep : forall limit,
  json_loads limit (repeat 91%N (S limit)) = Raise RecursionError.
Proof.
  intros limit. unfold json_loads.
  change (repeat 91%N (S limit)) with (91%N :: repeat 91%N limit) at 1.
  cbn [N.eqb Pos.eqb].
  rewrite repeat_length.
  change (repeat 91%N (S limit)) with (91%N :: repeat 91%N limit).
  cbn [skip_ws is_ws N.eqb Pos.eqb orb].
  change (91%N :: repeat 91%N limit) with (repeat 91%N (S limit)).
  rewrite scan_once_deep by lia. reflexivity.
Qed.

(** C6 (the code at the failing input). On a text of one more opening
    bracket than the interpreter lets the JSON scanner nest,
    [json.loads] raises [RecursionError]; the first handler of
    [_parse_suggestion] names [JSONDecodeError] only, and the exception
    leaves the function. *)
Theorem parse_suggestion_raises_on_deep_nesting :
  forall env (w : World),
    _parse_suggestion env (repeat 91%N (S (recursion_limit env))) w
    = (Raise RecursionError, w).
Proof.
  intros env w. unfold _parse_suggestion.
  now rewrite json_loads_deep.
Qed.

End DeepNesting.

(** ** json: the decoder reads back what the encoder writes *)

Section Lexical.

Lemma skip_ws_newline_indent : forall indent level s,
  skip_ws (newline_indent indent level ++ s) = skip_ws s.
Proof.
  intros [n|] level s; [|reflexivity].
  unfold newline_indent. cbn [app skip_ws is_ws N.eqb Pos.eqb orb].
  induction (n * level) as [|k IH]; [reflexivity|]. exact IH.
Qed.

Lemma skip_ws_head : forall c s, is_ws c = false -> skip_ws (c :: s) = c :: s.
Proof. intros c s H. simpl. now rewrite H. Qed.

Lemma skip_ws_length : forall s, length (skip_ws s) <= length s.
Proof.
  induction s as [|c s IH]; simpl; [lia|].
  destruct (is_ws c); simpl; lia.
Qed.

(** *** Hex digits and surrogate pairs *)

Lemma hex_value_digit : forall d, (d < 16)%N -> hex_value (hex_digit d) = Some d.
Proof.
  intros d H. unfold hex_value, hex_digit, is_digit.
  destruct (N.ltb_spec d 10).
  - replace ((48 <=? 48 + d) && (48 + d <=? 57))%N with true.
    + f_equal. lia.
    + symmetry. apply andb_true_iff. split; apply N.leb_le; lia.
  - replace ((48 <=? 87 + d) && (87 + d <=? 57))%N with false.
    + replace ((97 <=? 87 + d) && (87 + d <=? 102))%N with true.
      * f_equal. lia.
      * symmetry. apply andb_true_iff. split; apply N.leb_le; lia.
    + symmetry. apply andb_false_iff. right. apply N.leb_gt. lia.
Qed.

Lemma decode_hex4_hex4 : forall n, (n < 65536)%N ->
  match hex4 n with
  | [a; b; c; d] => decode_hex4 a b c d = Some n
  | _ => False
  end.
Proof.
  intros n H. unfold hex4, decode_hex4.
  rewrite !hex_value_digit by (apply N.mod_lt; discriminate).
  f_equal.
  pose proof (N.div_mod n 16 ltac:(discriminate)) as E1.
  pose proof (N.div_mod (n / 16) 16 ltac:(discriminate)) as E2.
  pose proof (N.div_mod (n / 16 / 16) 16 ltac:(discriminate)) as E3.
  rewrite !N.Div0.div_div in E2, E3. change (16 * 16)%N with 256%N in *.
  rewrite N.Div0.div_div in E3. change (256 * 16)%N with 4096%N in *.
  assert (E4 : (n / 4096 < 16)%N)
    by (apply N.Div0.div_lt_upper_bound; lia).
  rewrite (N.mod_small (n / 4096) 16 E4).
  lia.
Qed.

Lemma lor_shiftl_10 : forall h l, (l < 1024)%N ->
  N.lor (N.shiftl h 10) l = (1024 * h + l)%N.
Proof.
  intros h l H.
  rewrite <- N.lxor_lor, <- N.add_nocarry_lxor.
  - rewrite N.shiftl_mul_pow2. change (2 ^ 10)%N with 1024%N. lia.
  - apply N.bits_inj. intros i. rewrite N.land_spec, N.bits_0.
    destruct (N.ltb_spec i 10).
    + rewrite N.shiftl_spec_low by assumption. reflexivity.
    + replace (N.testbit l i) with false; [apply andb_false_r|].
      symmetry. destruct (N.eq_dec l 0) as [->|Hl]; [apply N.bits_0|].
      apply N.bits_above_log2. apply N.log2_lt_pow2; [lia|].
      apply N.lt_le_trans with (2 ^ 10)%N; [exact H|].
      apply N.pow_le_mono_r; [discriminate | assumption].
  - apply N.bits_inj. intros i. rewrite N.land_spec, N.bits_0.
    destruct (N.ltb_spec i 10).
    + rewrite N.shiftl_spec_low by assumption. reflexivity.
    + replace (N.testbit l i) with false; [apply andb_false_r|].
      symmetry. destruct (N.eq_dec l 0) as [->|Hl]; [apply N.bits_0|].
      apply N.bits_above_log2. apply N.log2_lt_pow2; [lia|].
      apply N.lt_le_trans with (2 ^ 10)%N; [exact H|].
      apply N.pow_le_mono_r; [discriminate | assumption].
Qed.

(** The two halves of a code point above the Basic Multilingual Plane, and
    the code point they join to. *)
Lemma surrogate_pair : forall c, (65536 <= c < 1114112)%N ->
  let n := (c - 65536)%N in
  let s1 := N.lor 55296 (N.land (N.shiftr n 10) 1023) in
  let s2 := N.lor 56320 (N.land n 1023) in
  (55296 <= s1 <= 56319)%N /\ (56320 <= s2 <= 57343)%N
  /\ (65536 + N.lor (N.shiftl (s1 - 55296) 10) (s2 - 56320))%N = c.
Proof.
  intros c Hc n s1 s2.
  assert (Hn : (n < 1048576)%N) by (unfold n; lia).
  assert (Hhi : N.land (N.shiftr n 10) 1023 = (n / 1024)%N).
  { change 1023%N with (N.ones 10). rewrite N.land_ones, N.shiftr_div_pow2.
    change (2 ^ 10)%N with 1024%N. apply N.mod_small.
    apply N.Div0.div_lt_upper_bound. lia. }
  assert (Hlo : N.land n 1023 = (n mod 1024)%N).
  { change 1023%N with (N.ones 10). now rewrite N.land_ones. }
  assert (Hh : (n / 1024 < 1024)%N) by (apply N.Div0.div_lt_upper_bound; lia).
  assert (Hl : (n mod 1024 < 1024)%N) by (apply N.mod_lt; discriminate).
  assert (E1 : s1 = (55296 + n / 1024)%N).
  { unfold s1. rewrite Hhi. change 55296%N with (N.shiftl 54 10).
    rewrite lor_shiftl_10 by assumption. reflexivity. }
  assert (E2 : s2 = (56320 + n mod 1024)%N).
  { unfold s2. rewrite Hlo. change 56320%N with (N.shiftl 55 10).
    rewrite lor_shiftl_10 by assumption. reflexivity. }
  rewrite E1, E2. repeat split; try lia.
  replace (55296 + n / 1024 - 55296)%N with (n / 1024)%N by lia.
  replace (56320 + n mod 1024 - 56320)%N with (n mod 1024)%N by lia.
  rewrite lor_shiftl_10 by assumption.
  pose proof (N.div_mod n 1024 ltac:(discriminate)). unfold n in *. lia.
Qed.

End Lexical.

Section Strings.

Lemma scanstring_escape_u : forall a b c d uni s,
  decode_hex4 a b c d = Some uni ->
  ((55296 <=? uni) && (uni <=? 56319))%N = false ->
  scanstring (92 :: 117 :: a :: b :: c :: d :: s)%N
  = cons_char uni (scanstring s).
Proof.
  intros a b c d uni s Hd Hs.
  cbn [scanstring N.eqb Pos.eqb]. rewrite Hd.
  destruct s as [|x1 [|x2 [|x3 [|x4 [|x5 [|x6 s]]]]]]; try reflexivity.
  now rewrite Hs.
Qed.

Lemma scanstring_escape_pair : forall a b c d e f g h s1 s2 s,
  decode_hex4 a b c d = Some s1 ->
  decode_hex4 e f g h = Some s2 ->
  (55296 <= s1 <= 56319)%N -> (56320 <= s2 <= 57343)%N ->
  scanstring (92 :: 117 :: a :: b :: c :: d
              :: 92 :: 117 :: e :: f :: g :: h :: s)%N
  = cons_char (65536 + N.lor (N.shiftl (s1 - 55296) 10) (s2 - 56320))%N
              (scanstring s).
Proof.
  intros a b c d e f g h s1 s2 s Hd1 Hd2 H1 H2.
  cbn [scanstring N.eqb Pos.eqb]. rewrite Hd1.
  replace ((55296 <=? s1) && (s1 <=? 56319))%N with true
    by (symmetry; apply andb_true_iff; split; apply N.leb_le; lia).
  cbn [andb N.eqb Pos.eqb]. rewrite Hd2.
  replace ((56320 <=? s2) && (s2 <=? 57343))%N with true
    by (symmetry; apply andb_true_iff; split; apply N.leb_le; lia).
  reflexivity.
Qed.

Lemma scanstring_escape_char : forall c s,
  scalar_value c = true ->
  scanstring (escape_char c ++ s) = cons_char c (scanstring s).
Proof.
  intros c s Hc. unfold escape_char.
  destruct (N.eqb_spec c 34) as [->|H34]; [reflexivity|].
  destruct (N.eqb_spec c 92) as [->|H92]; [reflexivity|].
  destruct (N.eqb_spec c 8) as [->|H8]; [reflexivity|].
  destruct (N.eqb_spec c 12) as [->|H12]; [reflexivity|].
  destruct (N.eqb_spec c 10) as [->|H10]; [reflexivity|].
  destruct (N.eqb_spec c 13) as [->|H13]; [reflexivity|].
  destruct (N.eqb_spec c 9) as [->|H9]; [reflexivity|].
  destruct ((32 <=? c) && (c <=? 126))%N eqn:Hp.
  { apply andb_true_iff in Hp as [Hlo Hhi]. apply N.leb_le in Hlo.
    cbn [app scanstring].
    rewrite (proj2 (N.eqb_neq c 34) H34), (proj2 (N.eqb_neq c 92) H92).
    replace (c <? 32)%N with false by (symmetry; apply N.ltb_ge; lia).
    reflexivity. }
  unfold scalar_value in Hc.
  destruct (N.ltb_spec c 65536) as [Hlt|Hge].
  - pose proof (decode_hex4_hex4 c Hlt) as Hd. unfold hex4 in *.
    cbn [app]. apply scanstring_escape_u; [exact Hd|].
    apply orb_true_iff in Hc as [Hc|Hc].
    + apply N.ltb_lt in Hc. apply andb_false_iff. left. apply N.leb_gt. lia.
    + apply andb_true_iff in Hc as [Hc _]. apply N.leb_le in Hc.
      apply andb_false_iff. right. apply N.leb_gt. lia.
  - assert (Hr : (65536 <= c < 1114112)%N).
    { split; [exact Hge|].
      apply orb_true_iff in Hc as [Hc|Hc].
      - apply N.ltb_lt in Hc. lia.
      - apply andb_true_iff in Hc as [_ Hc]. now apply N.ltb_lt in Hc. }
    destruct (surrogate_pair c Hr) as (H1 & H2 & H3).
    cbv zeta.
    set (s1 := N.lor 55296 (N.land (N.shiftr (c - 65536) 10) 1023)) in *.
    set (s2 := N.lor 56320 (N.land (c - 65536) 1023)) in *.
    assert (Hd1 := decode_hex4_hex4 s1 ltac:(lia)).
    assert (Hd2 := decode_hex4_hex4 s2 ltac:(lia)).
    unfold hex4 in *. cbn [app].
    rewrite (scanstring_escape_pair _ _ _ _ _ _ _ _ s1 s2 s Hd1 Hd2 H1 H2).
    now rewrite H3.
Qed.

Lemma scanstring_encoded : forall s rest,
  valid_str s = true ->
  scanstring (flat_map escape_char s ++ 34%N :: rest) = Some (s, rest).
Proof.
  induction s as [|c s IH]; intros rest H; [reflexivity|].
  simpl in H. apply andb_true_iff in H as [Hc Hs].
  cbn [flat_map]. rewrite <- app_assoc.
  rewrite (scanstring_escape_char c _ Hc), (IH rest Hs). reflexivity.
Qed.

End Strings.

Section Numbers.

Lemma number_end_digit : forall c rest,
  number_end (c :: rest) = true ->
  is_digit c = false /\ (c =? 46)%N = false /\ (c =? 101)%N = false
  /\ (c =? 69)%N = false /\ (c =? 43)%N = false /\ (c =? 45)%N = false.
Proof.
  intros c rest H. simpl in H. apply negb_true_iff in H.
  repeat (apply orb_false_iff in H as [H ?]). auto 10.
Qed.

Lemma number_end_digit_end : forall rest,
  number_end rest = true -> digit_end rest = true.
Proof.
  intros [|c rest] H; [reflexivity|].
  destruct (number_end_digit c rest H) as [Hc _]. simpl. now rewrite Hc.
Qed.

Lemma span_digits_app : forall s rest ds r,
  digit_end rest = true ->
  span_digits s = (ds, r) ->
  span_digits (s ++ rest) = (ds, r ++ rest).
Proof.
  induction s as [|c s IH]; intros rest ds r Hend H.
  - injection H as <- <-. simpl.
    destruct rest as [|x rest]; [reflexivity|].
    simpl in Hend. apply negb_true_iff in Hend. simpl. now rewrite Hend.
  - simpl in *. destruct (is_digit c).
    + destruct (span_digits s) as [ds' r'] eqn:E. injection H as <- <-.
      now rewrite (IH rest ds' r' Hend eq_refl).
    + injection H as <- <-. reflexivity.
Qed.

Lemma span_digits_concat : forall s ds r,
  span_digits s = (ds, r) -> s = ds ++ r.
Proof.
  induction s as [|c s IH]; intros ds r H; simpl in H.
  - now injection H as <- <-.
  - destruct (is_digit c).
    + destruct (span_digits s) as [ds' r'] eqn:E. injection H as <- <-.
      simpl. f_equal. now apply IH.
    + now injection H as <- <-.
Qed.

Lemma match_unsigned_app : forall sign s rest i r,
  digit_end rest = true ->
  match_unsigned sign s = Some (i, r) ->
  match_unsigned sign (s ++ rest) = Some (i, r ++ rest).
Proof.
  intros sign [|c r0] rest i r Hend H0; [discriminate|].
  unfold match_unsigned in *. cbn [app].
  destruct (c =? 48)%N; [now injection H0 as <- <-|].
  destruct (is_digit c); [|discriminate].
  destruct (span_digits r0) as [ds r'] eqn:E. injection H0 as <- <-.
  now rewrite (span_digits_app r0 rest ds r' Hend E).
Qed.

Lemma match_integer_app : forall s rest i r,
  digit_end rest = true ->
  match_integer s = Some (i, r) ->
  match_integer (s ++ rest) = Some (i, r ++ rest).
Proof.
  intros s rest i r Hend H. unfold match_integer in *.
  destruct s as [|c s]; [discriminate|].
  cbn [app]. destruct (c =? 45)%N.
  - now apply match_unsigned_app.
  - now apply (match_unsigned_app [] (c :: s)).
Qed.

Lemma match_frac_app : forall s rest fr r,
  number_end rest = true ->
  match_frac s = (fr, r) ->
  match_frac (s ++ rest) = (fr, r ++ rest).
Proof.
  intros s rest fr r Hend H. unfold match_frac in *.
  pose proof (number_end_digit_end rest Hend) as Hdig.
  destruct s as [|c s].
  - injection H as <- <-. simpl.
    destruct rest as [|x rest]; [reflexivity|].
    destruct (number_end_digit x rest Hend) as (_ & Hx & _). now rewrite Hx.
  - cbn [app]. destruct (c =? 46)%N; [|now injection H as <- <-].
    destruct (span_digits s) as [ds r'] eqn:E.
    rewrite (span_digits_app s rest ds r' Hdig E).
    destruct ds; now injection H as <- <-.
Qed.

Lemma match_exp_app : forall s rest ex r,
  number_end rest = true ->
  match_exp s = (ex, r) ->
  match_exp (s ++ rest) = (ex, r ++ rest).
Proof.
  intros s rest ex r Hend H. unfold match_exp in *.
  pose proof (number_end_digit_end rest Hend) as Hdig.
  destruct s as [|c s].
  - injection H as <- <-. simpl.
    destruct rest as [|x rest]; [reflexivity|].
    destruct (number_end_digit x rest Hend) as (_ & _ & H1 & H2 & _).
    now rewrite H1, H2.
  - cbn [app]. destruct ((c =? 101) || (c =? 69))%N;
      [|now injection H as <- <-].
    destruct s as [|x s].
    + simpl in H. injection H as <- <-. simpl.
      destruct rest as [|y rest]; [reflexivity|].
      destruct (number_end_digit y rest Hend) as (Hd & _ & _ & _ & H1 & H2).
      rewrite H2, H1. simpl. now rewrite Hd.
    + cbn [app]. destruct ((x =? 45) || (x =? 43))%N.
      * destruct (span_digits s) as [ds r'] eqn:E.
        rewrite (span_digits_app s rest ds r' Hdig E).
        destruct ds; now injection H as <- <-.
      * destruct (span_digits (x :: s)) as [ds r'] eqn:E.
        change (x :: s ++ rest) with ((x :: s) ++ rest).
        rewrite (span_digits_app (x :: s) rest ds r' Hdig E).
        destruct ds; now injection H as <- <-.
Qed.

(** A number that matches a whole text matches it as well when something
    follows that cannot be part of a number. *)
Lemma match_number_app : forall s rest i fr ex r,
  number_end rest = true ->
  match_number s = Some (i, fr, ex, r) ->
  match_number (s ++ rest) = Some (i, fr, ex, r ++ rest).
Proof.
  intros s rest i fr ex r Hend H. unfold match_number in *.
  destruct (match_integer s) as [[i0 r0]|] eqn:Ei; [|discriminate].
  rewrite (match_integer_app s rest i0 r0 (number_end_digit_end rest Hend) Ei).
  destruct (match_frac r0) as [fr0 r1] eqn:Ef.
  rewrite (match_frac_app r0 rest fr0 r1 Hend Ef).
  destruct (match_exp r1) as [ex0 r2] eqn:Ee.
  rewrite (match_exp_app r1 rest ex0 r2 Hend Ee).
  now injection H as <- <- <- <-.
Qed.

Lemma match_unsigned_concat : forall sign s i r,
  match_unsigned sign s = Some (i, r) -> sign ++ s = i ++ r.
Proof.
  intros sign [|c r0] i r H0; [discriminate|]. unfold match_unsigned in H0.
  destruct (c =? 48)%N.
  - injection H0 as <- <-. now rewrite <- app_assoc.
  - destruct (is_digit c); [|discriminate].
    destruct (span_digits r0) as [ds r'] eqn:E. injection H0 as <- <-.
    rewrite (span_digits_concat r0 ds r' E), <- app_assoc. reflexivity.
Qed.

Lemma match_integer_concat : forall s i r,
  match_integer s = Some (i, r) -> s = i ++ r.
Proof.
  intros s i r H. unfold match_integer in H.
  destruct s as [|c s]; [discriminate|].
  destruct (c =? 45)%N.
  - now apply (match_unsigned_concat [c] s).
  - now apply (match_unsigned_concat [] (c :: s)).
Qed.

Lemma match_frac_concat : forall s fr r, match_frac s = (fr, r) -> s = fr ++ r.
Proof.
  intros s fr r H. unfold match_frac in H.
  destruct s as [|c s]; [now injection H as <- <-|].
  destruct (c =? 46)%N; [|now injection H as <- <-].
  destruct (span_digits s) as [ds r'] eqn:E.
  apply span_digits_concat in E.
  destruct ds; injection H as <- <-; simpl in *; now subst.
Qed.

Lemma match_exp_concat : forall s ex r, match_exp s = (ex, r) -> s = ex ++ r.
Proof.
  intros s ex r H. unfold match_exp in H.
  destruct s as [|c s]; [now injection H as <- <-|].
  destruct ((c =? 101) || (c =? 69))%N; [|now injection H as <- <-].
  destruct s as [|x s].
  - simpl in H. now injection H as <- <-.
  - destruct ((x =? 45) || (x =? 43))%N.
    + destruct (span_digits s) as [ds r'] eqn:E.
      apply span_digits_concat in E.
      destruct ds; injection H as <- <-; simpl in *; now subst.
    + destruct (span_digits (x :: s)) as [ds r'] eqn:E.
      apply span_digits_concat in E.
      destruct ds; injection H as <- <-; simpl in *; now rewrite E.
Qed.

Lemma match_number_concat : forall s i fr ex r,
  match_number s = Some (i, fr, ex, r) -> s = i ++ fr ++ ex ++ r.
Proof.
  intros s i fr ex r H. unfold match_number in H.
  destruct (match_integer s) as [[i0 r0]|] eqn:Ei; [|discriminate].
  destruct (match_frac r0) as [fr0 r1] eqn:Ef.
  destruct (match_exp r1) as [ex0 r2] eqn:Ee.
  injection H as <- <- <- <-.
  apply match_integer_concat in Ei. apply match_frac_concat in Ef.
  apply match_exp_concat in Ee. now subst.
Qed.

End Numbers.

Section Integers.

Lemma span_digits_all : forall s,
  forallb is_digit s = true -> span_digits s = (s, []).
Proof.
  induction s as [|c s IH]; intros H; [reflexivity|].
  simpl in *. apply andb_true_iff in H as [Hc Hs].
  now rewrite Hc, (IH Hs).
Qed.

Lemma uint_str_digits : forall d, forallb is_digit (uint_str d) = true.
Proof. induction d; simpl; auto. Qed.

Lemma uint_of_str_uint_str : forall d, uint_of_str (uint_str d) = d.
Proof. induction d; simpl; try reflexivity; now rewrite IHd. Qed.

Lemma uint_str_not_minus : forall d c s,
  uint_str d = c :: s -> (c =? 45)%N = false.
Proof.
  intros d c s H. pose proof (uint_str_digits d) as Hd. rewrite H in Hd.
  simpl in Hd. apply andb_true_iff in Hd as [Hd _].
  unfold is_digit in Hd. apply andb_true_iff in Hd as [Hd _].
  apply N.leb_le in Hd. apply N.eqb_neq. lia.
Qed.

Lemma unorm_leading_zero : forall d,
  Decimal.unorm (D0 d) = D0 d -> d = Nil.
Proof.
  intros d H. rewrite DecimalFacts.unorm_D0 in H. unfold Decimal.unorm in H.
  destruct (Decimal.nzhead d) eqn:E; try discriminate.
  - now injection H.
  - exfalso. exact (DecimalFacts.nzhead_nonzero d _ E).
Qed.

Lemma to_uint_normal : forall p,
  Decimal.unorm (Pos.to_uint p) = Pos.to_uint p.
Proof.
  intros p.
  rewrite <- (DecimalPos.Unsigned.to_of (Pos.to_uint p)).
  now rewrite DecimalPos.Unsigned.of_to.
Qed.

Lemma match_unsigned_uint : forall sign d,
  d <> Nil -> Decimal.unorm d = d ->
  match_unsigned sign (uint_str d) = Some (sign ++ uint_str d, []).
Proof.
  intros sign d Hnil Hnorm. unfold match_unsigned.
  destruct d; try contradiction;
    try (cbn [uint_str digit_char N.add Pos.add Pos.succ N.eqb Pos.eqb is_digit
              N.leb N.compare Pos.compare Pos.compare_cont andb];
         rewrite (span_digits_all _ (uint_str_digits _)); reflexivity).
  apply unorm_leading_zero in Hnorm. subst d. reflexivity.
Qed.

Lemma match_number_int_repr : forall z,
  match_number (int_repr z) = Some (int_repr z, [], [], []).
Proof.
  intros z. unfold match_number, int_repr.
  assert (Hpos : forall p sign,
    match_unsigned sign (uint_str (Pos.to_uint p))
    = Some (sign ++ uint_str (Pos.to_uint p), [])).
  { intros p sign. apply match_unsigned_uint.
    - apply DecimalPos.Unsigned.to_uint_nonnil.
    - apply to_uint_normal. }
  destruct z as [|p|p]; simpl Z.to_int.
  - reflexivity.
  - unfold match_integer.
    destruct (uint_str (Pos.to_uint p)) as [|c s] eqn:E.
    + specialize (Hpos p []). rewrite E in Hpos. discriminate.
    + rewrite (uint_str_not_minus _ _ _ E), <- E, (Hpos p []). reflexivity.
  - unfold match_integer. cbn [N.eqb Pos.eqb].
    rewrite (Hpos p [45%N]). reflexivity.
Qed.

Lemma int_of_str_unsigned : forall d,
  int_of_str (uint_str d) = Z.of_uint d.
Proof.
  intros d. unfold int_of_str.
  destruct (uint_str d) as [|c s] eqn:E.
  - destruct d; try discriminate. reflexivity.
  - rewrite (uint_str_not_minus _ _ _ E), <- E.
    now rewrite uint_of_str_uint_str.
Qed.

Lemma int_of_str_int_repr : forall z, int_of_str (int_repr z) = z.
Proof.
  intros z. rewrite <- (DecimalZ.of_to z) at 2. unfold int_repr.
  destruct (Z.to_int z) as [d|d].
  - apply int_of_str_unsigned.
  - unfold int_of_str. cbn [N.eqb Pos.eqb].
    now rewrite uint_of_str_uint_str.
Qed.

Lemma int_repr_head : forall z,
  exists c s, int_repr z = c :: s /\ ((c =? 45)%N = true \/ is_digit c = true).
Proof.
  intros z. unfold int_repr.
  destruct (Z.to_int z) as [d|d] eqn:E.
  - destruct (uint_str d) as [|c s] eqn:Ed.
    + exfalso. destruct z as [|p|p]; simpl in E; try discriminate.
      * injection E as <-. discriminate.
      * injection E as <-.
        apply (DecimalPos.Unsigned.to_uint_nonnil p).
        destruct (Pos.to_uint p); try discriminate. reflexivity.
    + exists c, s. split; [reflexivity|]. right.
      pose proof (uint_str_digits d) as H. rewrite Ed in H. simpl in H.
      now apply andb_true_iff in H as [H _].
  - exists 45%N, (uint_str d). split; [reflexivity|]. now left.
Qed.

End Integers.

Section ScanValues.
Context {PF : PyFloat}.

Lemma number_head_facts : forall c,
  (c =? 45)%N = true \/ is_digit c = true ->
  is_ws c = false /\ (c =? 93)%N = false /\ (c =? 125)%N = false
  /\ (c =? 34)%N = false /\ (c =? 123)%N = false /\ (c =? 91)%N = false
  /\ (110 =? c)%N = false /\ (116 =? c)%N = false /\ (102 =? c)%N = false
  /\ (c =? 65279)%N = false.
Proof.
  intros c H.
  assert (Hc : (c = 45 \/ 48 <= c <= 57)%N).
  { destruct H as [H|H]; [left; now apply N.eqb_eq|right].
    unfold is_digit in H. apply andb_true_iff in H as [H1 H2].
    apply N.leb_le in H1, H2. lia. }
  unfold is_ws.
  repeat split; repeat (apply orb_false_iff; split); apply N.eqb_neq; lia.
Qed.

Lemma match_number_head : forall s i fr ex r,
  match_number s = Some (i, fr, ex, r) ->
  exists c t, s = c :: t /\ ((c =? 45)%N = true \/ is_digit c = true).
Proof.
  intros s i fr ex r H. unfold match_number in H.
  destruct (match_integer s) as [[i0 r0]|] eqn:E; [|discriminate]. clear H.
  unfold match_integer in E. destruct s as [|c t]; [discriminate|].
  exists c, t. split; [reflexivity|].
  destruct (c =? 45)%N eqn:E45; [now left|right].
  unfold match_unsigned in E.
  destruct (N.eqb_spec c 48) as [->|_]; [reflexivity|].
  destruct (is_digit c); [reflexivity | discriminate].
Qed.

Lemma py_null : py "null" = [110; 117; 108; 108]%N.
Proof. reflexivity. Qed.

Lemma py_true : py "true" = [116; 114; 117; 101]%N.
Proof. reflexivity. Qed.

Lemma py_false : py "false" = [102; 97; 108; 115; 101]%N.
Proof. reflexivity. Qed.

(** The scan of a text that starts with a number. *)
Lemma scan_once_number : forall fuel d s i fr ex rest,
  match_number s = Some (i, fr, ex, []) ->
  number_end rest = true ->
  scan_once (S fuel) d (s ++ rest)
  = match fr, ex with
    | [], [] => SOk (JInt (int_of_str i)) rest
    | _, _ => SOk (JFloat (float_of_str (i ++ fr ++ ex))) rest
    end.
Proof.
  intros fuel d s i fr ex rest Hm Hend.
  pose proof (match_number_app s rest i fr ex [] Hend Hm) as Happ.
  destruct (match_number_head s i fr ex [] Hm) as (c & t & -> & Hc).
  destruct (number_head_facts c Hc)
    as (_ & _ & _ & H34 & H123 & H91 & H110 & H116 & H102 & _).
  cbn [app] in *. cbn [scan_once].
  rewrite H34, H123, H91, py_null, py_true, py_false.
  cbn [strip_prefix]. rewrite H110, H116, H102, Happ.
  destruct fr, ex; reflexivity.
Qed.

Lemma scan_once_int_repr : forall fuel d z rest,
  number_end rest = true ->
  scan_once (S fuel) d (int_repr z ++ rest) = SOk (JInt z) rest.
Proof.
  intros fuel d z rest Hend.
  rewrite (scan_once_number fuel d _ _ _ _ rest (match_number_int_repr z) Hend).
  now rewrite int_of_str_int_repr.
Qed.

Lemma scan_once_float_repr : forall (FR : FloatRepr PF) fuel d f rest,
  float_class f = FFinite ->
  number_end rest = true ->
  scan_once (S fuel) d (float_repr f ++ rest) = SOk (JFloat f) rest.
Proof.
  intros FR fuel d f rest Hf Hend.
  destruct (float_repr_number f Hf) as (i & fr & ex & Hm & Hne).
  rewrite (scan_once_number fuel d _ _ _ _ rest Hm Hend).
  pose proof (match_number_concat _ _ _ _ _ Hm) as E.
  rewrite !app_nil_r in E. rewrite <- E, (float_repr_round_trip f Hf).
  destruct fr, ex; try reflexivity. destruct Hne; contradiction.
Qed.

Lemma scan_once_string : forall fuel d s rest,
  valid_str s = true ->
  scan_once (S fuel) d (encode_basestring_ascii s ++ rest) = SOk (JStr s) rest.
Proof.
  intros fuel d s rest H. unfold encode_basestring_ascii.
  cbn [app scan_once N.eqb Pos.eqb]. rewrite <- app_assoc. cbn [app].
  now rewrite (scanstring_encoded s rest H).
Qed.

(** The first character of an encoded value: no white space, and none of
    the two closing brackets. *)
Lemma iterencode_head : forall (FR : FloatRepr PF) indent level v,
  valid_json v = true ->
  exists c t, iterencode indent level v = c :: t
              /\ is_ws c = false /\ (c =? 93)%N = false
              /\ (c =? 65279)%N = false.
Proof.
  intros FR indent level v Hv.
  destruct v as [|[|]|z|f|s|[|x l]|[|kv d]];
    try (eexists _, _; split; [reflexivity|repeat split; reflexivity]).
  - destruct (int_repr_head z) as (c & t & E & Hc).
    destruct (number_head_facts c Hc) as (H1 & H2 & _ & _ & _ & _ & _ & _ & _ & H3).
    exists c, t. cbn [iterencode]. auto.
  - simpl in Hv. unfold iterencode, floatstr.
    destruct (float_class f) eqn:Ef; try discriminate.
    destruct (float_repr_number f Ef) as (i & fr & ex & Hm & _).
    destruct (match_number_head _ _ _ _ _ Hm) as (c & t & E & Hc).
    destruct (number_head_facts c Hc) as (H1 & H2 & _ & _ & _ & _ & _ & _ & _ & H3).
    exists c, t. auto.
Qed.

End ScanValues.

Section RoundTrip.
Context {PF : PyFloat} {FR : FloatRepr PF}.

Lemma item_separator_shape : forall indent level,
  exists w, (forall s, item_separator indent level ++ s = 44%N :: w ++ s)
            /\ (forall s, skip_ws (w ++ s) = skip_ws s).
Proof.
  intros [n|] level.
  - exists (newline_indent (Some n) level). split.
    + intros s. reflexivity.
    + intros s. apply skip_ws_newline_indent.
  - exists [32%N]. split; reflexivity.
Qed.

Lemma closing_number_end : forall indent level c rest,
  (c = 93 \/ c = 125)%N ->
  number_end (newline_indent indent level ++ c :: rest) = true.
Proof. intros [n|] level c rest [-> | ->]; reflexivity. Qed.

Lemma skip_ws_closing : forall indent level c rest,
  (c = 93 \/ c = 125)%N ->
  skip_ws (newline_indent indent level ++ c :: rest) = c :: rest.
Proof.
  intros indent level c rest H. rewrite skip_ws_newline_indent.
  destruct H as [-> | ->]; reflexivity.
Qed.

Lemma skip_ws_iterencode : forall indent level v s,
  valid_json v = true ->
  skip_ws (iterencode indent level v ++ s) = iterencode indent level v ++ s.
Proof.
  intros indent level v s Hv.
  destruct (iterencode_head FR indent level v Hv) as (c & t & -> & Hc & _).
  cbn [app]. now apply skip_ws_head.
Qed.

Lemma parse_items_encoded : forall indent level d rest l,
  Forall (fun y => round_trips y /\ valid_json y = true /\ json_depth y <= d) l ->
  forall x fuel acc,
    round_trips x -> valid_json x = true -> json_depth x <= d ->
    2 * length (iterencode indent (S level) x
                ++ items_tail indent level l rest) + 2 <= fuel ->
    parse_items fuel d (iterencode indent (S level) x
                        ++ items_tail indent level l rest) acc
    = SOk (JArr (List.rev acc ++ x :: l)) rest.
Proof.
  intros indent level d rest l Hl.
  induction Hl as [|y l (Hy & Hvy & Hdy) _ IH];
    intros x fuel acc Hx Hvx Hdx Hfuel.
  - destruct fuel as [|fuel]; [lia|].
    cbn [parse_items]. unfold items_tail in *. cbn [map flat_map app] in *.
    rewrite (Hx indent (S level) fuel d
               (newline_indent indent level ++ 93%N :: rest) Hvx Hdx);
      [|lia|apply closing_number_end; now left].
    rewrite (skip_ws_closing indent level 93%N rest (or_introl eq_refl)).
    cbn [N.eqb Pos.eqb List.rev]. reflexivity.
  - destruct fuel as [|fuel]; [lia|].
    destruct (item_separator_shape indent (S level)) as (w & Hsep & Hskip).
    assert (Etail : items_tail indent level (y :: l) rest
                    = 44%N :: w ++ iterencode indent (S level) y
                                ++ items_tail indent level l rest).
    { unfold items_tail. cbn [map flat_map].
      rewrite <- !app_assoc. apply Hsep. }
    rewrite Etail in *. cbn [parse_items].
    rewrite (Hx indent (S level) fuel d
               (44%N :: w ++ iterencode indent (S level) y
                         ++ items_tail indent level l rest) Hvx Hdx);
      [|lia|reflexivity].
    cbn [skip_ws is_ws N.eqb Pos.eqb orb].
    rewrite Hskip, (skip_ws_iterencode indent (S level) y _ Hvy).
    rewrite (IH y fuel (x :: acc) Hy Hvy Hdy).
    + cbn [List.rev]. now rewrite <- app_assoc.
    + rewrite !length_app in *. cbn [length] in *.
      rewrite !length_app in *. lia.
Qed.

Lemma pairs_tail_cons : forall indent level k v l rest,
  exists w,
    pairs_tail indent level ((k, v) :: l) rest
    = 44%N :: w ++ 34%N :: pair_text indent level k v
                              (pairs_tail indent level l rest)
    /\ (forall s, skip_ws (w ++ s) = skip_ws s).
Proof.
  intros indent level k v l rest.
  destruct (item_separator_shape indent (S level)) as (w & Hsep & Hskip).
  exists w. split; [|exact Hskip].
  unfold pairs_tail, pair_text, encode_basestring_ascii.
  cbn [map flat_map fst snd]. change (py ": ") with [58%N; 32%N].
  rewrite <- !app_assoc. rewrite Hsep. reflexivity.
Qed.

Lemma parse_pairs_encoded : forall indent level d rest l,
  Forall (fun kv => round_trips (snd kv) /\ valid_str (fst kv) = true
                    /\ valid_json (snd kv) = true /\ json_depth (snd kv) <= d)
         l ->
  forall k v fuel acc,
    round_trips v -> valid_str k = true -> valid_json v = true ->
    json_depth v <= d ->
    2 * length (pair_text indent level k v (pairs_tail indent level l rest)) + 2
    <= fuel ->
    parse_pairs fuel d
      (pair_text indent level k v (pairs_tail indent level l rest)) acc
    = SOk (JObj (dict_of_pairs (List.rev acc ++ (k, v) :: l))) rest.
Proof.
  intros indent level d rest l Hl.
  induction Hl as [|[k' v'] l (Hy & Hky & Hvy & Hdy) _ IH];
    intros k v fuel acc Hv Hk Hvv Hdv Hfuel.
  - destruct fuel as [|fuel]; [lia|].
    cbn [parse_pairs]. unfold pair_text in *.
    rewrite (scanstring_encoded k _ Hk).
    cbn [skip_ws is_ws N.eqb Pos.eqb orb].
    rewrite (skip_ws_iterencode indent (S level) v _ Hvv).
    unfold pairs_tail in *. cbn [map flat_map app] in *.
    rewrite (Hv indent (S level) fuel d
               (newline_indent indent level ++ 125%N :: rest) Hvv Hdv);
      [| solve_length | apply closing_number_end; now right].
    rewrite (skip_ws_closing indent level 125%N rest (or_intror eq_refl)).
    cbn [N.eqb Pos.eqb List.rev]. reflexivity.
  - destruct fuel as [|fuel]; [lia|].
    destruct (pairs_tail_cons indent level k' v' l rest) as (w & Etail & Hskip).
    cbn [fst snd] in *.
    rewrite Etail in *. cbn [parse_pairs]. unfold pair_text at 1.
    rewrite (scanstring_encoded k _ Hk).
    cbn [skip_ws is_ws N.eqb Pos.eqb orb].
    rewrite (skip_ws_iterencode indent (S level) v _ Hvv).
    unfold pair_text at 1 in Hfuel.
    rewrite (Hv indent (S level) fuel d
               (44%N :: w ++ 34%N :: pair_text indent level k' v'
                                       (pairs_tail indent level l rest))
               Hvv Hdv);
      [| solve_length | reflexivity].
    cbn [skip_ws is_ws N.eqb Pos.eqb orb].
    rewrite Hskip. cbn [skip_ws is_ws N.eqb Pos.eqb orb].
    rewrite (IH k' v' fuel ((k, v) :: acc) Hy Hky Hvy Hdy).
    + cbn [List.rev]. now rewrite <- app_assoc.
    + solve_length.
Qed.

(** [dict(pairs)] of pairs with different keys is those pairs. *)
Lemma dict_set_fresh : forall d k v,
  Forall (fun kv => str_eqb (fst kv) k = false) d ->
  dict_set d k v = d ++ [(k, v)].
Proof.
  induction d as [|[k0 x] d IH]; intros k v H; [reflexivity|].
  inversion H as [|? ? H0 Hd]; subst. simpl in *.
  now rewrite H0, (IH k v Hd).
Qed.

Lemma dict_of_pairs_from : forall l acc,
  distinct_keys (map fst l) = true ->
  (forall a b, In a acc -> In b l -> str_eqb (fst a) (fst b) = false) ->
  fold_left (fun d kv => dict_set d (fst kv) (snd kv)) l acc = acc ++ l.
Proof.
  induction l as [|[k v] l IH]; intros acc Hd Hacc.
  - simpl. now rewrite app_nil_r.
  - cbn [fold_left fst snd]. cbn [map distinct_keys fst] in Hd.
    apply andb_true_iff in Hd as [Hk Hd]. apply negb_true_iff in Hk.
    rewrite dict_set_fresh.
    + rewrite IH; [now rewrite <- app_assoc | exact Hd |].
      intros a b Ha Hb. apply in_app_or in Ha as [Ha|Ha].
      * apply Hacc; [exact Ha | now right].
      * destruct Ha as [<-|Ha]; [|destruct Ha]. cbn [fst].
        destruct (str_eqb k (fst b)) eqn:E; [|reflexivity].
        assert (Hex : existsb (str_eqb k) (map fst l) = true).
        { apply existsb_exists. exists (fst b). split; [now apply in_map|exact E]. }
        congruence.
    + apply Forall_forall. intros a Ha. apply (Hacc a (k, v) Ha). now left.
Qed.

Lemma dict_of_pairs_distinct : forall l,
  distinct_keys (map fst l) = true -> dict_of_pairs l = l.
Proof.
  intros l H. unfold dict_of_pairs.
  rewrite dict_of_pairs_from; [reflexivity | exact H |].
  intros a b [].
Qed.

Lemma json_depth_item : forall (l : list json) y,
  In y l ->
  json_depth y <= fold_right (fun x m => Nat.max (json_depth x) m) 0 l.
Proof.
  induction l as [|x l IH]; intros y H; [destruct H|].
  destruct H as [<-|H]; simpl; [lia|]. specialize (IH y H). lia.
Qed.

Lemma json_depth_pair : forall (l : list (str * json)) kv,
  In kv l ->
  json_depth (snd kv)
  <= fold_right (fun kv m => Nat.max (json_depth (snd kv)) m) 0 l.
Proof.
  induction l as [|x l IH]; intros y H; [destruct H|].
  destruct H as [<-|H]; simpl; [lia|]. specialize (IH y H). lia.
Qed.

Lemma iterencode_array : forall indent level x l rest,
  iterencode indent level (JArr (x :: l)) ++ rest
  = 91%N :: newline_indent indent (S level)
            ++ iterencode indent (S level) x ++ items_tail indent level l rest.
Proof.
  intros. cbn [iterencode]. unfold join, items_tail. cbn [map].
  change (py "[") with [91%N]. change (py "]") with [93%N].
  rewrite <- !app_assoc. reflexivity.
Qed.

Lemma iterencode_object : forall indent level k v l rest,
  iterencode indent level (JObj ((k, v) :: l)) ++ rest
  = 123%N :: newline_indent indent (S level)
             ++ 34%N :: pair_text indent level k v
                          (pairs_tail indent level l rest).
Proof.
  intros. cbn [iterencode]. unfold join, pairs_tail, pair_text.
  unfold encode_basestring_ascii at 1. cbn [map fst snd].
  change (py "{") with [123%N]. change (py "}") with [125%N].
  change (py ": ") with [58%N; 32%N].
  rewrite <- !app_assoc. reflexivity.
Qed.

(** Every valid value is read back from its text, whatever the indent. *)
Theorem iterencode_round_trips : forall v, round_trips v.
Proof.
  induction v as [|b|z|f|s|l IH|l IH] using json_nested_ind;
    intros indent level fuel d rest Hv Hd Hfuel Hend;
    (destruct fuel as [|fuel]; [lia|]).
  - reflexivity.
  - destruct b; reflexivity.
  - now apply scan_once_int_repr.
  - cbn [iterencode]. unfold floatstr. simpl in Hv.
    destruct (float_class f) eqn:Ef; try discriminate.
    now apply (scan_once_float_repr FR).
  - now apply scan_once_string.
  - destruct l as [|x l].
    + destruct d as [|d]; [simpl in Hd; lia|]. reflexivity.
    + rewrite iterencode_array in *.
      destruct d as [|d]; [simpl in Hd; lia|].
      inversion IH as [|? ? Hx Hl]; subst.
      cbn [valid_json forallb] in Hv. apply andb_true_iff in Hv as [Hvx Hvl].
      cbn [scan_once N.eqb Pos.eqb].
      rewrite skip_ws_newline_indent, (skip_ws_iterencode _ _ x _ Hvx).
      destruct (iterencode_head FR indent (S level) x Hvx)
        as (c & t & Ec & _ & H93 & _).
      rewrite Ec at 1. cbn [app]. rewrite H93.
      change (c :: t ++ items_tail indent level l rest)
        with ((c :: t) ++ items_tail indent level l rest).
      rewrite <- Ec.
      rewrite (parse_items_encoded indent level d rest l); [reflexivity| | | | |].
      * apply Forall_forall. intros y Hy. repeat split.
        -- rewrite Forall_forall in Hl. now apply Hl.
        -- rewrite forallb_forall in Hvl. now apply Hvl.
        -- cbn [json_depth] in Hd.
           pose proof (json_depth_item (x :: l) y (or_intror Hy)) as Hle.
           cbn [fold_right] in *. lia.
      * exact Hx.
      * exact Hvx.
      * cbn [json_depth fold_right] in Hd. lia.
      * pose proof (skip_ws_length (newline_indent indent (S level))).
        solve_length.
  - destruct l as [|[k v] l].
    + destruct d as [|d]; [simpl in Hd; lia|]. reflexivity.
    + rewrite iterencode_object in *.
      destruct d as [|d]; [simpl in Hd; lia|].
      inversion IH as [|? ? Hx Hl]; subst. cbn [snd] in Hx.
      cbn [valid_json forallb map fst snd distinct_keys] in Hv.
      apply andb_true_iff in Hv as [Hv Hdist].
      apply andb_true_iff in Hv as [Hkv Hvl].
      apply andb_true_iff in Hkv as [Hk Hvv].
      cbn [scan_once N.eqb Pos.eqb].
      rewrite skip_ws_newline_indent.
      cbn [skip_ws is_ws N.eqb Pos.eqb orb].
      rewrite (parse_pairs_encoded indent level d rest l).
      * cbn [List.rev app]. rewrite dict_of_pairs_distinct; [reflexivity|].
        cbn [map fst distinct_keys]. now rewrite Hdist.
      * apply Forall_forall. intros y Hy. repeat split.
        -- rewrite Forall_forall in Hl. now apply Hl.
        -- rewrite forallb_forall in Hvl. specialize (Hvl y Hy).
           now apply andb_true_iff in Hvl as [? _].
        -- rewrite forallb_forall in Hvl. specialize (Hvl y Hy).
           now apply andb_true_iff in Hvl as [_ ?].
        -- cbn [json_depth] in Hd.
           pose proof (json_depth_pair ((k, v) :: l) y (or_intror Hy)) as Hle.
           cbn [fold_right] in *. lia.
      * exact Hx.
      * exact Hk.
      * exact Hvv.
      * cbn [json_depth fold_right snd] in Hd. lia.
      * solve_length.
Qed.

End RoundTrip.

Section NormalizerRoundTrip.
Context {PF : PyFloat} {FR : FloatRepr PF}.

Lemma json_loads_dumps : forall limit indent v,
  valid_json v = true ->
  json_depth v <= limit ->
  json_loads limit (json_dumps indent v) = Return v.
Proof.
  intros limit indent v Hv Hd. unfold json_loads, json_dumps.
  destruct (iterencode_head FR indent 0 v Hv) as (c & t & Ec & _ & _ & Hbom).
  rewrite Ec at 1. rewrite Hbom.
  rewrite <- (app_nil_r (iterencode indent 0 v)) at 2.
  rewrite (skip_ws_iterencode indent 0 v [] Hv).
  rewrite (iterencode_round_trips v indent 0 _ limit [] Hv Hd);
    [reflexivity| |reflexivity].
  rewrite app_nil_r. lia.
Qed.

(** C7, in the form that holds of the code.
    For every valid JSON object [X] (finite numbers, text of Unicode
    scalar values, no key twice) whose integers have no more digits than
    the interpreter converts and that is nested no deeper than the
    interpreter lets the scanner go, [_parse_suggestion] of
    [json.dumps(X)], with or without an indent, returns [X] and leaves the
    world as it is. *)
Theorem parse_suggestion_round_trip :
  forall env indent X (w : World),
    is_dict X = true ->
    valid_json X = true ->
    ints_within_limit X = true ->
    json_depth X <= recursion_limit env ->
    _parse_suggestion env (json_dumps indent X) w = (Return X, w).
Proof.
  intros env indent X w _ Hv _ Hd. unfold _parse_suggestion.
  now rewrite (json_loads_dumps (recursion_limit env) indent X Hv Hd).
Qed.

End NormalizerRoundTrip.

(** *** Objects nested deeper than the scanner goes *)

Section DeepObjects.
Context {PF : PyFloat}.

Lemma scan_once_deep_prefix : forall d fuel rest,
  2 * d + 1 <= fuel ->
  scan_once fuel d (repeat 91%N (S d) ++ rest) = SRecursionError.
Proof.
  induction d as [|d IH]; intros fuel rest Hf.
  - destruct fuel as [|fuel]; [lia|]. reflexivity.
  - destruct fuel as [|[|fuel]]; try lia.
    specialize (IH fuel rest ltac:(lia)).
    change (repeat 91%N (S (S d)) ++ rest)
      with (91%N :: 91%N :: repeat 91%N d ++ rest).
    cbn [scan_once]. cbn [N.eqb Pos.eqb].
    cbn [skip_ws is_ws N.eqb Pos.eqb orb].
    cbn [parse_items].
    change (91%N :: repeat 91%N d ++ rest)
      with (repeat 91%N (S d) ++ rest).
    now rewrite IH.
Qed.

Lemma scan_once_deeper_prefix : forall d n fuel rest,
  d <= n -> 2 * d + 1 <= fuel ->
  scan_once fuel d (repeat 91%N (S n) ++ rest) = SRecursionError.
Proof.
  intros d n fuel rest Hdn Hf.
  replace (S n) with (S d + (n - d)) by lia.
  rewrite repeat_app, <- app_assoc.
  now apply scan_once_deep_prefix.
Qed.

Lemma iterencode_nested_list : forall n level,
  exists rest,
    iterencode None level (nested_list n) = repeat 91%N (S n) ++ rest.
Proof.
  induction n as [|n IH]; intros level.
  - exists [93%N]. reflexivity.
  - destruct (IH (S level)) as [rest E].
    exists (rest ++ [93%N]).
    cbn [nested_list iterencode map join flat_map newline_indent app].
    rewrite E, !app_nil_r.
    change (py "[") with [91%N]. change (py "]") with [93%N].
    cbn [app repeat]. now rewrite <- app_assoc.
Qed.

Lemma deep_object_valid : forall n,
  is_dict (deep_object n) = true
  /\ valid_json (deep_object n) = true
  /\ ints_within_limit (deep_object n) = true
  /\ json_depth (deep_object n) = n + 2.
Proof.
  intros n.
  assert (H : valid_json (nested_list n) = true
              /\ ints_within_limit (nested_list n) = true
              /\ json_depth (nested_list n) = n + 1).
  { induction n as [|n (H1 & H2 & H3)]; [repeat split; reflexivity|].
    cbn [nested_list valid_json ints_within_limit json_depth forallb
         fold_right].
    rewrite H1, H2, H3. repeat split; try reflexivity. lia. }
  destruct H as (H1 & H2 & H3).
  unfold deep_object.
  cbn [is_dict valid_json ints_within_limit json_depth forallb fold_right
       fst snd map distinct_keys existsb negb andb].
  rewrite H1, H2, H3. repeat split; try reflexivity. lia.
Qed.

(** [json.loads] gives up on the text of a valid object that is nested
    deeper than the scanner may go: a [RecursionError], for every limit. *)
Lemma json_loads_deep_object : forall limit n,
  limit <= S n ->
  json_loads limit (json_dumps None (deep_object n)) = Raise RecursionError.
Proof.
  intros limit n Hlimit.
  destruct (iterencode_nested_list n 1) as [rest E].
  assert (Htext : json_dumps None (deep_object n)
                  = 123%N :: 34%N :: flat_map escape_char (py "a")
                    ++ 34%N :: 58%N :: 32%N
                    :: repeat 91%N (S n) ++ rest ++ [125%N]).
  { unfold json_dumps, deep_object.
    cbn [iterencode map join flat_map newline_indent fst snd].
    rewrite E. unfold encode_basestring_ascii.
    change (py "{") with [123%N]. change (py "}") with [125%N].
    change (py ": ") with [58%N; 32%N].
    rewrite !app_nil_r. cbn [app]. rewrite <- !app_assoc. cbn [app].
    rewrite <- !app_assoc. reflexivity. }
  rewrite Htext. unfold json_loads. cbn [N.eqb Pos.eqb].
  cbn [skip_ws is_ws N.eqb Pos.eqb orb].
  match goal with
  | |- context [scan_once ?f _ _] => remember f as fuel eqn:Hfuel
  end.
  assert (Hf : 2 * n + 10 <= fuel).
  { subst fuel. cbn [length].
    repeat (rewrite length_app; cbn [length]).
    rewrite repeat_length. lia. }
  clear Hfuel.
  destruct fuel as [|[|fuel]]; try lia.
  destruct limit as [|d]; [reflexivity|].
  cbn [scan_once N.eqb Pos.eqb skip_ws is_ws orb].
  cbn [parse_pairs].
  rewrite (scanstring_encoded (py "a") _ eq_refl).
  cbn [skip_ws is_ws N.eqb Pos.eqb orb].
  change (repeat 91%N (S n) ++ rest ++ [125%N])
    with (91%N :: repeat 91%N n ++ rest ++ [125%N]).
  cbn [skip_ws is_ws N.eqb Pos.eqb orb].
  change (91%N :: repeat 91%N n ++ rest ++ [125%N])
    with (repeat 91%N (S n) ++ rest ++ [125%N]).
  rewrite (scan_once_deeper_prefix d n fuel) by lia.
  reflexivity.
Qed.

(** The normalizer raises on such an object: the round trip of C7 ends
    where the scanner's nesting ends. *)
Lemma parse_suggestion_deep_object : forall env n (w : World),
  recursion_limit env <= S n ->
  _parse_suggestion env (json_dumps None (deep_object n)) w
  = (Raise RecursionError, w).
Proof.
  intros env n w H. unfold _parse_suggestion.
  now rewrite (json_loads_deep_object (recursion_limit env) n H).
Qed.

End DeepObjects.

(** *** Closed instances *)

Lemma match_integer_int_repr : forall z,
  match_integer (int_repr z) = Some (int_repr z, []).
Proof.
  intros z. pose proof (match_number_int_repr z) as H.
  unfold match_number in H.
  destruct (match_integer (int_repr z)) as [[i r]|] eqn:E; [|discriminate].
  destruct (match_frac r) as [fr r1] eqn:Ef.
  destruct (match_exp r1) as [ex r2] eqn:Ee.
  injection H as -> -> -> ->.
  apply match_frac_concat in Ef. apply match_exp_concat in Ee.
  simpl in Ef, Ee. now subst.
Qed.

Lemma ZFloat_repr : FloatRepr ZFloat.
Proof.
  split; intros f _.
  - exists (int_repr f), [46; 48]%N, [].
    split; [|left; discriminate].
    cbn [float_repr ZFloat]. unfold match_number.
    rewrite (match_integer_app (int_repr f) (py ".0") (int_repr f) []
               eq_refl (match_integer_int_repr f)).
    reflexivity.
  - cbn [float_of_str float_repr ZFloat].
    rewrite (match_integer_app (int_repr f) (py ".0") (int_repr f) []
               eq_refl (match_integer_int_repr f)).
    apply int_of_str_int_repr.
Qed.

Lemma parse_suggestion_round_trip_witness :
  _parse_suggestion example_env (json_dumps (Some 2) example_suggestion)
    (world_of [])
  = (Return example_suggestion, world_of []).
Proof.
  apply (@parse_suggestion_round_trip ZFloat ZFloat_repr example_env (Some 2)
           example_suggestion (world_of [])).
  - reflexivity.
  - reflexivity.
  - vm_compute. reflexivity.
  - simpl. lia.
Defined.

(** C7, counterexample: a valid JSON object of three nested containers,
    where the scanner may enter two: [json.dumps] writes it,
    [_parse_suggestion] of that text raises [RecursionError] and does not
    return the object. *)
Lemma parse_suggestion_round_trip_deep_object :
  is_dict (@deep_object ZFloat 1) = true
  /\ valid_json (@deep_object ZFloat 1) = true
  /\ ints_within_limit (@deep_object ZFloat 1) = true
  /\ str_eqb (json_dumps None (@deep_object ZFloat 1))
             (concat [py "{"; dq; py "a"; dq; py ": [[]]}"])
     = true
  /\ _parse_suggestion env_deep_answer
       (json_dumps None (@deep_object ZFloat 1)) (world_of [])
     = (Raise RecursionError, world_of []).
Proof. repeat split; vm_compute; reflexivity. Qed.

(** ** json: the fuel of the scanner is never used up *)

Section Fuel.
Context {PF : PyFloat}.

Lemma skip_ws_cons : forall s c r, skip_ws s = c :: r -> length r < length s.
Proof.
  intros s c r H. pose proof (skip_ws_length s) as Hl. rewrite H in Hl.
  simpl in Hl. lia.
Qed.

Lemma cons_char_shorter : forall c res t rest n,
  (forall t' rest', res = Some (t', rest') -> length rest' < n) ->
  cons_char c res = Some (t, rest) -> length rest < n.
Proof.
  intros c [[t' rest']|] t rest n Hn H; simpl in H; [|discriminate].
  injection H as _ <-. now apply (Hn t').
Qed.

Lemma scanstring_shorter : forall n s t rest,
  length s <= n -> scanstring s = Some (t, rest) -> length rest < length s.
Proof.
  induction n as [|n IH]; intros s t rest Hn H.
  - destruct s; [discriminate | simpl in Hn; lia].
  - destruct s as [|c r]; [discriminate|].
    cbn [scanstring] in H. cbn [length] in *.
    assert (Hrec : forall s' t' rest',
               length s' <= length r ->
               scanstring s' = Some (t', rest') -> length rest' < S (length r)).
    { intros s' t' rest' Hs' H'.
      pose proof (IH s' t' rest' ltac:(lia) H'). lia. }
    destruct (c =? 34)%N; [injection H as _ <-; lia|].
    destruct (c =? 92)%N.
    + destruct r as [|e r1]; [discriminate|].
      destruct (e =? 117)%N.
      * destruct r1 as [|h1 [|h2 [|h3 [|h4 r2]]]]; try discriminate.
        destruct (decode_hex4 h1 h2 h3 h4) as [uni|]; [|discriminate].
        assert (Hr2 : cons_char uni (scanstring r2) = Some (t, rest) ->
                      length rest < S (length (e :: h1 :: h2 :: h3 :: h4 :: r2))).
        { apply cons_char_shorter. intros t' rest' H'.
          apply (Hrec r2 t' rest'); [cbn [length]; lia | exact H']. }
        assert (Hr3 : forall b u g1 g2 g3 g4 r3 t' rest',
                   r2 = b :: u :: g1 :: g2 :: g3 :: g4 :: r3 ->
                   scanstring r3 = Some (t', rest') ->
                   length rest'
                   < S (length (e :: h1 :: h2 :: h3 :: h4 :: r2))).
        { intros b u g1 g2 g3 g4 r3 t' rest' -> H'.
          apply (Hrec r3 t' rest'); [cbn [length]; lia | exact H']. }
        remember (scanstring r2) as res2 eqn:Eres. clear Eres Hrec IH.
        remember (length (e :: h1 :: h2 :: h3 :: h4 :: r2)) as len eqn:El.
        clear El.
        destruct r2 as [|b [|u [|g1 [|g2 [|g3 [|g4 r3]]]]]];
          try (apply Hr2; exact H).
        specialize (Hr3 b u g1 g2 g3 g4 r3).
        destruct (_ && _ && _ && _)%bool; [|apply Hr2; exact H].
        destruct (decode_hex4 g1 g2 g3 g4) as [uni2|]; [|discriminate].
        destruct (_ && _)%bool; [|apply Hr2; exact H].
        revert H. apply cons_char_shorter. intros t' rest' H'.
        apply (Hr3 t' rest' eq_refl H').
      * destruct (backslash e) as [ch|]; [|discriminate].
        revert H. apply cons_char_shorter. intros t' rest' H'.
        apply (Hrec r1 t' rest'); [cbn [length]; lia | exact H'].
    + destruct (c <? 32)%N; [discriminate|].
      revert H. apply cons_char_shorter. intros t' rest' H'.
      apply (Hrec r t' rest'); [lia | exact H'].
Qed.

Lemma strip_prefix_length : forall p s r,
  strip_prefix p s = Some r -> length s = length p + length r.
Proof.
  induction p as [|x p IH]; intros s r H; simpl in H.
  - now injection H as <-.
  - destruct s as [|y s]; [discriminate|].
    destruct (x =? y)%N; [|discriminate].
    simpl. now rewrite (IH s r H).
Qed.

Lemma match_number_shorter : forall s i fr ex r,
  match_number s = Some (i, fr, ex, r) -> length r < length s.
Proof.
  intros s i fr ex r H.
  pose proof (match_number_concat s i fr ex r H) as E.
  assert (Hi : i <> []).
  { unfold match_number in H.
    destruct (match_integer s) as [[i0 r0]|] eqn:Ei; [|discriminate].
    destruct (match_frac r0) as [fr0 r1]. destruct (match_exp r1) as [ex0 r2].
    injection H as <- _ _ _.
    unfold match_integer in Ei. destruct s as [|c t]; [discriminate|].
    assert (Hu : forall sign s1, match_unsigned sign s1 = Some (i0, r0) -> i0 <> []).
    { intros sign [|c1 t1] Hm; [discriminate|]. unfold match_unsigned in Hm.
      destruct (c1 =? 48)%N.
      - injection Hm as <- _. now destruct sign.
      - destruct (is_digit c1); [|discriminate].
        destruct (span_digits t1). injection Hm as <- _. now destruct sign. }
    destruct (c =? 45)%N; eapply Hu; exact Ei. }
  rewrite E. rewrite !length_app. destruct i; [contradiction|]. simpl. lia.
Qed.

Lemma scan_constant_shorter : forall s v r,
  scan_constant s = Some (v, r) -> length r < length s.
Proof.
  intros s v r H. unfold scan_constant in H.
  destruct (strip_prefix (py "NaN") s) eqn:E1.
  { injection H as _ <-. apply strip_prefix_length in E1. rewrite E1.
    simpl. lia. }
  destruct (strip_prefix (py "Infinity") s) eqn:E2.
  { injection H as _ <-. apply strip_prefix_length in E2. rewrite E2.
    simpl. lia. }
  destruct (strip_prefix (py "-Infinity") s) eqn:E3; [|discriminate].
  injection H as _ <-. apply strip_prefix_length in E3. rewrite E3.
  simpl. lia.
Qed.

Lemma scanned_ok : forall s v r, length r < length s -> scanned s (SOk v r).
Proof.
  intros s v r H. split; [discriminate|].
  intros v' r' E. now injection E as _ <-.
Qed.

Lemma scanned_decode_error : forall s, scanned s SDecodeError.
Proof. intros s. split; discriminate. Qed.

Lemma scanned_recursion_error : forall s, scanned s SRecursionError.
Proof. intros s. split; discriminate. Qed.

Lemma scanned_mono : forall s s' res,
  scanned s' res -> length s' <= length s -> scanned s res.
Proof.
  intros s s' res [H1 H2] Hl. split; [exact H1|].
  intros v r E. specialize (H2 v r E). lia.
Qed.

Create HintDb scan.
#[local] Hint Resolve scanned_ok scanned_decode_error scanned_recursion_error : scan.

Lemma scan_fuel : forall fuel,
  (forall d s, 2 * length s + 1 <= fuel -> scanned s (scan_once fuel d s))
  /\ (forall d s acc, 2 * length s + 2 <= fuel ->
                      scanned s (parse_pairs fuel d s acc))
  /\ (forall d s acc, 2 * length s + 2 <= fuel ->
                      scanned s (parse_items fuel d s acc)).
Proof.
  induction fuel as [|fuel (IHscan & IHpairs & IHitems)].
  { repeat split; intros; lia. }
  split; [|split].
  - (* scan_once *)
    intros d [|c r] Hf; cbn [scan_once]; [auto with scan|].
    cbn [length] in Hf.
    destruct (c =? 34)%N.
    { destruct (scanstring r) as [[t rest]|] eqn:E; [|auto with scan].
      apply scanned_ok.
      pose proof (scanstring_shorter (length r) r t rest (le_n _) E).
      cbn [length]. lia. }
    destruct (c =? 123)%N.
    { destruct d as [|d]; [auto with scan|].
      destruct (skip_ws r) as [|x r'] eqn:E; [auto with scan|].
      apply skip_ws_cons in E.
      destruct (x =? 125)%N; [apply scanned_ok; cbn [length]; lia|].
      destruct (x =? 34)%N; [|auto with scan].
      apply (scanned_mono _ r'); [|cbn [length]; lia].
      apply IHpairs. lia. }
    destruct (c =? 91)%N.
    { destruct d as [|d]; [auto with scan|].
      destruct (skip_ws r) as [|x r'] eqn:E; [auto with scan|].
      apply skip_ws_cons in E.
      destruct (x =? 93)%N; [apply scanned_ok; cbn [length]; lia|].
      apply (scanned_mono _ (x :: r')); [|cbn [length]; lia].
      apply IHitems. cbn [length]. lia. }
    destruct (strip_prefix (py "null") (c :: r)) eqn:E1.
    { apply scanned_ok. apply strip_prefix_length in E1. rewrite E1.
      simpl. lia. }
    destruct (strip_prefix (py "true") (c :: r)) eqn:E2.
    { apply scanned_ok. apply strip_prefix_length in E2. rewrite E2.
      simpl. lia. }
    destruct (strip_prefix (py "false") (c :: r)) eqn:E3.
    { apply scanned_ok. apply strip_prefix_length in E3. rewrite E3.
      simpl. lia. }
    destruct (match_number (c :: r)) as [[[[i fr] ex] rest]|] eqn:E4.
    { apply match_number_shorter in E4.
      destruct fr, ex; apply scanned_ok; exact E4. }
    destruct (scan_constant (c :: r)) as [[v rest]|] eqn:E5; [|auto with scan].
    apply scanned_ok. now apply scan_constant_shorter in E5.
  - (* parse_pairs *)
    intros d s acc Hf. cbn [parse_pairs].
    destruct (scanstring s) as [[key r]|] eqn:E; [|auto with scan].
    pose proof (scanstring_shorter (length s) s key r (le_n _) E) as Hr.
    destruct (skip_ws r) as [|c r1] eqn:E1; [auto with scan|].
    apply skip_ws_cons in E1.
    destruct (c =? 58)%N; [|auto with scan].
    pose proof (skip_ws_length r1) as Hr1.
    destruct (IHscan d (skip_ws r1) ltac:(lia)) as [Hne Hok].
    destruct (scan_once fuel d (skip_ws r1)) as [v r2| | |] eqn:E2;
      [|auto with scan|auto with scan|contradiction].
    specialize (Hok v r2 eq_refl).
    destruct (skip_ws r2) as [|x r3] eqn:E3; [auto with scan|].
    apply skip_ws_cons in E3.
    destruct (x =? 125)%N; [apply scanned_ok; lia|].
    destruct (x =? 44)%N; [|auto with scan].
    destruct (skip_ws r3) as [|q r4] eqn:E4; [auto with scan|].
    apply skip_ws_cons in E4.
    destruct (q =? 34)%N; [|auto with scan].
    apply (scanned_mono _ r4); [|lia].
    apply IHpairs. lia.
  - (* parse_items *)
    intros d s acc Hf. cbn [parse_items].
    destruct (IHscan d s ltac:(lia)) as [Hne Hok].
    destruct (scan_once fuel d s) as [v r| | |] eqn:E;
      [|auto with scan|auto with scan|contradiction].
    specialize (Hok v r eq_refl).
    destruct (skip_ws r) as [|x r1] eqn:E1; [auto with scan|].
    apply skip_ws_cons in E1.
    destruct (x =? 93)%N; [apply scanned_ok; lia|].
    destruct (x =? 44)%N; [|auto with scan].
    pose proof (skip_ws_length r1) as Hr1.
    apply (scanned_mono _ (skip_ws r1)); [|lia].
    apply IHitems. lia.
Qed.

(** [json_loads] never runs out of the fuel it gives the scanner: its
    [JSONDecodeError] always is an error of the scan. *)
Theorem scan_once_fuel : forall limit s,
  scan_once (2 * length s + 1) limit (skip_ws s) <> SOutOfFuel.
Proof.
  intros limit s.
  destruct (scan_fuel (2 * length s + 1)) as [H _].
  pose proof (skip_ws_length s) as Hl.
  destruct (H limit (skip_ws s) ltac:(lia)) as [Hne _]. exact Hne.
Qed.

End Fuel.

(** ** cleaning.py: the fallback of [_parse_suggestion] *)

Section Fallback.
Context {PF : PyFloat}.

Lemma py_find_nth : forall s c,
  (0 <= py_find s c)%Z -> nth_error s (Z.to_nat (py_find s c)) = Some c.
Proof.
  induction s as [|x s IH]; intros c H; simpl in *; [lia|].
  destruct (N.eqb_spec x c) as [->|_]; [reflexivity|].
  destruct (py_find s c <? 0)%Z eqn:E; [lia|].
  apply Z.ltb_ge in E.
  replace (Z.to_nat (py_find s c + 1)) with (S (Z.to_nat (py_find s c))) by lia.
  now apply IH.
Qed.

Lemma py_rfind_nth : forall s c,
  (0 <= py_rfind s c)%Z -> nth_error s (Z.to_nat (py_rfind s c)) = Some c.
Proof.
  induction s as [|x s IH]; intros c H; simpl in *; [lia|].
  destruct (0 <=? py_rfind s c)%Z eqn:E.
  - apply Z.leb_le in E.
    replace (Z.to_nat (py_rfind s c + 1)) with (S (Z.to_nat (py_rfind s c)))
      by lia.
    now apply IH.
  - destruct (N.eqb_spec x c) as [->|_]; [reflexivity | lia].
Qed.

(** X1. The fallback of the normalizer: a text that [json.loads] rejects
    with a [JSONDecodeError] and that has no opening brace before a closing
    one yields the fallback object, with a warning in the log. *)
Theorem parse_suggestion_fallback : forall env s (w : World),
  json_loads (recursion_limit env) s = Raise JSONDecodeError ->
  (forall i j, i < j -> nth_error s i = Some 123%N ->
               nth_error s j <> Some 125%N) ->
  _parse_suggestion env s w
  = (Return (fallback_suggestion s), logged w [Warning_could_not_parse]).
Proof.
  intros env s w Hload Hpair. unfold _parse_suggestion. rewrite Hload.
  destruct ((0 <=? py_find s 123) && (py_find s 123 <? py_rfind s 125 + 1))%Z
    eqn:E; [|reflexivity].
  exfalso. apply andb_true_iff in E as [E1 E2].
  apply Z.leb_le in E1. apply Z.ltb_lt in E2.
  pose proof (py_find_nth s 123%N E1) as H1.
  pose proof (py_rfind_nth s 125%N ltac:(lia)) as H2.
  destruct (Z.eq_dec (py_find s 123) (py_rfind s 125)) as [Heq|Hneq].
  - rewrite Heq, H2 in H1. discriminate.
  - apply (Hpair (Z.to_nat (py_find s 123)) (Z.to_nat (py_rfind s 125)));
      [lia | exact H1 | exact H2].
Qed.

End Fallback.

(** ** Scenarios *)

(** The generator wraps its object in prose: the second stage cuts from the
    first opening brace to the last closing brace and parses that. *)
Example parse_suggestion_extracts_object :
  _parse_suggestion example_env
    (concat [py "Sure! {"; dq; py "status"; dq; py ": "; dq; py "clean"; dq;
             py "} thanks"])
    (world_of [])
  = (Return (@JObj ZFloat [(py "status", JStr (py "clean"))]), world_of []).
Proof. reflexivity. Qed.

(** Prose with no brace at all: the fallback object, and a warning. *)
Example parse_suggestion_falls_back :
  _parse_suggestion example_env (py "I could not find any issue.")
    (world_of [])
  = (Return (@fallback_suggestion ZFloat (py "I could not find any issue.")),
     logged (world_of []) [Warning_could_not_parse]).
Proof. reflexivity. Qed.

(** The generator's API fails: its canned answer is parsed as any other
    answer, and the row is stored as processed. *)
Example process_row_generator_down :
  fst (process_row
         {| recursion_limit := 1000;
            model_encode := fun _ => Return ([6; 0]%Z : list (@float ZFloat));
            generate_content := fun _ => Raise APIError;
            db_fault := fun _ => None |}
         t1 7%N jon_row (world_of []))
  = Return {| res_id := 1; res_status := py "processed";
              res_suggestion :=
                @JObj ZFloat [(py "status", JStr (py "error"));
                              (py "message", JStr (py "LLM API call failed"))] |}.
Proof. vm_compute. reflexivity. Qed.

Lemma parse_suggestion_fallback_instance :
  _parse_suggestion example_env (py "I could not find any issue.")
    (world_of [])
  = (Return (@fallback_suggestion ZFloat (py "I could not find any issue.")),
     logged (world_of []) [Warning_could_not_parse]).
Proof.
  apply (@parse_suggestion_fallback ZFloat example_env
           (py "I could not find any issue.") (world_of [])).
  - reflexivity.
  - intros i j _ Hi _. apply nth_error_In in Hi. simpl in Hi.
    repeat (destruct Hi as [Hi|Hi]; [discriminate|]). exact Hi.
Defined.

(* ================================================================== *)
(** * Further properties of the code *)

(** ** cleaning.py: every way [process_row] ends *)

Section ProcessRowOutcomes.
Context {PF : PyFloat}.

(** Steps 6 to 8 of [process_row] and its handler, from a world [w1]. *)
Lemma process_row_tail_cases :
  forall env tenant_id dataset_id row text (w1 : World),
  try_except
    (bind (logger Debug_llm_response_received) (fun _ =>
     bind (_parse_suggestion env text) (fun suggestion_json =>
     bind (lift (py_get suggestion_json (py "confidence"))) (fun confidence =>
     bind (save_cleaning_result env tenant_id dataset_id row suggestion_json
                                confidence) (fun cleaning_record =>
     bind (logger (Info_result_saved (cr_id cleaning_record))) (fun _ =>
     ret {| res_id := cr_id cleaning_record;
            res_status := cr_status cleaning_record;
            res_suggestion := suggestion_json |}))))))
    (fun e => bind (logger (Error_processing_row e)) (fun _ => raise e)) w1
  = finish_row env tenant_id dataset_id row
      (_parse_suggestion env text (logged w1 [Debug_llm_response_received])).
Proof.
  intros env tenant_id dataset_id row text w1.
  unfold try_except, bind, finish_row. rewrite logger_logged. cbv beta iota.
  destruct (_parse_suggestion env text _) as [[v|e] w2]; [|reflexivity].
  unfold lift.
  destruct (py_get v (py "confidence")) as [c|e]; [|reflexivity].
  unfold save_cleaning_result.
  destruct (db_fault env InsertResult); reflexivity.
Qed.

(** The outcome of [_parse_suggestion] and what it logs depend on the text
    only, not on the world. *)
Lemma parse_suggestion_pure : forall env s,
  exists o evs, forall w : World, _parse_suggestion env s w = (o, logged w evs).
Proof.
  intros env s. unfold _parse_suggestion.
  destruct (json_loads (recursion_limit env) s) as [v|e].
  { exists (Return v), []. intros w. now rewrite logged_nil. }
  destruct e;
    try (eexists (Raise _), []; intros w; rewrite logged_nil; reflexivity).
  match goal with
  | |- context [match ?x with Some _ => _ | None => _ end] => destruct x as [v|]
  end.
  - exists (Return v), []. intros w. now rewrite logged_nil.
  - exists (Return (fallback_suggestion s)), [Warning_could_not_parse].
    reflexivity.
Qed.

(** [generate_cleaning_suggestion] returns the generator's text, or the
    canned answer when the call fails; it records the prompt. *)
Lemma generate_cleaning_suggestion_answer :
  forall env context row_data (w : World),
  exists evs,
    generate_cleaning_suggestion env context row_data w
    = (Return (answer_of env (user_message context row_data)),
       {| tenant_embeddings := tenant_embeddings w;
          cleaning_results := cleaning_results w;
          log := log w ++ evs;
          llm_requests := llm_requests w ++ [user_message context row_data] |}).
Proof.
  intros env context row_data w.
  unfold generate_cleaning_suggestion, answer_of, bind, logger. simpl.
  destruct (generate_content env (user_message context row_data)) as [s|e]; simpl.
  - exists [Debug_calling_gemini; Debug_raw_response s; Info_llm_generated].
    rewrite <- !app_assoc. reflexivity.
  - exists [Debug_calling_gemini; Error_llm_suggestion e].
    rewrite <- !app_assoc. reflexivity.
Qed.

(** [process_row] once the embedding is made and stored: the documents of
    the retrieval make the prompt, the answer to the prompt is parsed, and
    [finish_row] does the rest. *)
Lemma process_row_after_inserts :
  forall env tenant_id dataset_id row (w : World) emb,
    model_encode env (json_dumps (Some 2) row) = Return emb ->
    db_fault env InsertEmbedding = None ->
    exists docs evs0 evs,
      retrieve_similar env tenant_id emb 3
        (with_embedding
           (logged w [Info_processing_row tenant_id dataset_id;
                      Debug_embedding_dimension (length emb)])
           tenant_id (json_dumps (Some 2) row) emb)
      = (Return docs,
         logged (with_embedding
                   (logged w [Info_processing_row tenant_id dataset_id;
                              Debug_embedding_dimension (length emb)])
                   tenant_id (json_dumps (Some 2) row) emb) evs0)
      /\ process_row env tenant_id dataset_id row w
         = finish_row env tenant_id dataset_id row
             (_parse_suggestion env
                (answer_of env (user_message (context_of docs)
                                             (json_dumps (Some 2) row)))
                (after_prompt w tenant_id (json_dumps (Some 2) row) emb
                   (user_message (context_of docs) (json_dumps (Some 2) row))
                   evs)).
Proof.
  intros env tenant_id dataset_id row w emb Henc Hdb.
  set (text := json_dumps (Some 2) row).
  set (w1 := with_embedding
               (logged w [Info_processing_row tenant_id dataset_id;
                          Debug_embedding_dimension (length emb)])
               tenant_id text emb).
  destruct (retrieve_similar_total env tenant_id emb 3 w1) as [docs [evs0 Hr]].
  destruct (generate_cleaning_suggestion_answer env (context_of docs) text
              (logged (logged w1 evs0) [Info_retrieved_documents (length docs)]))
    as [evs' Hg].
  exists docs, evs0,
    ([Info_processing_row tenant_id dataset_id;
      Debug_embedding_dimension (length emb)]
     ++ evs0 ++ [Info_retrieved_documents (length docs)] ++ evs'
     ++ [Debug_llm_response_received]).
  split; [exact Hr|].
  unfold process_row. fold text.
  erewrite try_bind_return by apply logger_logged.
  erewrite try_bind_return by (apply generate_embedding_return; exact Henc).
  erewrite try_bind_return by apply logger_logged.
  erewrite try_bind_return
    by (rewrite logged_logged; apply save_embedding_return; exact Hdb).
  erewrite try_bind_return by exact Hr.
  erewrite try_bind_return by apply logger_logged.
  erewrite try_bind_return by exact Hg.
  rewrite process_row_tail_cases.
  do 2 f_equal. unfold after_prompt, logged, w1, with_embedding. simpl.
  f_equal. rewrite <- !app_assoc. reflexivity.
Qed.

(** [process_row] ends before the embedding is stored, with nothing but
    log entries, or it reaches [finish_row] with the embedding stored and
    the prompt sent. *)
Lemma process_row_cases :
  forall env tenant_id dataset_id row (w : World),
    (exists e evs,
        process_row env tenant_id dataset_id row w
        = (Raise e, logged w (evs ++ [Error_processing_row e])))
    \/ (exists emb prompt evs o evs',
          process_row env tenant_id dataset_id row w
          = finish_row env tenant_id dataset_id row
              (o, logged (after_prompt w tenant_id (json_dumps (Some 2) row)
                            emb prompt evs) evs')).
Proof.
  intros env tenant_id dataset_id row w.
  destruct (model_encode env (json_dumps (Some 2) row)) as [emb|e] eqn:Henc.
  2:{ left. exists e, [Info_processing_row tenant_id dataset_id;
                       Error_generating_embedding e].
      unfold process_row.
      erewrite try_bind_return by apply logger_logged.
      erewrite try_bind_raise by (apply generate_embedding_raise; exact Henc).
      unfold bind. rewrite logger_logged. cbv beta iota. unfold raise.
      now rewrite !logged_logged. }
  destruct (db_fault env InsertEmbedding) as [e|] eqn:Hdb.
  { left. exists e, [Info_processing_row tenant_id dataset_id;
                     Debug_embedding_dimension (length emb)].
    unfold process_row.
    erewrite try_bind_return by apply logger_logged.
    erewrite try_bind_return by (apply generate_embedding_return; exact Henc).
    erewrite try_bind_return by apply logger_logged.
    erewrite try_bind_raise
      by (unfold save_embedding; rewrite Hdb; reflexivity).
    unfold bind. rewrite logger_logged. cbv beta iota. unfold raise.
    now rewrite !logged_logged. }
  right.
  destruct (process_row_after_inserts env tenant_id dataset_id row w emb
              Henc Hdb) as (docs & evs0 & evs & _ & Hrow).
  destruct (parse_suggestion_pure env
              (answer_of env (user_message (context_of docs)
                                           (json_dumps (Some 2) row))))
    as (o & evs' & Hp).
  rewrite Hp in Hrow.
  exists emb, (user_message (context_of docs) (json_dumps (Some 2) row)),
    evs, o, evs'.
  exact Hrow.
Qed.

(** X2. [process_row] returns exactly when it has written a Cleaning
    Result.  When it returns, one Cleaning Result is added: it has the next
    id of the table, the tenant, the dataset and the row of the call, the
    status "processed", the suggestion that is returned, which is a dict,
    and the confidence read from that dict; the id and the status returned
    are those of the stored row.  When it raises, the table of Cleaning
    Results is as before, and the last entry of the log is the error raised. *)
Theorem process_row_result_iff_returns :
  forall env tenant_id dataset_id row (w : World),
    match process_row env tenant_id dataset_id row w with
    | (Return r, w') =>
        exists d,
          res_suggestion r = JObj d
          /\ cleaning_results w'
             = cleaning_results w
               ++ [cleaning_record_of w tenant_id dataset_id row (JObj d)
                     (dict_get d (py "confidence"))]
          /\ res_id r = Z.of_nat (S (length (cleaning_results w)))
          /\ res_status r = py "processed"
    | (Raise e, w') =>
        cleaning_results w' = cleaning_results w
        /\ exists evs, log w' = log w ++ evs ++ [Error_processing_row e]
    end.
Proof.
  intros env tenant_id dataset_id row w.
  destruct (process_row_cases env tenant_id dataset_id row w)
    as [(e & evs & ->) | (emb & prompt & evs & o & evs' & ->)].
  { split; [reflexivity|]. exists evs. reflexivity. }
  unfold finish_row.
  destruct o as [v|e].
  2:{ split; [reflexivity|]. exists (evs ++ evs'). simpl.
      now rewrite <- !app_assoc. }
  destruct v as [| | | | |l|d]; simpl;
    try (split; [reflexivity|]; exists (evs ++ evs');
         now rewrite <- !app_assoc).
  destruct (db_fault env InsertResult) as [e|].
  { split; [reflexivity|]. exists (evs ++ evs'). simpl.
    now rewrite <- !app_assoc. }
  exists d. simpl. repeat split; reflexivity.
Qed.

(** X3. [process_row] only appends: whatever happens, the rows, the
    Cleaning Results, the prompts and the log entries that were there stay
    as they are, in place.  One call adds at most one embedding, at most
    one prompt and at most one Cleaning Result; a Cleaning Result is only
    added after a prompt was sent, a prompt only after the embedding was
    stored; what is added belongs to the tenant of the call. *)
Theorem process_row_append_only :
  forall env tenant_id dataset_id row (w : World),
    exists embeddings prompts results evs,
      tenant_embeddings (snd (process_row env tenant_id dataset_id row w))
      = tenant_embeddings w ++ embeddings
      /\ llm_requests (snd (process_row env tenant_id dataset_id row w))
         = llm_requests w ++ prompts
      /\ cleaning_results (snd (process_row env tenant_id dataset_id row w))
         = cleaning_results w ++ results
      /\ log (snd (process_row env tenant_id dataset_id row w)) = log w ++ evs
      /\ length results <= length prompts
      /\ length prompts <= length embeddings
      /\ length embeddings <= 1
      /\ Forall (fun r => te_tenant_id r = tenant_id
                          /\ te_content r = json_dumps (Some 2) row) embeddings
      /\ Forall (fun r => cr_tenant_id r = tenant_id
                          /\ cr_dataset_id r = dataset_id
                          /\ cr_row_data r = row) results.
Proof.
  intros env tenant_id dataset_id row w.
  destruct (process_row_cases env tenant_id dataset_id row w)
    as [(e & evs & ->) | (emb & prompt & evs & o & evs' & ->)].
  { exists [], [], [], (evs ++ [Error_processing_row e]). simpl.
    rewrite !app_nil_r. repeat split; auto. }
  assert (Hraise : forall e,
    let w' := logged (logged (after_prompt w tenant_id (json_dumps (Some 2) row)
                                emb prompt evs) evs')
                     [Error_processing_row e] in
    exists embeddings prompts results evs0,
      tenant_embeddings w' = tenant_embeddings w ++ embeddings
      /\ llm_requests w' = llm_requests w ++ prompts
      /\ cleaning_results w' = cleaning_results w ++ results
      /\ log w' = log w ++ evs0
      /\ length results <= length prompts
      /\ length prompts <= length embeddings
      /\ length embeddings <= 1
      /\ Forall (fun r => te_tenant_id r = tenant_id
                          /\ te_content r = json_dumps (Some 2) row) embeddings
      /\ Forall (fun r : CleaningResult =>
                   cr_tenant_id r = tenant_id
                   /\ cr_dataset_id r = dataset_id
                   /\ cr_row_data r = row) results).
  { intros e. eexists [_], [prompt], [], ((evs ++ evs') ++ [_]). simpl.
    rewrite !app_nil_r, <- !app_assoc.
    repeat split; auto. }
  unfold finish_row.
  destruct o as [v|e]; [|apply Hraise].
  destruct (py_get v (py "confidence")) as [c|e]; [|apply Hraise].
  destruct (db_fault env InsertResult) as [e|]; [apply Hraise|].
  eexists [_], [prompt], [_], ((evs ++ evs') ++ [_]). simpl.
  rewrite <- !app_assoc.
  repeat split; auto.
Qed.

(** [process_row] when the embedding and both inserts succeed and the
    answer to the prompt parses to a dict. *)
Lemma process_row_stores_dict :
  forall env tenant_id dataset_id row (w : World) emb,
    model_encode env (json_dumps (Some 2) row) = Return emb ->
    db_fault env InsertEmbedding = None ->
    db_fault env InsertResult = None ->
    exists docs evs,
      forall d evs',
        (forall w0 : World,
            _parse_suggestion env
              (answer_of env (user_message (context_of docs)
                                           (json_dumps (Some 2) row))) w0
            = (Return (JObj d), logged w0 evs')) ->
        process_row env tenant_id dataset_id row w
        = (Return {| res_id := Z.of_nat (S (length (cleaning_results w)));
                     res_status := py "processed";
                     res_suggestion := JObj d |},
           {| tenant_embeddings :=
                tenant_embeddings w
                ++ [{| te_id := Z.of_nat (S (length (tenant_embeddings w)));
                       te_tenant_id := tenant_id;
                       te_content := json_dumps (Some 2) row;
                       te_embedding := emb |}];
              cleaning_results :=
                cleaning_results w
                ++ [cleaning_record_of w tenant_id dataset_id row (JObj d)
                      (dict_get d (py "confidence"))];
              log := (log w ++ evs ++ evs')
                     ++ [Info_result_saved
                           (Z.of_nat (S (length (cleaning_results w))))];
              llm_requests :=
                llm_requests w
                ++ [user_message (context_of docs)
                                 (json_dumps (Some 2) row)] |}).
Proof.
  intros env tenant_id dataset_id row w emb Henc Hins Hres.
  destruct (process_row_after_inserts env tenant_id dataset_id row w emb
              Henc Hins) as (docs & evs0 & evs & _ & Hrow).
  exists docs, evs. intros d evs' Hp.
  rewrite Hrow, Hp. unfold finish_row. simpl. rewrite Hres.
  rewrite <- !app_assoc. reflexivity.
Qed.

(** X4. The good path of [process_row]: the embedding and both inserts
    succeed and the generator answers with a text that is a JSON object.
    The call returns the parsed object as suggestion with the status
    "processed" and the id of the Cleaning Result, which is the one row
    added to the table, with the confidence read from the object under
    "confidence" (none when the key is missing); one embedding of the
    serialized row is stored and one prompt about that row is sent. *)
Theorem process_row_success :
  forall env tenant_id dataset_id row (w : World) emb s d,
    model_encode env (json_dumps (Some 2) row) = Return emb ->
    db_fault env InsertEmbedding = None ->
    db_fault env InsertResult = None ->
    (forall prompt, generate_content env prompt = Return s) ->
    json_loads (recursion_limit env) s = Return (JObj d) ->
    exists context evs,
      process_row env tenant_id dataset_id row w
      = (Return {| res_id := Z.of_nat (S (length (cleaning_results w)));
                   res_status := py "processed";
                   res_suggestion := JObj d |},
         {| tenant_embeddings :=
              tenant_embeddings w
              ++ [{| te_id := Z.of_nat (S (length (tenant_embeddings w)));
                     te_tenant_id := tenant_id;
                     te_content := json_dumps (Some 2) row;
                     te_embedding := emb |}];
            cleaning_results :=
              cleaning_results w
              ++ [cleaning_record_of w tenant_id dataset_id row (JObj d)
                    (dict_get d (py "confidence"))];
            log := log w ++ evs;
            llm_requests :=
              llm_requests w
              ++ [user_message context (json_dumps (Some 2) row)] |}).
Proof.
  intros env tenant_id dataset_id row w emb s d Henc Hins Hres Hgen Hload.
  destruct (process_row_stores_dict env tenant_id dataset_id row w emb
              Henc Hins Hres) as (docs & evs & Hrow).
  exists (context_of docs). eexists.
  rewrite (Hrow d []).
  - rewrite <- !app_assoc. reflexivity.
  - intros w0. unfold answer_of. rewrite Hgen.
    unfold _parse_suggestion. rewrite Hload. now rewrite logged_nil.
Qed.

(** X5. The generator is down: every call of its API raises.  With one
    level of nesting allowed to the JSON scanner, [process_row] does not
    raise: the canned answer of [generate_cleaning_suggestion] is a JSON
    object, so the row is stored as "processed" with the suggestion
    [{status: error, message: LLM API call failed}] and no confidence. *)
Theorem process_row_generator_failure :
  forall env tenant_id dataset_id row (w : World) emb,
    model_encode env (json_dumps (Some 2) row) = Return emb ->
    db_fault env InsertEmbedding = None ->
    db_fault env InsertResult = None ->
    (forall prompt, exists e, generate_content env prompt = Raise e) ->
    1 <= recursion_limit env ->
    fst (process_row env tenant_id dataset_id row w)
    = Return {| res_id := Z.of_nat (S (length (cleaning_results w)));
                res_status := py "processed";
                res_suggestion :=
                  JObj [(py "status", JStr (py "error"));
                        (py "message", JStr (py "LLM API call failed"))] |}
    /\ cleaning_results (snd (process_row env tenant_id dataset_id row w))
       = cleaning_results w
         ++ [cleaning_record_of w tenant_id dataset_id row
               (JObj [(py "status", JStr (py "error"));
                      (py "message", JStr (py "LLM API call failed"))])
               None].
Proof.
  intros env tenant_id dataset_id row w emb Henc Hins Hres Hgen Hlimit.
  destruct (process_row_stores_dict env tenant_id dataset_id row w emb
              Henc Hins Hres) as (docs & evs & Hrow).
  rewrite (Hrow [(py "status", JStr (py "error"));
                 (py "message", JStr (py "LLM API call failed"))] []).
  - split; reflexivity.
  - intros w0. unfold answer_of.
    destruct (Hgen (user_message (context_of docs) (json_dumps (Some 2) row)))
      as [e ->].
    unfold _parse_suggestion.
    destruct (recursion_limit env) as [|n]; [lia|].
    rewrite logged_nil. reflexivity.
Qed.

(** X6. The generator answers with a text that is no JSON and holds no
    opening brace before a closing one.  [process_row] does not raise: the
    row is stored as "processed" with the fallback object as suggestion,
    which carries the raw answer, and with no confidence; the warning of
    the normalizer is in the log. *)
Theorem process_row_unparsable_answer :
  forall env tenant_id dataset_id row (w : World) emb s,
    model_encode env (json_dumps (Some 2) row) = Return emb ->
    db_fault env InsertEmbedding = None ->
    db_fault env InsertResult = None ->
    (forall prompt, generate_content env prompt = Return s) ->
    json_loads (recursion_limit env) s = Raise JSONDecodeError ->
    (forall i j, i < j -> nth_error s i = Some 123%N ->
                 nth_error s j <> Some 125%N) ->
    fst (process_row env tenant_id dataset_id row w)
    = Return {| res_id := Z.of_nat (S (length (cleaning_results w)));
                res_status := py "processed";
                res_suggestion := fallback_suggestion s |}
    /\ cleaning_results (snd (process_row env tenant_id dataset_id row w))
       = cleaning_results w
         ++ [cleaning_record_of w tenant_id dataset_id row
               (fallback_suggestion s) None]
    /\ In Warning_could_not_parse
          (log (snd (process_row env tenant_id dataset_id row w))).
Proof.
  intros env tenant_id dataset_id row w emb s Henc Hins Hres Hgen Hload Hpair.
  destruct (process_row_stores_dict env tenant_id dataset_id row w emb
              Henc Hins Hres) as (docs & evs & Hrow).
  rewrite (Hrow [(py "status", JStr (py "error"));
                 (py "message", JStr (py "Could not parse LLM response"));
                 (py "raw_response", JStr s)] [Warning_could_not_parse]).
  - repeat split; try reflexivity. simpl.
    rewrite !in_app_iff. left. right. right. now left.
  - intros w0. unfold answer_of. rewrite Hgen.
    unfold _parse_suggestion. rewrite Hload.
    destruct ((0 <=? py_find s 123) && (py_find s 123 <? py_rfind s 125 + 1))%Z
      eqn:E; [|reflexivity].
    exfalso. apply andb_true_iff in E as [E1 E2].
    apply Z.leb_le in E1. apply Z.ltb_lt in E2.
    pose proof (py_find_nth s 123%N E1) as H1.
    pose proof (py_rfind_nth s 125%N ltac:(lia)) as H2.
    destruct (Z.eq_dec (py_find s 123) (py_rfind s 125)) as [Heq|Hneq].
    + rewrite Heq, H2 in H1. discriminate.
    + apply (Hpair (Z.to_nat (py_find s 123)) (Z.to_nat (py_rfind s 125)));
        [lia | exact H1 | exact H2].
Qed.

(** X7. The insert of the Cleaning Result fails after the generator has
    answered with a JSON object: [process_row] raises the exception of the
    database and writes no Cleaning Result, but nothing is undone: the
    embedding of the row stays in [tenant_embeddings] and the prompt has
    been sent. *)
Theorem process_row_result_failure :
  forall env tenant_id dataset_id row (w : World) emb s d e,
    model_encode env (json_dumps (Some 2) row) = Return emb ->
    db_fault env InsertEmbedding = None ->
    db_fault env InsertResult = Some e ->
    (forall prompt, generate_content env prompt = Return s) ->
    json_loads (recursion_limit env) s = Return (JObj d) ->
    fst (process_row env tenant_id dataset_id row w) = Raise e
    /\ cleaning_results (snd (process_row env tenant_id dataset_id row w))
       = cleaning_results w
    /\ tenant_embeddings (snd (process_row env tenant_id dataset_id row w))
       = tenant_embeddings w
         ++ [{| te_id := Z.of_nat (S (length (tenant_embeddings w)));
                te_tenant_id := tenant_id;
                te_content := json_dumps (Some 2) row;
                te_embedding := emb |}]
    /\ length (llm_requests (snd (process_row env tenant_id dataset_id row w)))
       = S (length (llm_requests w)).
Proof.
  intros env tenant_id dataset_id row w emb s d e Henc Hins Hres Hgen Hload.
  destruct (process_row_after_inserts env tenant_id dataset_id row w emb
              Henc Hins) as (docs & evs0 & evs & _ & Hrow).
  rewrite Hrow. unfold answer_of. rewrite Hgen.
  unfold _parse_suggestion. rewrite Hload.
  unfold finish_row, ret. simpl. rewrite Hres. simpl.
  repeat split; try reflexivity.
  rewrite length_app. simpl. lia.
Qed.

(** X8. When the retrieval fails, because the read of the table fails or
    because a row the tenant already has holds a vector of another length
    than the new embedding, [process_row] goes on: the prompt it sends has
    the placeholder "No previous examples available." as context, although
    the tenant has stored rows. *)
Theorem process_row_retrieval_failure :
  forall env tenant_id dataset_id row (w : World) emb,
    model_encode env (json_dumps (Some 2) row) = Return emb ->
    db_fault env InsertEmbedding = None ->
    db_fault env SelectEmbeddings <> None
    \/ Exists (fun cv => length (snd cv) <> length emb)
              (query_embeddings tenant_id w) ->
    llm_requests (snd (process_row env tenant_id dataset_id row w))
    = llm_requests w
      ++ [user_message (py "No previous examples available.")
                       (json_dumps (Some 2) row)].
Proof.
  intros env tenant_id dataset_id row w emb Henc Hins Hfail.
  destruct (process_row_to_generator env tenant_id dataset_id row w emb Henc Hins)
    as (docs & evs & text & evs' & Hr & _ & _ & Hreq & _).
  rewrite Hreq. do 3 f_equal.
  assert (Hdocs : docs = []); [|now subst docs].
  destruct (db_fault env SelectEmbeddings) as [e|] eqn:Hsel.
  - unfold retrieve_similar, try_except, bind in Hr. rewrite Hsel in Hr.
    simpl in Hr. now injection Hr as <- _.
  - destruct Hfail as [Hfail|Hex]; [congruence|].
    rewrite retrieve_similar_error in Hr.
    + now injection Hr as <- _.
    + exact Hsel.
    + rewrite query_embeddings_with_embedding, query_embeddings_logged.
      apply Exists_app. now left.
Qed.

End ProcessRowOutcomes.

(** *** Closed instances *)

Lemma process_row_success_witness :
  fst (process_row example_env t1 7%N jon_row (world_of []))
  = Return {| res_id := 1; res_status := py "processed";
              res_suggestion := @JObj ZFloat [(py "status", JStr (py "clean"))] |}
  /\ map cr_confidence
         (cleaning_results (snd (process_row example_env t1 7%N jon_row
                                   (world_of []))))
     = [None].
Proof.
  destruct (process_row_success example_env t1 7%N jon_row (world_of [])
              ([6; 0]%Z : list (@float ZFloat)) clean_response
              [(py "status", JStr (py "clean"))]
              eq_refl eq_refl eq_refl (fun _ => eq_refl) eq_refl)
    as (context & evs & H).
  rewrite H. split; reflexivity.
Defined.

Lemma process_row_generator_failure_witness :
  fst (process_row env_generator_down t1 7%N jon_row (world_of []))
  = Return {| res_id := 1; res_status := py "processed";
              res_suggestion :=
                @JObj ZFloat [(py "status", JStr (py "error"));
                              (py "message", JStr (py "LLM API call failed"))] |}.
Proof.
  apply (process_row_generator_failure env_generator_down t1 7%N jon_row
           (world_of []) ([6; 0]%Z : list (@float ZFloat))
           eq_refl eq_refl eq_refl).
  - intros prompt. exists APIError. reflexivity.
  - simpl. lia.
Defined.

Lemma process_row_unparsable_answer_witness :
  fst (process_row env_prose_answer t1 7%N jon_row (world_of []))
  = Return {| res_id := 1; res_status := py "processed";
              res_suggestion :=
                @fallback_suggestion ZFloat (py "I could not find any issue.") |}.
Proof.
  assert (Hload : json_loads (recursion_limit env_prose_answer)
                     (py "I could not find any issue.")
                   = @Raise (@json ZFloat) JSONDecodeError)
    by (vm_compute; reflexivity).
  assert (Hpair : forall i j, i < j ->
            nth_error (py "I could not find any issue.") i = Some 123%N ->
            nth_error (py "I could not find any issue.") j <> Some 125%N).
  { intros i j _ Hi _. apply nth_error_In in Hi. simpl in Hi.
    repeat (destruct Hi as [Hi|Hi]; [discriminate|]). exact Hi. }
  exact (proj1 (process_row_unparsable_answer env_prose_answer t1 7%N jon_row
                  (world_of []) ([6; 0]%Z : list (@float ZFloat))
                  (py "I could not find any issue.")
                  eq_refl eq_refl eq_refl (fun _ => eq_refl) Hload Hpair)).
Defined.

Lemma process_row_result_failure_witness :
  fst (process_row env_result_down t1 7%N jon_row (world_of []))
  = Raise StorageError
  /\ length (tenant_embeddings
               (snd (process_row env_result_down t1 7%N jon_row (world_of []))))
     = 1.
Proof.
  destruct (process_row_result_failure env_result_down t1 7%N jon_row
              (world_of []) ([6; 0]%Z : list (@float ZFloat)) clean_response
              [(py "status", JStr (py "clean"))] StorageError
              eq_refl eq_refl eq_refl (fun _ => eq_refl) eq_refl)
    as (H1 & _ & H3 & _).
  rewrite H1, H3. split; reflexivity.
Defined.

Lemma process_row_retrieval_failure_witness :
  llm_requests (snd (process_row env_select_down t1 7%N jon_row
                       (world_of example_rows)))
  = [user_message (py "No previous examples available.")
                  (json_dumps (Some 2) jon_row)].
Proof.
  apply (process_row_retrieval_failure env_select_down t1 7%N jon_row
           (world_of example_rows) ([6; 0]%Z : list (@float ZFloat))
           eq_refl eq_refl).
  left. discriminate.
Defined.

(** ** rag.py: further properties of the retrieval *)

Section RetrievalOutcomes.
Context {PF : PyFloat}.

Lemma similarities_of_length : forall q rows sims,
  similarities_of q rows = Return sims -> length sims = length rows.
Proof.
  intros q rows sims H.
  rewrite <- (length_map fst sims), <- (length_map fst rows).
  now rewrite (similarities_of_contents q rows sims H).
Qed.

Lemma py_slice_to_length : forall (A : Type) (l : list A) k,
  length (py_slice_to l k) <= length l
  /\ ((0 <= k)%Z -> length (py_slice_to l k) <= Z.to_nat k).
Proof.
  intros A l k. unfold py_slice_to.
  destruct (k <? 0)%Z eqn:E; rewrite length_firstn; split; lia.
Qed.

(** X9. [retrieve_similar] never raises and never writes: whatever the
    read of the table and the comparison of the vectors do inside its
    [try], it returns a list and leaves the tables and the prompts as they
    are, adding at most one entry to the log.  The list is never longer
    than the number of rows of the tenant, never longer than a [top_k]
    that is not negative, and empty when the read of the table fails. *)
Theorem retrieve_similar_never_raises :
  forall env tenant_id embedding top_k (w : World),
    exists docs evs,
      retrieve_similar env tenant_id embedding top_k w
      = (Return docs, logged w evs)
      /\ length evs <= 1
      /\ length docs <= length (query_embeddings tenant_id w)
      /\ ((0 <= top_k)%Z -> length docs <= Z.to_nat top_k)
      /\ (db_fault env SelectEmbeddings <> None -> docs = []).
Proof.
  intros env t q k w.
  unfold retrieve_similar, try_except, bind, lift.
  destruct (db_fault env SelectEmbeddings) as [e|].
  { exists [], [Error_retrieving_similar e].
    repeat split; simpl; auto; lia. }
  destruct (query_embeddings t w) as [|r rows].
  { exists [], [Warning_no_embeddings t].
    repeat split; simpl; auto; lia. }
  destruct (similarities_of q (r :: rows)) as [sims|e] eqn:Hs.
  - exists (map fst (py_slice_to (sort_reverse snd sims) k)), [].
    rewrite logged_nil, length_map.
    destruct (py_slice_to_length _ (sort_reverse snd sims) k) as [H1 H2].
    rewrite sort_reverse_length, (similarities_of_length _ _ _ Hs) in H1.
    repeat split; simpl; auto. congruence.
  - exists [], [Error_retrieving_similar e].
    repeat split; simpl; auto; lia.
Qed.

Lemma dot_products_comm :
  (forall a b : float, fmul a b = fmul b a) ->
  forall u v : list float,
    map (fun xy => fmul (fst xy) (snd xy)) (combine u v)
    = map (fun xy => fmul (fst xy) (snd xy)) (combine v u).
Proof.
  intros Hcomm. induction u as [|x u IH]; destruct v as [|y v]; simpl;
    try reflexivity.
  now rewrite Hcomm, IH.
Qed.

(** X11. The cosine similarity is symmetric when the product of floats is
    commutative: both orders of the two vectors give the same number, or
    both raise the [ValueError] of [np.dot] (when the lengths differ). *)
Theorem compute_cosine_similarity_sym :
  (forall a b : float, fmul a b = fmul b a) ->
  forall vec1 vec2,
    compute_cosine_similarity vec1 vec2 = compute_cosine_similarity vec2 vec1
    /\ (compute_cosine_similarity vec1 vec2 = Raise ValueError
        <-> length vec1 <> length vec2).
Proof.
  intros Hcomm vec1 vec2. unfold compute_cosine_similarity, np_dot.
  rewrite !length_map. split.
  - rewrite (Nat.eqb_sym (length vec2)).
    destruct (Nat.eqb (length vec1) (length vec2)); [|reflexivity].
    f_equal. f_equal. now apply dot_products_comm.
  - destruct (Nat.eqb_spec (length vec1) (length vec2)) as [E|E].
    + split; [discriminate | contradiction].
    + split; auto.
Qed.

(** The contents in the order of the ranking, without the positions. *)
Lemma ranked_contents : forall q (rows : list (str * list float)) m,
  map (fun e : nat * (str * float) => fst (snd e))
      (firstn m (sort_reverse (fun e => snd (snd e)) (scored q rows)))
  = map fst (firstn m
      (sort_reverse snd
         (map (fun cv : str * list float => (fst cv, similarity q (snd cv)))
              rows))).
Proof.
  intros q rows m.
  assert (Hcomb : length (seq 0 (length rows))
                  = length (map (fun cv : str * list float =>
                                   (fst cv, similarity q (snd cv))) rows))
    by now rewrite length_seq, length_map.
  rewrite <- (map_map snd fst), <- firstn_map.
  rewrite (sort_reverse_map _ _ snd snd).
  unfold scored. now rewrite (map_snd_combine _ _ _ _ Hcomb).
Qed.

Lemma scored_ranking : forall (FO : FloatOrder PF) q rows,
  Forall (fun cv => not_nan (similarity q (snd cv))) rows ->
  StronglySorted ranks_before
    (sort_reverse (fun e => snd (snd e)) (scored q rows)).
Proof.
  intros FO q rows Hnan.
  apply sort_reverse_sorted; [now apply scored_not_nan|]. unfold scored.
  rewrite map_fst_combine by now rewrite length_seq, length_map.
  apply seq_sorted.
Qed.

(** X10. A negative [top_k] is no error: when the read succeeds and every
    stored vector of the tenant has the length of the query,
    [retrieve_similar] returns [n + top_k] contents for the tenant's [n]
    rows, or none when the tenant has no more than [-top_k] rows, as the
    slice of Python does.  When moreover no similarity of the call is a
    NaN, so that [<] orders them, these are the contents of the ranking
    without its last [-top_k] rows. *)
Theorem retrieve_similar_negative_top_k :
  forall env tenant_id embedding top_k (w : World),
    db_fault env SelectEmbeddings = None ->
    Forall (fun cv => length (snd cv) = length embedding)
           (query_embeddings tenant_id w) ->
    (top_k < 0)%Z ->
    exists docs,
      fst (retrieve_similar env tenant_id embedding top_k w) = Return docs
      /\ length docs
         = length (query_embeddings tenant_id w) - Z.to_nat (- top_k)
      /\ (forall FO : FloatOrder PF,
            Forall (fun cv => not_nan (similarity embedding (snd cv)))
                   (query_embeddings tenant_id w) ->
            exists ranked,
              Permutation ranked
                (scored embedding (query_embeddings tenant_id w))
              /\ StronglySorted ranks_before ranked
              /\ docs = map (fun e => fst (snd e))
                            (firstn (length ranked - Z.to_nat (- top_k))
                                    ranked)).
Proof.
  intros env t q k w Hdb Hlen Hk.
  set (rows := query_embeddings t w) in *.
  set (sims := map (fun cv : str * list float =>
                      (fst cv, similarity q (snd cv))) rows).
  exists (map fst (firstn (length rows - Z.to_nat (- k))
                          (sort_reverse snd sims))).
  split.
  { destruct rows as [|r0 rows'] eqn:Hrows.
    - rewrite (retrieve_similar_empty env t q k w Hdb Hrows). reflexivity.
    - assert (Hne : query_embeddings t w <> []) by (fold rows; congruence).
      rewrite (retrieve_similar_ranked env t q k w Hdb Hne);
        [|fold rows; now rewrite Hrows].
      fold rows. rewrite Hrows. unfold py_slice_to.
      apply Z.ltb_lt in Hk. rewrite Hk.
      now rewrite sort_reverse_length, length_map. }
  split.
  { rewrite length_map, length_firstn, sort_reverse_length. unfold sims.
    rewrite length_map. lia. }
  intros FO Hnan.
  exists (sort_reverse (fun e => snd (snd e)) (scored q rows)).
  split; [apply sort_reverse_perm|].
  split; [now apply scored_ranking|].
  rewrite sort_reverse_length, scored_length.
  symmetry. apply ranked_contents.
Qed.

(** The retrieval right after an insert for the same tenant, when
    [top_k] exceeds the number of rows the tenant had. *)
Lemma retrieve_similar_with_embedding :
  forall env tenant_id content embedding query top_k (w : World),
    db_fault env SelectEmbeddings = None ->
    Forall (fun cv => length (snd cv) = length query)
           (query_embeddings tenant_id w) ->
    length embedding = length query ->
    (Z.of_nat (length (query_embeddings tenant_id w)) < top_k)%Z ->
    exists docs,
      retrieve_similar env tenant_id query top_k
        (with_embedding w tenant_id content embedding)
      = (Return docs, with_embedding w tenant_id content embedding)
      /\ Permutation docs
           (map fst (query_embeddings tenant_id w) ++ [content]).
Proof.
  intros env t content emb q k w Hsel Hlen Hemb Hk.
  assert (Hq : query_embeddings t (with_embedding w t content emb)
               = query_embeddings t w ++ [(content, emb)])
    by apply query_embeddings_with_embedding.
  rewrite retrieve_similar_ranked.
  - rewrite Hq.
    set (sims := map (fun cv : str * list float =>
                        (fst cv, similarity q (snd cv)))
                     (query_embeddings t w ++ [(content, emb)])).
    assert (Hall : py_slice_to (sort_reverse snd sims) k
                   = sort_reverse snd sims).
    { rewrite py_slice_to_nonneg by lia. apply firstn_all2.
      rewrite sort_reverse_length. unfold sims.
      rewrite length_map, length_app. simpl. lia. }
    rewrite Hall.
    eexists. split; [reflexivity|].
    eapply Permutation_trans;
      [apply Permutation_map, sort_reverse_perm|].
    unfold sims. rewrite map_map. cbn [fst].
    rewrite map_app. apply Permutation_refl.
  - exact Hsel.
  - rewrite Hq. now destruct (query_embeddings t w).
  - rewrite Hq. apply Forall_app. split; [exact Hlen|].
    constructor; [exact Hemb | constructor].
Qed.

(** X12. What [save_embedding] stores, [retrieve_similar] finds: when the
    insert and the read succeed, the vectors of the tenant have the length
    of the query, and [top_k] exceeds the number of rows the tenant had,
    the retrieval after the insert returns the contents of all rows of the
    tenant, the new content among them.  For every other tenant the
    retrieval returns what it returned before the insert. *)
Theorem save_embedding_retrievable :
  forall env tenant_id content embedding query top_k (w : World),
    db_fault env InsertEmbedding = None ->
    db_fault env SelectEmbeddings = None ->
    Forall (fun cv => length (snd cv) = length query)
           (query_embeddings tenant_id w) ->
    length embedding = length query ->
    (Z.of_nat (length (query_embeddings tenant_id w)) < top_k)%Z ->
    (exists docs,
        fst (retrieve_similar env tenant_id query top_k
               (snd (save_embedding env tenant_id content embedding w)))
        = Return docs
        /\ In content docs
        /\ Permutation docs
             (map fst (query_embeddings tenant_id w) ++ [content]))
    /\ (forall other,
          other <> tenant_id ->
          fst (retrieve_similar env other query top_k
                 (snd (save_embedding env tenant_id content embedding w)))
          = fst (retrieve_similar env other query top_k w)).
Proof.
  intros env t content emb q k w Hins Hsel Hlen Hemb Hk.
  rewrite (save_embedding_return env t content emb w Hins). cbn [snd].
  split.
  - destruct (retrieve_similar_with_embedding env t content emb q k w
                Hsel Hlen Hemb Hk) as (docs & Hr & Hperm).
    exists docs. rewrite Hr. split; [reflexivity|]. split; [|exact Hperm].
    apply (Permutation_in _ (Permutation_sym Hperm)).
    apply in_or_app. right. now left.
  - intros other Hne. apply retrieve_similar_of_query.
    unfold query_embeddings, with_embedding. cbn [tenant_embeddings].
    rewrite filter_app. cbn [filter te_tenant_id].
    rewrite (str_eqb_neq t other) by congruence.
    now rewrite app_nil_r.
Qed.

End RetrievalOutcomes.

(** *** Closed instances *)

Lemma retrieve_similar_negative_top_k_witness :
  exists docs,
    fst (retrieve_similar example_env t1 ([6; 0]%Z : list (@float ZFloat))
           (-1) (world_of example_rows))
    = Return docs
    /\ length docs = 3
    /\ exists ranked,
         Permutation ranked
           (scored ([6; 0]%Z : list (@float ZFloat))
                   (query_embeddings t1 (world_of example_rows)))
         /\ StronglySorted ranks_before ranked
         /\ docs = map (fun e => fst (snd e))
                       (firstn (length ranked - 1) ranked).
Proof.
  destruct (retrieve_similar_negative_top_k example_env t1
              ([6; 0]%Z : list (@float ZFloat)) (-1) (world_of example_rows)
              eq_refl ltac:(repeat constructor) ltac:(lia))
    as (docs & Hfst & Hlen & Hrank).
  destruct (Hrank ZFloat_order ltac:(repeat constructor; discriminate))
    as (ranked & Hp & Hs & Hdocs).
  exists docs. split; [exact Hfst|]. split; [exact Hlen|].
  exists ranked. auto.
Defined.

Lemma compute_cosine_similarity_sym_witness :
  compute_cosine_similarity ([6; 0]%Z : list (@float ZFloat)) [0; 6; 1]%Z
  = compute_cosine_similarity ([0; 6; 1]%Z : list (@float ZFloat)) [6; 0]%Z.
Proof.
  exact (proj1 (@compute_cosine_similarity_sym ZFloat Z.mul_comm
                  ([6; 0]%Z : list (@float ZFloat)) [0; 6; 1]%Z)).
Defined.

Lemma save_embedding_retrievable_witness :
  exists docs,
    fst (retrieve_similar example_env t2 ([6; 0]%Z : list (@float ZFloat)) 3
           (snd (save_embedding example_env t2 (py "y")
                   ([0; 6]%Z : list (@float ZFloat))
                   (world_of example_rows))))
    = Return docs
    /\ In (py "y") docs.
Proof.
  destruct (save_embedding_retrievable example_env t2 (py "y")
              ([0; 6]%Z : list (@float ZFloat))
              ([6; 0]%Z : list (@float ZFloat)) 3 (world_of example_rows)
              eq_refl eq_refl ltac:(repeat constructor) eq_refl
              ltac:(simpl; lia))
    as [(docs & H1 & H2 & _) _].
  exists docs. split; assumption.
Defined.

(** ** cleaning.py: further properties of [_parse_suggestion] *)

Section NormalizerOutcomes.
Context {PF : PyFloat}.

(** X13. [_parse_suggestion] raises only what the first [json.loads]
    raises, and never a [JSONDecodeError]: it raises [e] exactly when the
    parse of the whole text raises [e] and [e] is no [JSONDecodeError].
    In every other case it returns, whatever the second parse does. *)
Theorem parse_suggestion_raises_iff :
  forall env s (w : World) e,
    fst (_parse_suggestion env s w) = Raise e
    <-> json_loads (recursion_limit env) s = Raise e /\ e <> JSONDecodeError.
Proof.
  intros env s w e. unfold _parse_suggestion.
  destruct (json_loads (recursion_limit env) s) as [v|e0].
  { simpl. split; [discriminate | intros [H _]; discriminate]. }
  destruct e0;
    try (simpl; split;
         [ intros H; injection H as <-; split; [reflexivity | discriminate]
         | intros [H _]; exact H ]).
  match goal with
  | |- context [match ?x with Some _ => _ | None => _ end] => destruct x
  end; simpl;
    (split; [discriminate | intros [H Hne]; injection H as <-; contradiction]).
Qed.

Lemma py_find_fresh : forall pre c t,
  Forall (fun x => x <> c) pre ->
  py_find (pre ++ c :: t) c = Z.of_nat (length pre).
Proof.
  induction pre as [|x pre IH]; intros c t H; simpl.
  - now rewrite N.eqb_refl.
  - inversion H as [|? ? Hx Hpre]; subst.
    destruct (N.eqb_spec x c) as [E|_]; [contradiction|].
    rewrite (IH c t Hpre).
    destruct (Z.ltb_spec (Z.of_nat (length pre)) 0); lia.
Qed.

Lemma py_rfind_none : forall post c,
  Forall (fun x => x <> c) post -> py_rfind post c = (-1)%Z.
Proof.
  induction post as [|x post IH]; intros c H; simpl; [reflexivity|].
  inversion H as [|? ? Hx Hpost]; subst.
  rewrite (IH c Hpost). simpl.
  destruct (N.eqb_spec x c) as [E|_]; [contradiction | reflexivity].
Qed.

Lemma py_rfind_fresh : forall s c post,
  Forall (fun x => x <> c) post ->
  py_rfind (s ++ c :: post) c = Z.of_nat (length s).
Proof.
  induction s as [|x s IH]; intros c post H.
  - simpl. rewrite (py_rfind_none post c H). simpl. now rewrite N.eqb_refl.
  - cbn [app py_rfind length]. rewrite (IH c post H).
    destruct (Z.leb_spec 0 (Z.of_nat (length s))); lia.
Qed.

Lemma py_slice_middle : forall (A : Type) (pre mid post : list A),
  py_slice (pre ++ mid ++ post) (Z.of_nat (length pre))
           (Z.of_nat (length pre + length mid))
  = mid.
Proof.
  intros A pre mid post. unfold py_slice.
  replace (Z.to_nat (Z.of_nat (length pre + length mid) - Z.of_nat (length pre)))
    with (length mid) by lia.
  rewrite Nat2Z.id, skipn_app, skipn_all, Nat.sub_diag. simpl.
  rewrite firstn_app, firstn_all, Nat.sub_diag. simpl. apply app_nil_r.
Qed.

Lemma py_slice_prefix : forall (A : Type) (mid post : list A),
  py_slice (mid ++ post) 0 (Z.of_nat (length mid)) = mid.
Proof.
  intros A mid post. unfold py_slice.
  rewrite Z.sub_0_r, Nat2Z.id. cbn [Z.to_nat skipn].
  rewrite firstn_app, firstn_all, Nat.sub_diag. simpl. apply app_nil_r.
Qed.

(** The text of a dict opens with a brace and closes with one. *)
Lemma iterencode_dict_braces : forall indent level (d : list (str * json)),
  exists body, iterencode indent level (JObj d) = 123%N :: body ++ [125%N].
Proof.
  intros indent level [|kv d].
  - exists []. reflexivity.
  - cbn [iterencode]. change (py "{") with [123%N]. change (py "}") with [125%N].
    eexists. cbn [app]. f_equal. rewrite !app_assoc. reflexivity.
Qed.

Context {FR : FloatRepr PF}.

(** X14. An answer that wraps its object in other text (prose, a Markdown
    fence): when the whole text is no JSON, nothing before the object
    holds an opening brace and nothing after it a closing one,
    [_parse_suggestion] returns the object itself and logs nothing.  This
    holds for every valid JSON object [X] written by [json.dumps] that is
    nested no deeper than the interpreter lets the scanner go and whose
    integers have no more digits than the interpreter converts, in an
    answer without a longer run of digits. *)
Theorem parse_suggestion_wrapped_object :
  forall env indent X before after (w : World),
    is_dict X = true ->
    valid_json X = true ->
    ints_within_limit X = true ->
    json_depth X <= recursion_limit env ->
    Forall (fun c => c <> 123%N) before ->
    Forall (fun c => c <> 125%N) after ->
    digit_runs_within_limit (before ++ json_dumps indent X ++ after) = true ->
    json_loads (recursion_limit env) (before ++ json_dumps indent X ++ after)
    = Raise JSONDecodeError ->
    _parse_suggestion env (before ++ json_dumps indent X ++ after) w
    = (Return X, w).
Proof.
  intros env indent X before after w Hdict Hv _ Hd Hbefore Hafter _ Hload.
  unfold _parse_suggestion. rewrite Hload.
  pose proof (json_loads_dumps (recursion_limit env) indent X Hv Hd) as Hobj.
  destruct X as [| | | | | |d]; try discriminate.
  destruct (iterencode_dict_braces indent 0 d) as [body Hbody].
  unfold json_dumps in *. rewrite Hbody in *.
  assert (Hstart : py_find (before ++ (123%N :: body ++ [125%N]) ++ after) 123
                   = Z.of_nat (length before)).
  { cbn [app]. now apply py_find_fresh. }
  assert (Hend : py_rfind (before ++ (123%N :: body ++ [125%N]) ++ after) 125
                 = Z.of_nat (length (before ++ 123%N :: body))).
  { replace (before ++ (123%N :: body ++ [125%N]) ++ after)
      with ((before ++ 123%N :: body) ++ 125%N :: after)
      by (cbn [app]; rewrite <- !app_assoc; reflexivity).
    now apply py_rfind_fresh. }
  rewrite Hstart, Hend.
  replace (Z.of_nat (length (before ++ 123%N :: body)) + 1)%Z
    with (Z.of_nat (length before + length (123%N :: body ++ [125%N])))
    by (rewrite !length_app; cbn [length]; rewrite length_app; cbn [length];
        lia).
  rewrite py_slice_middle, Hobj.
  replace ((0 <=? Z.of_nat (length before))
           && (Z.of_nat (length before)
               <? Z.of_nat (length before
                            + length (123%N :: body ++ [125%N]))))%Z%bool
    with true; [reflexivity|].
  symmetry. apply andb_true_iff. split; [apply Z.leb_le | apply Z.ltb_lt];
    cbn [length]; lia.
Qed.

Lemma skip_ws_all : forall ws s,
  forallb is_ws ws = true -> skip_ws (ws ++ s) = skip_ws s.
Proof.
  induction ws as [|c ws IH]; intros s H; [reflexivity|].
  simpl in H. apply andb_true_iff in H as [Hc Hws].
  cbn [app skip_ws]. rewrite Hc. now apply IH.
Qed.

Lemma number_end_ws : forall ws, forallb is_ws ws = true -> number_end ws = true.
Proof.
  intros [|c ws] H; [reflexivity|].
  simpl in H. apply andb_true_iff in H as [Hc _].
  unfold number_end, is_ws, is_digit in *.
  repeat (apply orb_true_iff in Hc as [Hc|Hc]);
    apply N.eqb_eq in Hc; subst c; reflexivity.
Qed.

Lemma ws_not_bom : forall c, is_ws c = true -> (c =? 65279)%N = false.
Proof.
  intros c Hc. unfold is_ws in Hc.
  repeat (apply orb_true_iff in Hc as [Hc|Hc]);
    apply N.eqb_eq in Hc; subst c; reflexivity.
Qed.

(** [json.loads] skips white space before and after the value. *)
Lemma json_loads_padded : forall limit indent v ws1 ws2,
  valid_json v = true ->
  json_depth v <= limit ->
  forallb is_ws ws1 = true ->
  forallb is_ws ws2 = true ->
  json_loads limit (ws1 ++ json_dumps indent v ++ ws2) = Return v.
Proof.
  intros limit indent v ws1 ws2 Hv Hd H1 H2.
  unfold json_loads, json_dumps.
  destruct (iterencode_head FR indent 0 v Hv) as (c & t & Ec & _ & _ & Hbom).
  assert (Hhead : match ws1 ++ iterencode indent 0 v ++ ws2 with
                  | c0 :: _ => (c0 =? 65279)%N
                  | [] => false
                  end = false).
  { destruct ws1 as [|c1 ws1]; cbn [app].
    - rewrite Ec. exact Hbom.
    - simpl in H1. apply andb_true_iff in H1 as [Hc _]. now apply ws_not_bom. }
  rewrite Hhead.
  rewrite (skip_ws_all ws1 _ H1).
  rewrite (skip_ws_iterencode indent 0 v ws2 Hv).
  rewrite (iterencode_round_trips v indent 0 _ limit ws2 Hv Hd).
  - rewrite <- (app_nil_r ws2), (skip_ws_all ws2 [] H2). reflexivity.
  - rewrite !length_app. lia.
  - now apply number_end_ws.
Qed.

(** X15. White space around the object does no harm: for every valid
    JSON value [X] nested no deeper than the scanner may go, with integers
    of no more digits than the interpreter converts, the text of [X] with
    spaces, tabs and line breaks before and after it is normalized to [X]
    by the first parse, with nothing logged. *)
Theorem parse_suggestion_padded :
  forall env indent X ws1 ws2 (w : World),
    valid_json X = true ->
    ints_within_limit X = true ->
    json_depth X <= recursion_limit env ->
    forallb is_ws ws1 = true ->
    forallb is_ws ws2 = true ->
    _parse_suggestion env (ws1 ++ json_dumps indent X ++ ws2) w
    = (Return X, w).
Proof.
  intros env indent X ws1 ws2 w Hv _ Hd H1 H2. unfold _parse_suggestion.
  now rewrite (json_loads_padded (recursion_limit env) indent X ws1 ws2
                 Hv Hd H1 H2).
Qed.

(** X16. The text [process_row] embeds and stores identifies the row: two
    valid rows with the same [json.dumps] text, whatever the indents, are
    the same row. *)
Theorem json_dumps_injective :
  forall indent1 indent2 row1 row2,
    valid_json row1 = true ->
    valid_json row2 = true ->
    json_dumps indent1 row1 = json_dumps indent2 row2 ->
    row1 = row2.
Proof.
  intros indent1 indent2 row1 row2 H1 H2 E.
  pose proof (json_loads_dumps (Nat.max (json_depth row1) (json_depth row2))
                indent1 row1 H1 ltac:(lia)) as L1.
  pose proof (json_loads_dumps (Nat.max (json_depth row1) (json_depth row2))
                indent2 row2 H2 ltac:(lia)) as L2.
  rewrite E, L2 in L1. now injection L1.
Qed.

End NormalizerOutcomes.

(** *** Closed instances *)

Lemma parse_suggestion_wrapped_object_witness :
  _parse_suggestion example_env fenced_response (world_of [])
  = (Return (@JObj ZFloat [(py "status", JStr (py "clean"))]), world_of []).
Proof.
  assert (Hload : json_loads (recursion_limit example_env) fenced_response
                  = @Raise (@json ZFloat) JSONDecodeError)
    by (vm_compute; reflexivity).
  exact (@parse_suggestion_wrapped_object ZFloat ZFloat_repr example_env None
           (JObj [(py "status", JStr (py "clean"))])
           (py "```json" ++ nl) (nl ++ py "```") (world_of [])
           eq_refl eq_refl eq_refl ltac:(simpl; lia)
           ltac:(repeat constructor; discriminate)
           ltac:(repeat constructor; discriminate)
           eq_refl Hload).
Defined.

Lemma parse_suggestion_padded_witness :
  _parse_suggestion example_env
    (nl ++ json_dumps (Some 2) example_suggestion ++ py " " ++ nl)
    (world_of [])
  = (Return example_suggestion, world_of []).
Proof.
  apply (@parse_suggestion_padded ZFloat ZFloat_repr example_env (Some 2)
           example_suggestion nl (py " " ++ nl) (world_of [])).
  - reflexivity.
  - vm_compute. reflexivity.
  - simpl. lia.
  - reflexivity.
  - reflexivity.
Defined.

Lemma json_dumps_injective_witness :
  row_ab = JObj [(py "a", JInt 1); (py "b", @JInt ZFloat 2)].
Proof.
  apply (@json_dumps_injective ZFloat ZFloat_repr (Some 2) (Some 2) row_ab
           (JObj [(py "a", JInt 1); (py "b", JInt 2)]));
    reflexivity.
Defined.

(** ** cleaning.py: the context of a tenant's first rows *)

Section ContextOfFirstRows.
Context {PF : PyFloat}.

(** X17. The row is its own example.  [process_row] stores the embedding
    before it retrieves, with [top_k = 3]: for a tenant with at most two
    stored rows, all of the length of the new embedding, and a working
    database, the documents of the prompt are the contents the tenant had
    together with the text of the row being cleaned, joined by the
    separator; the placeholder for "no previous examples" is not used. *)
Theorem process_row_context_includes_row :
  forall env tenant_id dataset_id row (w : World) emb,
    model_encode env (json_dumps (Some 2) row) = Return emb ->
    db_fault env InsertEmbedding = None ->
    db_fault env SelectEmbeddings = None ->
    Forall (fun cv => length (snd cv) = length emb)
           (query_embeddings tenant_id w) ->
    length (query_embeddings tenant_id w) <= 2 ->
    exists docs,
      Permutation docs (map fst (query_embeddings tenant_id w)
                        ++ [json_dumps (Some 2) row])
      /\ llm_requests (snd (process_row env tenant_id dataset_id row w))
         = llm_requests w
           ++ [user_message (join (nl ++ py "---" ++ nl) docs)
                            (json_dumps (Some 2) row)].
Proof.
  intros env tenant_id dataset_id row w emb Henc Hins Hsel Hlen Hfew.
  destruct (process_row_to_generator env tenant_id dataset_id row w emb Henc Hins)
    as (docs & evs & text & evs' & Hr & _ & _ & Hreq & _).
  destruct (retrieve_similar_with_embedding env tenant_id
              (json_dumps (Some 2) row) emb emb 3
              (logged w [Info_processing_row tenant_id dataset_id;
                         Debug_embedding_dimension (length emb)])
              Hsel Hlen eq_refl)
    as (docs' & Hr' & Hperm).
  { rewrite query_embeddings_logged. lia. }
  rewrite Hr' in Hr. injection Hr as <- _.
  rewrite query_embeddings_logged in Hperm.
  exists docs'. split; [exact Hperm|].
  rewrite Hreq. do 3 f_equal.
  destruct docs' as [|doc docs']; [|reflexivity].
  apply Permutation_nil in Hperm.
  now destruct (map fst (query_embeddings tenant_id w)).
Qed.

End ContextOfFirstRows.

Lemma process_row_context_includes_row_witness :
  exists docs,
    Permutation docs [py "x"; json_dumps (Some 2) jon_row]
    /\ llm_requests (snd (process_row example_env t2 7%N jon_row
                            (world_of example_rows)))
       = [user_message (join (nl ++ py "---" ++ nl) docs)
                       (json_dumps (Some 2) jon_row)].
Proof.
  apply (process_row_context_includes_row example_env t2 7%N jon_row
           (world_of example_rows) ([6; 0]%Z : list (@float ZFloat))).
  - reflexivity.
  - reflexivity.
  - reflexivity.
  - repeat constructor.
  - simpl. lia.
Defined.

(** ** main.py: the answers of the endpoint *)

Section EndpointOutcomes.
Context {PF : PyFloat}.

(** X18. The endpoint answers with the result exactly when a Cleaning
    Result was written.  Its answer echoes the tenant and the dataset id of
    the payload as texts, and the row that was added is the one the answer
    describes, stored under the parsed dataset id.  Every failure is
    answered with status 400 or 500 and leaves the table of Cleaning
    Results as it was; a dataset id that [UUID] rejects leaves the whole
    world as it was: no embedding, no prompt, no log entry of the
    pipeline. *)
Theorem process_row_endpoint_answer :
  forall uuid env payload (w : World),
    match process_row_endpoint uuid env payload w with
    | (Response tenant_id dataset_id result, w', _) =>
        tenant_id = tenantId payload
        /\ dataset_id = datasetId payload
        /\ exists id d,
             uuid (datasetId payload) = Return id
             /\ res_suggestion result = JObj d
             /\ res_id result = Z.of_nat (S (length (cleaning_results w)))
             /\ cleaning_results w'
                = cleaning_results w
                  ++ [cleaning_record_of w (tenantId payload) id (row payload)
                        (JObj d) (dict_get d (py "confidence"))]
    | (HTTPException status_code _, w', _) =>
        (status_code = 400 \/ status_code = 500)
        /\ cleaning_results w' = cleaning_results w
        /\ (forall e, uuid (datasetId payload) = Raise e -> w' = w)
    end.
Proof.
  intros uuid env payload w. unfold process_row_endpoint.
  destruct (uuid (datasetId payload)) as [id|e].
  2:{ destruct (is_ValueError e); auto. }
  assert (Hraise : forall e w',
    cleaning_results w' = cleaning_results w ->
    match
      (if is_ValueError e
       then (HTTPException 400 (Invalid_dataset_ID_format e), w',
             [Main_info_processing_row (tenantId payload) (datasetId payload)]
             ++ [Main_error_invalid_dataset_id e])
       else (HTTPException 500 (Error_processing_row_detail e), w',
             [Main_info_processing_row (tenantId payload) (datasetId payload)]
             ++ [Main_error_processing_row e]))
    with
    | (Response tenant_id dataset_id result, w'', _) =>
        tenant_id = tenantId payload
        /\ dataset_id = datasetId payload
        /\ exists id0 d,
             Return id = Return id0
             /\ res_suggestion result = JObj d
             /\ res_id result = Z.of_nat (S (length (cleaning_results w)))
             /\ cleaning_results w''
                = cleaning_results w
                  ++ [cleaning_record_of w (tenantId payload) id0 (row payload)
                        (JObj d) (dict_get d (py "confidence"))]
    | (HTTPException status_code _, w'', _) =>
        (status_code = 400 \/ status_code = 500)
        /\ cleaning_results w'' = cleaning_results w
        /\ (forall e0, @Return UUID id = Raise e0 -> w'' = w)
    end).
  { intros e w' H. destruct (is_ValueError e);
      (split; [auto|]; split; [exact H | discriminate]). }
  destruct (process_row_cases env (tenantId payload) id (row payload) w)
    as [(e & evs & ->) | (emb & prompt & evs & o & evs' & ->)].
  { now apply Hraise. }
  unfold finish_row.
  destruct o as [v|e]; [|now apply Hraise].
  destruct v as [| | | | |l|d]; cbn [py_get]; try now apply Hraise.
  destruct (db_fault env InsertResult) as [e|]; [now apply Hraise|].
  split; [reflexivity|]. split; [reflexivity|].
  exists id, d. repeat split; reflexivity.
Qed.

(** X19. The endpoint takes every [ValueError] for a bad dataset id.  With
    a dataset id that [UUID] accepts, an exception of the embedding model
    that is a [ValueError] is answered with status 400 and the detail
    "Invalid dataset ID format"; any other exception of the model is
    answered with status 500.  In both cases the pipeline has stored
    nothing and sent no prompt. *)
Theorem process_row_endpoint_value_error :
  forall uuid env payload (w : World) id e,
    uuid (datasetId payload) = Return id ->
    model_encode env (json_dumps (Some 2) (row payload)) = Raise e ->
    fst (fst (process_row_endpoint uuid env payload w))
    = (if is_ValueError e
       then HTTPException 400 (Invalid_dataset_ID_format e)
       else HTTPException 500 (Error_processing_row_detail e))
    /\ snd (fst (process_row_endpoint uuid env payload w))
       = logged w [Info_processing_row (tenantId payload) id;
                   Error_generating_embedding e;
                   Error_processing_row e].
Proof.
  intros uuid env payload w id e Hid Henc.
  unfold process_row_endpoint. rewrite Hid.
  assert (E : process_row env (tenantId payload) id (row payload) w
              = (Raise e,
                 logged w [Info_processing_row (tenantId payload) id;
                           Error_generating_embedding e;
                           Error_processing_row e])).
  { unfold process_row.
    erewrite try_bind_return by apply logger_logged.
    erewrite try_bind_raise by (apply generate_embedding_raise; exact Henc).
    unfold bind. rewrite logger_logged. cbv beta iota. unfold raise.
    now rewrite !logged_logged. }
  rewrite E. destruct (is_ValueError e); split; reflexivity.
Qed.

End EndpointOutcomes.

Lemma process_row_endpoint_value_error_witness :
  fst (fst (process_row_endpoint example_uuid env_encode_value_error
              example_payload (world_of [])))
  = HTTPException 400 (Invalid_dataset_ID_format ValueError).
Proof.
  exact (proj1 (process_row_endpoint_value_error example_uuid
                  env_encode_value_error example_payload (world_of [])
                  7%N ValueError eq_refl eq_refl)).
Defined.

(** ** cleaning.py: where the extraction of [_parse_suggestion] ends *)

Section NormalizerLimits.
Context {PF : PyFloat} {FR : FloatRepr PF}.

(** The scanner reads a dict back whatever follows it. *)
Lemma scan_once_dict : forall l indent level fuel d rest,
  valid_json (JObj l) = true ->
  json_depth (JObj l) <= d ->
  2 * length (iterencode indent level (JObj l) ++ rest) + 1 <= fuel ->
  scan_once fuel d (iterencode indent level (JObj l) ++ rest)
  = SOk (JObj l) rest.
Proof.
  intros l indent level fuel d rest Hv Hd Hfuel.
  destruct fuel as [|fuel]; [lia|].
  destruct l as [|[k v] l].
  - destruct d as [|d]; [simpl in Hd; lia|]. reflexivity.
  - rewrite iterencode_object in *.
    destruct d as [|d]; [simpl in Hd; lia|].
    cbn [valid_json forallb map fst snd distinct_keys] in Hv.
    apply andb_true_iff in Hv as [Hv Hdist].
    apply andb_true_iff in Hv as [Hkv Hvl].
    apply andb_true_iff in Hkv as [Hk Hvv].
    cbn [scan_once N.eqb Pos.eqb].
    rewrite skip_ws_newline_indent.
    cbn [skip_ws is_ws N.eqb Pos.eqb orb].
    rewrite (parse_pairs_encoded indent level d rest l).
    + cbn [List.rev app]. rewrite dict_of_pairs_distinct; [reflexivity|].
      cbn [map fst distinct_keys]. now rewrite Hdist.
    + apply Forall_forall. intros y Hy. repeat split.
      * apply iterencode_round_trips.
      * rewrite forallb_forall in Hvl. specialize (Hvl y Hy).
        now apply andb_true_iff in Hvl as [? _].
      * rewrite forallb_forall in Hvl. specialize (Hvl y Hy).
        now apply andb_true_iff in Hvl as [_ ?].
      * cbn [json_depth] in Hd.
        pose proof (json_depth_pair ((k, v) :: l) y (or_intror Hy)) as Hle.
        cbn [fold_right] in *. lia.
    + apply iterencode_round_trips.
    + exact Hk.
    + exact Hvv.
    + cbn [json_depth fold_right snd] in Hd. lia.
    + solve_length.
Qed.

Lemma skip_ws_nonblank : forall s c,
  In c s -> is_ws c = false -> skip_ws s <> [].
Proof.
  induction s as [|x s IH]; intros c Hin Hc; [contradiction|].
  simpl. destruct (is_ws x) eqn:Ex; [|discriminate].
  destruct Hin as [->|Hin]; [congruence|]. now apply (IH c).
Qed.

Lemma json_loads_from_head : forall limit s c t,
  s = c :: t -> is_ws c = false -> (c =? 65279)%N = false ->
  json_loads limit s
  = match scan_once (2 * length s + 1) limit s with
    | SOk v rest =>
      match skip_ws rest with
      | [] => Return v
      | _ :: _ => Raise JSONDecodeError
      end
    | SDecodeError => Raise JSONDecodeError
    | SRecursionError => Raise RecursionError
    | SOutOfFuel => Raise JSONDecodeError
    end.
Proof.
  intros limit s c t -> Hws Hbom. unfold json_loads.
  rewrite Hbom. cbn [skip_ws]. rewrite Hws. reflexivity.
Qed.

(** [json.loads] rejects a dict followed by text that is not blank. *)
Lemma json_loads_extra_data : forall limit indent l rest c,
  valid_json (JObj l) = true ->
  json_depth (JObj l) <= limit ->
  In c rest -> is_ws c = false ->
  json_loads limit (json_dumps indent (JObj l) ++ rest) = Raise JSONDecodeError.
Proof.
  intros limit indent l rest c Hv Hd Hin Hc.
  unfold json_dumps.
  destruct (iterencode_dict_braces indent 0 l) as [body Hbody].
  rewrite (json_loads_from_head limit _ 123%N ((body ++ [125%N]) ++ rest));
    [| rewrite Hbody; reflexivity | reflexivity | reflexivity].
  rewrite (scan_once_dict l indent 0 _ limit rest Hv Hd) by lia.
  destruct (skip_ws rest) eqn:E; [|reflexivity].
  exfalso. exact (skip_ws_nonblank rest c Hin Hc E).
Qed.

Lemma escape_char_length : forall c, 1 <= length (escape_char c).
Proof.
  intros c. unfold escape_char.
  repeat match goal with
         | |- context [if ?b then _ else _] => destruct b
         end; simpl; lia.
Qed.

Lemma encode_basestring_ascii_length : forall s,
  length s + 2 <= length (encode_basestring_ascii s).
Proof.
  intros s. unfold encode_basestring_ascii.
  rewrite !length_app. cbn [length].
  induction s as [|c s IH]; cbn [flat_map length]; [lia|].
  rewrite length_app. pose proof (escape_char_length c). lia.
Qed.

(** The text of the fallback object is longer than the answer it holds. *)
Lemma fallback_suggestion_length : forall indent text,
  length text < length (json_dumps indent (fallback_suggestion text)).
Proof.
  intros indent text. unfold json_dumps, fallback_suggestion.
  cbn [iterencode map join flat_map fst snd].
  pose proof (encode_basestring_ascii_length text).
  rewrite !length_app. lia.
Qed.

(** X20. The extraction cuts from the first opening brace to the last
    closing brace, so a closing brace anywhere behind the object spoils it:
    for a valid JSON object [X] at the start of the answer (nested no
    deeper than the scanner may go, its integers of no more digits than
    the interpreter converts), followed by text that holds a closing
    brace, [_parse_suggestion] does not return [X]; it returns the
    fallback object, which is another one, and logs the warning. *)
Theorem parse_suggestion_trailing_brace :
  forall env indent X middle last (w : World),
    is_dict X = true ->
    valid_json X = true ->
    ints_within_limit X = true ->
    json_depth X <= recursion_limit env ->
    Forall (fun c => c <> 125%N) last ->
    _parse_suggestion env (json_dumps indent X ++ middle ++ 125%N :: last) w
    = (Return (fallback_suggestion
                 (json_dumps indent X ++ middle ++ 125%N :: last)),
       logged w [Warning_could_not_parse])
    /\ X <> fallback_suggestion (json_dumps indent X ++ middle ++ 125%N :: last).
Proof.
  intros env indent X middle last w Hdict Hv _ Hd Hlast.
  destruct X as [| | | | | |l]; try discriminate.
  split.
  2:{ intros E.
      pose proof (fallback_suggestion_length indent
                    (json_dumps indent (JObj l) ++ middle ++ 125%N :: last))
        as Hlen.
      rewrite <- E in Hlen. rewrite length_app in Hlen. lia. }
  unfold _parse_suggestion.
  rewrite (json_loads_extra_data (recursion_limit env) indent l
             (middle ++ 125%N :: last) 125%N Hv Hd)
    by (try reflexivity; apply in_or_app; right; now left).
  destruct (iterencode_dict_braces indent 0 l) as [body Hbody].
  assert (Hstart : py_find (json_dumps indent (JObj l) ++ middle ++ 125%N :: last)
                     123 = 0%Z).
  { unfold json_dumps. rewrite Hbody. reflexivity. }
  assert (Hend : py_rfind (json_dumps indent (JObj l) ++ middle ++ 125%N :: last)
                   125
                 = Z.of_nat (length (json_dumps indent (JObj l) ++ middle))).
  { rewrite app_assoc. now apply py_rfind_fresh. }
  rewrite Hstart, Hend.
  assert (Hslice : py_slice (json_dumps indent (JObj l) ++ middle ++ 125%N :: last)
                     0 (Z.of_nat (length (json_dumps indent (JObj l) ++ middle)) + 1)
                   = json_dumps indent (JObj l) ++ middle ++ [125%N]).
  { replace (Z.of_nat (length (json_dumps indent (JObj l) ++ middle)) + 1)%Z
      with (Z.of_nat (length (json_dumps indent (JObj l) ++ middle ++ [125%N])))
      by (rewrite !length_app; cbn [length]; lia).
    replace (json_dumps indent (JObj l) ++ middle ++ 125%N :: last)
      with ((json_dumps indent (JObj l) ++ middle ++ [125%N]) ++ last)
      by (rewrite <- !app_assoc; reflexivity).
    apply py_slice_prefix. }
  rewrite Hslice.
  rewrite (json_loads_extra_data (recursion_limit env) indent l
             (middle ++ [125%N]) 125%N Hv Hd)
    by (try reflexivity; apply in_or_app; right; now left).
  replace ((0 <=? 0)
           && (0 <? Z.of_nat (length (json_dumps indent (JObj l) ++ middle)) + 1))%Z%bool
    with true; [reflexivity|].
  symmetry. apply andb_true_iff. split; [apply Z.leb_le | apply Z.ltb_lt]; lia.
Qed.

End NormalizerLimits.

Lemma parse_suggestion_trailing_brace_witness :
  _parse_suggestion example_env (clean_response ++ py " (see {notes})")
    (world_of [])
  = (Return (@fallback_suggestion ZFloat
               (clean_response ++ py " (see {notes})")),
     logged (world_of []) [Warning_could_not_parse]).
Proof.
  exact (proj1 (@parse_suggestion_trailing_brace ZFloat ZFloat_repr example_env
                  None (JObj [(py "status", JStr (py "clean"))])
                  (py " (see {notes") (py ")") (world_of [])
                  eq_refl eq_refl eq_refl ltac:(simpl; lia)
                  ltac:(repeat constructor; discriminate))).
Defined.

(** ** main.py: an answer nested too deeply *)

Section EndpointDeepAnswer.
Context {PF : PyFloat}.

(** X21. What a too deeply nested answer of the generator costs.  With a
    dataset id that [UUID] accepts and a working embedding model and
    database, an answer on which [json.loads] raises [RecursionError] is
    not turned into the fallback object: the exception leaves
    [_parse_suggestion] and [process_row], the endpoint answers with status
    500, no Cleaning Result is written, and the embedding of the row stays
    in [tenant_embeddings]. *)
Theorem process_row_endpoint_deep_answer :
  forall uuid env payload (w : World) id emb s,
    uuid (datasetId payload) = Return id ->
    model_encode env (json_dumps (Some 2) (row payload)) = Return emb ->
    db_fault env InsertEmbedding = None ->
    (forall prompt, generate_content env prompt = Return s) ->
    json_loads (recursion_limit env) s = Raise RecursionError ->
    fst (fst (process_row_endpoint uuid env payload w))
    = HTTPException 500 (Error_processing_row_detail RecursionError)
    /\ cleaning_results (snd (fst (process_row_endpoint uuid env payload w)))
       = cleaning_results w
    /\ tenant_embeddings (snd (fst (process_row_endpoint uuid env payload w)))
       = tenant_embeddings w
         ++ [{| te_id := Z.of_nat (S (length (tenant_embeddings w)));
                te_tenant_id := tenantId payload;
                te_content := json_dumps (Some 2) (row payload);
                te_embedding := emb |}].
Proof.
  intros uuid env payload w id emb s Hid Henc Hins Hgen Hload.
  unfold process_row_endpoint. rewrite Hid.
  destruct (process_row_after_inserts env (tenantId payload) id (row payload)
              w emb Henc Hins) as (docs & evs0 & evs & _ & Hrow).
  rewrite Hrow. unfold answer_of. rewrite Hgen.
  unfold _parse_suggestion. rewrite Hload.
  unfold finish_row, raise. cbn [is_ValueError fst snd].
  repeat split; reflexivity.
Qed.

End EndpointDeepAnswer.

Lemma process_row_endpoint_deep_answer_witness :
  fst (fst (process_row_endpoint example_uuid env_deep_answer example_payload
              (world_of [])))
  = HTTPException 500 (Error_processing_row_detail RecursionError).
Proof.
  exact (proj1 (process_row_endpoint_deep_answer example_uuid env_deep_answer
                  example_payload (world_of []) 7%N
                  ([6; 0]%Z : list (@float ZFloat)) (py "[[[")
                  eq_refl eq_refl eq_refl (fun _ => eq_refl) eq_refl)).
Defined.
